(** * VisionDataComm: the capture, dataset, poller and chat logic, embedded in Rocq

    The development follows the TypeScript sources:
    - [src/App.tsx]: the shared dataset and goal store ([handleNewCapture]);
    - [src/services/geminiService.ts]: the inference adapter
      ([analyzeFieldImage], [generateInspectionVideo], [sendChatMessage]);
    - the field view component (capture session and guidance loop);
    - [src/components/ChatPanel.tsx]: the chat coordinator ([handleSend]);
    - [src/components/DataView.tsx]: the dataset aggregates, the progress
      bars and the items that the generated videos show;
    - [src/components/CoverageVisualization.tsx]: the counts of the hotspots.

    Part I holds the embedding, one module per source file.  Part II holds
    the lemmas and the theorems about it, Part III further properties of
    the sources. *)

From Stdlib Require Import ZArith QArith Qround Qpower Lia Lqa Ascii.
From Stdlib Require PrimFloat Uint63 FloatOps SpecFloat.
From stdpp Require Import base option list strings gmap.

Local Open Scope Z_scope.

(* ===================================================================== *)
(** * Part I: the embedding                                               *)
(* ===================================================================== *)

(** ** JavaScript values used by the sources *)

Module JS.

(** A thrown value.  The sources only log it or rethrow it unchanged. *)
Inductive Error : Type := MkError (message : string).

(** How a call ends: it returns, or it throws.  For an awaited promise:
    it is fulfilled, or it is rejected. *)
Inductive Completion (A : Type) : Type :=
| Normal (a : A)
| Throw (e : Error).
Arguments Normal {A} a.
Arguments Throw {A} e.

Definition bind {A B} (c : Completion A) (k : A -> Completion B) : Completion B :=
  match c with
  | Normal a => k a
  | Throw e => Throw e
  end.

(** [try { body } catch (error) { handler }] *)
Definition try_catch {A} (body : Completion A) (handler : Error -> Completion A)
  : Completion A :=
  match body with
  | Normal a => Normal a
  | Throw e => handler e
  end.

(** The [TypeError] of a property read on [undefined]; its message depends
    on the engine and is not modelled. *)
Definition TypeError : Error := MkError "TypeError".

(** A [string | undefined] value inside a template literal. *)
Definition template (v : option string) : string :=
  match v with
  | Some s => s
  | None => "undefined"
  end.

(** Truthiness of a [string | null | undefined] value: [null], [undefined]
    and the empty string are falsy. *)
Definition truthy (v : option string) : bool :=
  match v with
  | None => false
  | Some EmptyString => false
  | Some (String _ _) => true
  end.

(** [a || b] on [string | null | undefined] with a string default. *)
Definition or_else (v : option string) (d : string) : string :=
  match v with
  | Some (String c s) => String c s
  | _ => d
  end.

(** [String.prototype.toLowerCase], on the code units below 128.  Strings
    are sequences of bytes here, the UTF-8 encoding of the text; the
    letters [A]-[Z] are the only code units below 128 that [toLowerCase]
    changes, and no code unit outside that range lower-cases to one of
    [r], [u], [s], [t]. *)
Definition lower_ascii (c : ascii) : ascii :=
  let n := nat_of_ascii c in
  if ((65 <=? n)%nat && (n <=? 90)%nat)%bool then ascii_of_nat (n + 32) else c.

Fixpoint toLowerCase (s : string) : string :=
  match s with
  | EmptyString => EmptyString
  | String c s' => String (lower_ascii c) (toLowerCase s')
  end.

(** [s.startsWith(pat)] *)
Fixpoint startsWith (s pat : string) {struct pat} : bool :=
  match pat, s with
  | EmptyString, _ => true
  | String _ _, EmptyString => false
  | String p pat', String c s' => if decide (p = c) then startsWith s' pat' else false
  end.

(** [s.includes(pat)] *)
Fixpoint includes (s pat : string) : bool :=
  startsWith s pat ||
  match s with
  | EmptyString => false
  | String _ s' => includes s' pat
  end.

End JS.

(** ** The data model

    Modelled from the spec: the declarations of [../types] (section 3 of the
    specification, DATA MODEL) are not among the sources; the records below
    carry the fields that the sources read and write, with the types the
    specification gives them. *)

Module Types.

Inductive Severity : Type := Low | Medium | High | Critical.

(** An analysis as the code holds it at run time.  The adapter casts what
    it parses from the response ([JSON.parse(response.text || '{}') as
    AnalysisResult]) without a check, so the object may lack the field
    [defectType], as [{}] does: [defectType] is [None] then.
    [isQualitySufficient] is the field read as a truth value, [false] when
    it is absent.  [severity], [confidence] and [instructions] are total:
    the code modelled here only compares or prints them. *)
Record AnalysisResult : Type := {
  defectType : option string;
  severity : Severity;
  confidence : Q;
  instructions : string;
  isQualitySufficient : bool;
  missingAngles : option (list string)
}.

Inductive ItemStatus : Type := pending | approved.

Record Metadata : Type := {
  machineId : string;
  component : string;
  location : string
}.

Record CapturedItem : Type := {
  item_id : string;
  timestamp : Z;
  imageUrl : string;
  annotatedImageUrl : option string;
  analysis : option AnalysisResult;
  status : ItemStatus;
  metadata : Metadata
}.

Inductive GoalStatus : Type := active | at_risk | complete.

(** The counts are JavaScript numbers.  A count grows by one per committed
    item and an array holds fewer than [2 ^ 32] items, so the counts stay
    integers below [2 ^ 53], where the arithmetic of doubles is exact; they
    are integers here. *)
Record ProjectGoal : Type := {
  goal_id : string;
  title : string;
  targetCount : Z;
  currentCount : Z;
  deadline : string;
  goal_status : GoalStatus;
  description : string
}.

Inductive Sender : Type := user | ai.

Record ChatMessage : Type := {
  msg_id : string;
  sender : Sender;
  role : string;
  text : string;
  msg_timestamp : Z
}.

#[global] Instance ItemStatus_eq_dec : EqDecision ItemStatus.
Proof. solve_decision. Defined.

End Types.

(** ** [src/App.tsx]: the dataset store *)

Module App.
Import Types.

(** The two pieces of React state that make the store. *)
Record Store : Type := {
  capturedItems : list CapturedItem;
  goals : list ProjectGoal
}.

Definition initialGoals : list ProjectGoal :=
  [ {| goal_id := "g1"; title := "Belt Wear Analysis"; targetCount := 50;
       currentCount := 12; deadline := "2025-04-10"; goal_status := active;
       description := "Collect diversified samples of belt fraying at >30% wear." |};
    {| goal_id := "g2"; title := "Motor Mounting Rust"; targetCount := 20;
       currentCount := 18; deadline := "2025-04-05"; goal_status := at_risk;
       description := "High priority: Identifying corrosion on Unit A-4 mounts." |} ].

Definition initialStore : Store :=
  {| capturedItems := []; goals := initialGoals |}.

(** [{...g, currentCount: g.currentCount + 1}] *)
Definition increment (g : ProjectGoal) : ProjectGoal :=
  {| goal_id := goal_id g; title := title g; targetCount := targetCount g;
     currentCount := currentCount g + 1; deadline := deadline g;
     goal_status := goal_status g; description := description g |}.

(** [prev.map(g => g.id === gid ? {...g, currentCount: g.currentCount + 1} : g)] *)
Definition incrementGoal (gid : string) (prev : list ProjectGoal) : list ProjectGoal :=
  map (fun g => if decide (goal_id g = gid) then increment g else g) prev.

(** [item.analysis?.defectType.toLowerCase().includes('rust')]: the chain
    stops at [undefined] (falsy) when the item has no analysis; when the
    analysis is there and has no [defectType], [.toLowerCase()] is called
    on [undefined] and throws. *)
Definition mentionsRust (item : CapturedItem) : JS.Completion bool :=
  match analysis item with
  | None => JS.Normal false
  | Some a =>
      match defectType a with
      | None => JS.Throw JS.TypeError
      | Some d => JS.Normal (JS.includes (JS.toLowerCase d) "rust")
      end
  end.

(** [handleNewCapture]: how the call ends, and the store once React has
    applied the updates that the call queued.  [setCapturedItems] is queued
    before the condition is evaluated, so the item is stored also when the
    condition throws; no goal is updated then. *)
Definition handleNewCapture (item : CapturedItem) (st : Store) : JS.Completion unit * Store :=
  let items' := capturedItems st ++ [item] in
  match mentionsRust item with
  | JS.Normal true =>
      (JS.Normal tt, {| capturedItems := items'; goals := incrementGoal "g2" (goals st) |})
  | JS.Normal false =>
      (JS.Normal tt, {| capturedItems := items'; goals := incrementGoal "g1" (goals st) |})
  | JS.Throw e => (JS.Throw e, {| capturedItems := items'; goals := goals st |})
  end.

(** The stores the application can be in: the initial one, and any store
    obtained from such a store by one more commit. *)
Inductive reachable : Store -> Prop :=
| reachable_initial : reachable initialStore
| reachable_commit item st : reachable st -> reachable (handleNewCapture item st).2.

End App.

(** ** [src/services/geminiService.ts]: the inference adapter *)

Module geminiService.
Import Types JS.

(** What the adapter sends to [ai.models.generateContent]. *)
Record GenerateContentRequest : Type := {
  model : string;
  imageData : option string;
  prompt : string
}.

(** What the adapter reads of the response: [response.text] (here [response_text]), and the
    [inlineData.data] of each of [response.candidates?.[0]?.content?.parts]
    ([None] for a part without inline data, for the list when a link of the
    optional chain is missing). *)
Record GenerateContentResponse : Type := {
  response_text : option string;
  parts : option (list (option string))
}.

(** The handle of a video job: [operation.done], read as a truth value, and
    the optional chain [operation.response?.generatedVideos?.[0]?.video?.uri]. *)
Record Video : Type := { uri : option string }.
Record GeneratedVideo : Type := { video : option Video }.
Record GenerateVideosResponse : Type := { generatedVideos : option (list GeneratedVideo) }.
Record Operation : Type := {
  name : string;
  done : bool;
  response : option GenerateVideosResponse
}.

Record GenerateVideosRequest : Type := {
  video_model : string;
  video_prompt : string;
  imageBytes : string;
  numberOfVideos : Z;
  resolution : string;
  aspectRatio : string
}.

(** What a run of the adapter does to the outside, in order. *)
Inductive Effect : Type :=
| GenerateVideos (req : GenerateVideosRequest)
| SetTimeout (ms : Z)
| GetVideosOperation (operation : Operation)
| ConsoleError (label : string) (error : Error).

Definition fallbackAnalysis : AnalysisResult :=
  {| defectType := Some "Unknown";
     severity := Low;
     confidence := 0;
     instructions := "Analysis service unavailable. Please retry.";
     isQualitySufficient := false;
     missingAngles := None |}.

Definition analyzeRequest (base64Image contextPrompt : string) : GenerateContentRequest :=
  {| model := "gemini-2.5-flash";
     imageData := Some base64Image;
     prompt := "Analyze this industrial machinery image. Context: " +:+ contextPrompt
               +:+ ". Provide structured feedback for the field engineer." |}.



Definition videoRequest (base64Image prompt : string) : GenerateVideosRequest :=
  {| video_model := "veo-3.1-fast-generate-preview";
     video_prompt := prompt;
     imageBytes := base64Image;
     numberOfVideos := 1;
     resolution := "720p";
     aspectRatio := "16:9" |}.

(** [operation.response?.generatedVideos?.[0]?.video?.uri] *)
Definition resultUri (operation : Operation) : option string :=
  r ← response operation; vs ← generatedVideos r; v0 ← vs !! 0%nat; v ← video v0; uri v.


Section Adapter.

(** [process.env.API_KEY], as a template literal prints it. *)
Variable API_KEY : string.

(** [JSON.parse(text) as AnalysisResult] and [JSON.parse(text)] read as a
    [string[]]: the parser throws on malformed text; the casts of the source
    are unchecked, and the model covers the texts that parse to a value of
    the declared type. *)
Variable parseAnalysis : string -> Completion AnalysisResult.
Variable parseHints : string -> Completion (list string).


(** [analyzeFieldImage], given how the awaited call settles. *)
Definition analyzeFieldImage
    (generateContent : GenerateContentRequest -> Completion GenerateContentResponse)
    (base64Image contextPrompt : string) : Completion AnalysisResult :=
  try_catch
    (bind (generateContent (analyzeRequest base64Image contextPrompt)) (fun response =>
     bind (parseAnalysis (or_else (response_text response) "{}")) (fun result =>
     Normal result)))
    (fun error => Normal fallbackAnalysis).


(** [sendChatMessage], given how [chat.sendMessage] settles. *)
Definition sendChatMessage
    (sendMessage : list ChatMessage -> string -> Completion string)
    (history : list ChatMessage) (newMessage : string) : Completion string :=
  try_catch
    (bind (sendMessage history newMessage) (fun result => Normal result))
    (fun error => Normal "Connection to Central interrupted.").

(** The video service: a state and the two calls the poller makes. *)
Variable Server : Type.
Variable generateVideos : GenerateVideosRequest -> Server -> Completion Operation * Server.
Variable getVideosOperation : Operation -> Server -> Completion Operation * Server.

(** The polling loop of [generateInspectionVideo]:
    [while (!operation.done) { await sleep(5000); operation = await poll(operation) }].
    [fuel] bounds the number of iterations; the result is [None] when it
    runs out. *)
Fixpoint pollingLoop (fuel : nat) (operation : Operation) (srv : Server)
    (trace : list Effect) : option (Completion Operation) * Server * list Effect :=
  if done operation then (Some (Normal operation), srv, trace)
  else
    match fuel with
    | O => (None, srv, trace)
    | S fuel' =>
        let trace := trace ++ [SetTimeout 5000] in
        let '(polled, srv') := getVideosOperation operation srv in
        let trace := trace ++ [GetVideosOperation operation] in
        match polled with
        | Throw e => (Some (Throw e), srv', trace)
        | Normal operation' => pollingLoop fuel' operation' srv' trace
        end
    end.

(** What follows the loop: the URI with the key appended when the optional
    chain yields a truthy URI, [null] otherwise. *)
Definition videoUrl (operation : Operation) : option string :=
  if truthy (resultUri operation)
  then Some (default "" (resultUri operation) +:+ "&key=" +:+ API_KEY)
  else None.

(** [catch (error) { console.error("Video generation failed", error); throw error; }] *)
Definition rethrow {A} (r : option (Completion A) * Server * list Effect)
  : option (Completion A) * Server * list Effect :=
  match r with
  | (Some (Throw e), srv, trace) =>
      (Some (Throw e), srv, trace ++ [ConsoleError "Video generation failed" e])
  | _ => r
  end.

Definition generateInspectionVideo (fuel : nat) (base64Image prompt : string) (srv : Server)
  : option (Completion (option string)) * Server * list Effect :=
  rethrow
    (let req := videoRequest base64Image prompt in
     let '(submitted, srv0) := generateVideos req srv in
     let trace := [GenerateVideos req] in
     match submitted with
     | Throw e => (Some (Throw e), srv0, trace)
     | Normal operation =>
         match pollingLoop fuel operation srv0 trace with
         | (Some (Normal operation'), srv', trace') =>
             (Some (Normal (videoUrl operation')), srv', trace')
         | (Some (Throw e), srv', trace') => (Some (Throw e), srv', trace')
         | (None, srv', trace') => (None, srv', trace')
         end
     end).

(** The runs of the loop, without fuel: [PollRun operation srv polled r srv']
    when the loop, entered with [operation], polls the handles [polled] in
    this order and leaves with [r]. *)
Inductive PollRun : Operation -> Server -> list Operation -> Completion Operation -> Server -> Prop :=
| PollRun_done operation srv :
    done operation = true ->
    PollRun operation srv [] (Normal operation) srv
| PollRun_throw operation srv e srv' :
    done operation = false ->
    getVideosOperation operation srv = (Throw e, srv') ->
    PollRun operation srv [operation] (Throw e) srv'
| PollRun_again operation srv operation' srv' polled r srv'' :
    done operation = false ->
    getVideosOperation operation srv = (Normal operation', srv') ->
    PollRun operation' srv' polled r srv'' ->
    PollRun operation srv (operation :: polled) r srv''.

End Adapter.

Arguments pollingLoop {Server} getVideosOperation fuel operation srv trace.
Arguments rethrow {Server A} r.
Arguments generateInspectionVideo API_KEY {Server} generateVideos getVideosOperation
  fuel base64Image prompt srv.
Arguments PollRun {Server} getVideosOperation _ _ _ _ _.
Arguments PollRun_done {Server} getVideosOperation.
Arguments PollRun_throw {Server} getVideosOperation.
Arguments PollRun_again {Server} getVideosOperation.

(** A scripted video service, as a test double: the submit call returns a
    fixed handle, each poll returns the next entry of the script. *)
Module Mock.

Definition Script : Type := list (Completion Operation).

Definition submit (first : Operation) (req : GenerateVideosRequest) (srv : Script)
  : Completion Operation * Script := (Normal first, srv).

Definition poll (operation : Operation) (srv : Script) : Completion Operation * Script :=
  match srv with
  | [] => (Throw (MkError "script exhausted"), [])
  | r :: rest => (r, rest)
  end.

Definition running (n : string) : Operation :=
  {| name := n; done := false; response := None |}.

Definition finished (n : string) (u : string) : Operation :=
  {| name := n; done := true;
     response := Some {| generatedVideos := Some [ {| video := Some {| uri := Some u |} |} ] |} |}.

Definition finishedEmpty (n : string) : Operation :=
  {| name := n; done := true; response := None |}.

(** Polls answer: not done, not done, done with a result. *)
Definition script3 (u : string) : Script :=
  [Normal (running "op1"); Normal (running "op2"); Normal (finished "op3" u)].

End Mock.

(** The trace of one polling iteration per polled handle. *)
Definition pollEffects (polled : list Operation) : list Effect :=
  flat_map (fun o => [SetTimeout 5000; GetVideosOperation o]) polled.

Definition isSubmit (e : Effect) : bool :=
  match e with GenerateVideos _ => true | _ => false end.

Definition isPoll (e : Effect) : bool :=
  match e with GetVideosOperation _ => true | _ => false end.

Definition countSubmits (trace : list Effect) : nat := length (List.filter isSubmit trace).
Definition countPolls (trace : list Effect) : nat := length (List.filter isPoll trace).








(** The waiting that a trace holds, in milliseconds. *)
Fixpoint totalWait (trace : list Effect) : Z :=
  match trace with
  | [] => 0
  | SetTimeout ms :: rest => ms + totalWait rest
  | _ :: rest => totalWait rest
  end.

(** A video service whose jobs never finish. *)
Module Endless.

Definition submit (req : GenerateVideosRequest) (srv : unit)
  : Completion Operation * unit := (Normal (Mock.running "op"), tt).

Definition poll (operation : Operation) (srv : unit) : Completion Operation * unit :=
  (Normal (Mock.running "op"), tt).

End Endless.

End geminiService.

(** ** The field view component: one capture session after another

    The component keeps its React state in [State].  A handler that awaits a
    service call is split at the [await]: the part before it issues the
    call and leaves an entry in [awaiting]; the part after it runs when the
    promise settles.  The view stays mounted (the role switch of the
    application is not modelled). *)

Module FieldView.
Import Types JS.

Record State : Type := {
  capturedImage : option string;
  annotatedImage : option string;
  isAnalyzing : bool;
  isAugmenting : bool;
  analysis : option AnalysisResult;
  machineContext : string;
  isGuidanceActive : bool
}.

Definition initialState : State :=
  {| capturedImage := None; annotatedImage := None; isAnalyzing := false;
     isAugmenting := false; analysis := None;
     machineContext := "Fuselage - Section 4A"; isGuidanceActive := false |}.

Definition setCapturedImage (v : option string) (st : State) : State :=
  {| capturedImage := v; annotatedImage := annotatedImage st;
     isAnalyzing := isAnalyzing st; isAugmenting := isAugmenting st;
     analysis := analysis st; machineContext := machineContext st;
     isGuidanceActive := isGuidanceActive st |}.

Definition setAnnotatedImage (v : option string) (st : State) : State :=
  {| capturedImage := capturedImage st; annotatedImage := v;
     isAnalyzing := isAnalyzing st; isAugmenting := isAugmenting st;
     analysis := analysis st; machineContext := machineContext st;
     isGuidanceActive := isGuidanceActive st |}.

Definition setIsAnalyzing (v : bool) (st : State) : State :=
  {| capturedImage := capturedImage st; annotatedImage := annotatedImage st;
     isAnalyzing := v; isAugmenting := isAugmenting st;
     analysis := analysis st; machineContext := machineContext st;
     isGuidanceActive := isGuidanceActive st |}.

Definition setIsAugmenting (v : bool) (st : State) : State :=
  {| capturedImage := capturedImage st; annotatedImage := annotatedImage st;
     isAnalyzing := isAnalyzing st; isAugmenting := v;
     analysis := analysis st; machineContext := machineContext st;
     isGuidanceActive := isGuidanceActive st |}.

Definition setAnalysis (v : option AnalysisResult) (st : State) : State :=
  {| capturedImage := capturedImage st; annotatedImage := annotatedImage st;
     isAnalyzing := isAnalyzing st; isAugmenting := isAugmenting st;
     analysis := v; machineContext := machineContext st;
     isGuidanceActive := isGuidanceActive st |}.

Definition setMachineContext (v : string) (st : State) : State :=
  {| capturedImage := capturedImage st; annotatedImage := annotatedImage st;
     isAnalyzing := isAnalyzing st; isAugmenting := isAugmenting st;
     analysis := analysis st; machineContext := v;
     isGuidanceActive := isGuidanceActive st |}.

Definition setIsGuidanceActive (v : bool) (st : State) : State :=
  {| capturedImage := capturedImage st; annotatedImage := annotatedImage st;
     isAnalyzing := isAnalyzing st; isAugmenting := isAugmenting st;
     analysis := analysis st; machineContext := machineContext st;
     isGuidanceActive := v |}.

(** A handler suspended at an [await]. *)
Inductive Pending : Type :=
| AwaitAnalyze (base64 : option string) (context : string)
| AwaitAugment (base64 : option string) (prompt : string).

(** The service calls the component has issued. *)
Inductive Call : Type :=
| CallAnalyze (base64 : option string) (context : string)
| CallAugment (base64 : option string) (prompt : string).

(** The component, the store of the application it commits to, the
    suspended handlers, and the log of the calls issued so far. *)
Record System : Type := {
  view : State;
  store : App.Store;
  awaiting : list Pending;
  calls : list Call
}.

Definition initialSystem : System :=
  {| view := initialState; store := App.initialStore; awaiting := []; calls := [] |}.

Definition withView (f : State -> State) (sys : System) : System :=
  {| view := f (view sys); store := store sys; awaiting := awaiting sys; calls := calls sys |}.

(** Up to the first comma, and what follows it. *)
Fixpoint cutAtComma (s : string) : string * option string :=
  match s with
  | EmptyString => (EmptyString, None)
  | String c s' =>
      if decide (c = ","%char) then (EmptyString, Some s')
      else let '(h, t) := cutAtComma s' in (String c h, t)
  end.

(** [s.split(',')[1]]: the text between the first comma and the second,
    [undefined] when there is no comma. *)
Definition splitComma1 (s : string) : option string :=
  match cutAtComma s with
  | (_, None) => None
  | (_, Some rest) => Some (cutAtComma rest).1
  end.

(** The <video> element is mounted, and [videoRef.current] set, exactly
    when no image is captured. *)
Definition videoRef_current (st : State) : bool := negb (truthy (capturedImage st)).

Definition handleCapture (dataUrl : string) (sys : System) : System :=
  if videoRef_current (view sys)
  then withView (fun st => setIsGuidanceActive false (setCapturedImage (Some dataUrl) st)) sys
  else sys.

Definition handleReset (sys : System) : System :=
  withView (fun st =>
    setIsGuidanceActive false (setAnnotatedImage None (setAnalysis None
      (setCapturedImage None st)))) sys.

(** [handleAugment], up to its [await]. *)
Definition handleAugment (base64 : option string) (defect : option string) (sys : System)
  : System :=
  let prompt := "defect: " +:+ template defect in
  {| view := setIsAugmenting true (view sys);
     store := store sys;
     awaiting := awaiting sys ++ [AwaitAugment base64 prompt];
     calls := calls sys ++ [CallAugment base64 prompt] |}.

(** [handleAugment], after its [await]. *)
Definition handleAugment_resume (overlay : option string) (sys : System) : System :=
  withView (fun st => setIsAugmenting false (setAnnotatedImage overlay st)) sys.

(** [handleAnalyze], up to its [await]. *)
Definition handleAnalyze (sys : System) : System :=
  match capturedImage (view sys) with
  | Some (String c img) =>
      let base64 := splitComma1 (String c img) in
      {| view := setAnnotatedImage None (setAnalysis None (setIsAnalyzing true (view sys)));
         store := store sys;
         awaiting := awaiting sys ++ [AwaitAnalyze base64 (machineContext (view sys))];
         calls := calls sys ++ [CallAnalyze base64 (machineContext (view sys))] |}
  | _ => sys
  end.

(** [result.defectType !== 'None' && result.isQualitySufficient] *)
Definition wantsOverlay (result : AnalysisResult) : bool :=
  negb (bool_decide (defectType result = Some "None")) && isQualitySufficient result.

(** [handleAnalyze], after its [await]. *)
Definition handleAnalyze_resume (base64 : option string) (result : AnalysisResult)
    (sys : System) : System :=
  let sys := withView (fun st => setIsAnalyzing false (setAnalysis (Some result) st)) sys in
  if wantsOverlay result then handleAugment base64 (defectType result) sys else sys.

(** The component name that [handleSave] derives from the context. *)
Definition componentOf (context : string) : string :=
  let component := "Fuselage" in
  let component := if includes context "Wing" then "Wing" else component in
  let component := if includes context "Engine" then "Engine" else component in
  let component := if includes context "Tail" then "Tail" else component in
  component.

(** [handleSave]; [uuid] and [now] stand for [crypto.randomUUID()] and
    [Date.now()].  The completion is what the caller of the handler sees:
    when [onCapture(newItem)] throws, [handleReset()] is not reached and the
    view keeps its image and its analysis. *)
Definition handleSave (uuid : string) (now : Z) (sys : System) : Completion unit * System :=
  match capturedImage (view sys), analysis (view sys) with
  | Some (String c img), Some a =>
      let newItem :=
        {| item_id := uuid;
           timestamp := now;
           imageUrl := String c img;
           annotatedImageUrl :=
             if truthy (annotatedImage (view sys)) then annotatedImage (view sys) else None;
           Types.analysis := Some a;
           status := if isQualitySufficient a then approved else pending;
           metadata := {| machineId := "B787-X";
                          component := componentOf (machineContext (view sys));
                          location := "Hangar 1" |} |} in
      let '(committed, store') := App.handleNewCapture newItem (store sys) in
      let sys :=
        {| view := view sys; store := store';
           awaiting := awaiting sys; calls := calls sys |} in
      match committed with
      | Normal _ => (Normal tt, handleReset sys)
      | Throw e => (Throw e, sys)
      end
  | _, _ => (Normal tt, sys)
  end.

(** What the operator and the service can do to the component while it
    stays mounted.  The role switch of [App.tsx] unmounts the view and later
    mounts a fresh one; it is not an event here, and requests of an earlier
    instance that are still pending are not modelled. *)
Inductive Event : Type :=
| ClickShutter (dataUrl : string)
| ClickGuidance
| SelectContext (value : string)
| ClickAnalyze
| AnalyzeSettles (i : nat) (outcome : Completion AnalysisResult)
| AugmentSettles (i : nat) (outcome : Completion (option string))
| ClickToggleLayer
| ClickSave (uuid : string) (now : Z)
| ClickDiscard.

Definition removeAt (i : nat) (sys : System) : System :=
  {| view := view sys; store := store sys; awaiting := delete i (awaiting sys);
     calls := calls sys |}.

(** One event.  The guards are the conditions under which the JSX renders
    the control, or under which the promise is pending; the result is
    [None] when the event cannot occur. *)
Definition step (ev : Event) (sys : System) : option System :=
  let st := view sys in
  match ev with
  | ClickShutter dataUrl =>
      if negb (truthy (capturedImage st)) then Some (handleCapture dataUrl sys) else None
  | ClickGuidance =>
      if negb (truthy (capturedImage st))
      then Some (withView (setIsGuidanceActive (negb (isGuidanceActive st))) sys) else None
  | SelectContext value => Some (withView (setMachineContext value) sys)
  | ClickAnalyze =>
      if truthy (capturedImage st) && negb (bool_decide (is_Some (analysis st)))
           && negb (isAnalyzing st)
      then Some (handleAnalyze sys) else None
  | AnalyzeSettles i outcome =>
      match awaiting sys !! i with
      | Some (AwaitAnalyze base64 _) =>
          match outcome with
          | Normal result => Some (handleAnalyze_resume base64 result (removeAt i sys))
          | Throw _ => Some (removeAt i sys)
          end
      | _ => None
      end
  | AugmentSettles i outcome =>
      match awaiting sys !! i with
      | Some (AwaitAugment _ _) =>
          match outcome with
          | Normal overlay => Some (handleAugment_resume overlay (removeAt i sys))
          | Throw _ => Some (removeAt i sys)
          end
      | _ => None
      end
  | ClickToggleLayer =>
      if truthy (capturedImage st) && truthy (annotatedImage st) && negb (isAugmenting st)
      then Some (withView (setAnnotatedImage None) sys) else None
  | ClickSave uuid now =>
      if truthy (capturedImage st) && bool_decide (is_Some (analysis st))
      then Some (handleSave uuid now sys).2 else None
  | ClickDiscard =>
      if truthy (capturedImage st) && bool_decide (is_Some (analysis st))
      then Some (handleReset sys) else None
  end.

Fixpoint run (evs : list Event) (sys : System) : option System :=
  match evs with
  | [] => Some sys
  | ev :: evs' => match step ev sys with
                  | Some sys' => run evs' sys'
                  | None => None
                  end
  end.

Inductive reachable : System -> Prop :=
| reachable_initial : reachable initialSystem
| reachable_step ev sys sys' : reachable sys -> step ev sys = Some sys' -> reachable sys'.

(** The events that end a capture session. *)
Definition endsSession (ev : Event) : bool :=
  match ev with
  | ClickSave _ _ | ClickDiscard => true
  | _ => false
  end.

Definition isAwaitAnalyze (p : Pending) : bool :=
  match p with AwaitAnalyze _ _ => true | AwaitAugment _ _ => false end.

Definition isCallAugment (c : Call) : bool :=
  match c with CallAugment _ _ => true | CallAnalyze _ _ => false end.

End FieldView.

(** ** The field view component: the guidance loop

    The effect of the component with dependencies [isGuidanceActive] and
    [capturedImage], with the timers of the window and a clock.  Time is
    in milliseconds; a timer fires at its due time exactly. *)

Module Guidance.
Import JS.

(** What the loop does that can be seen: a scan is sent to the service, a
    set of hints is published with [setGuidanceMessages]. *)
Inductive Obs : Type :=
| ScanIssued (at_ms : Z)
| Published (at_ms : Z) (msgs : list string).

Record State : Type := {
  clock : Z;
  isGuidanceActive : bool;
  captured : bool;
  guidanceMessages : list string;
  guidanceIntervalRef : option nat;
  timers : list (nat * Z);
  nextTimerId : nat;
  inflight : list Z;
  log : list Obs
}.

(** The component after it is mounted: the effect has run its else branch
    once.  Timer ids of a window start at 1. *)
Definition initialState : State :=
  {| clock := 0; isGuidanceActive := false; captured := false; guidanceMessages := [];
     guidanceIntervalRef := None; timers := []; nextTimerId := 1; inflight := [];
     log := [] |}.

(** [window.setInterval(scanFrame, 3000)], stored in the ref. *)
Definition setInterval (st : State) : State :=
  {| clock := clock st; isGuidanceActive := isGuidanceActive st; captured := captured st;
     guidanceMessages := guidanceMessages st;
     guidanceIntervalRef := Some (nextTimerId st);
     timers := timers st ++ [(nextTimerId st, clock st + 3000)];
     nextTimerId := S (nextTimerId st); inflight := inflight st; log := log st |}.

(** [if (guidanceIntervalRef.current) window.clearInterval(guidanceIntervalRef.current)] *)
Definition clearInterval (st : State) : State :=
  match guidanceIntervalRef st with
  | Some (S id) =>
      {| clock := clock st; isGuidanceActive := isGuidanceActive st; captured := captured st;
         guidanceMessages := guidanceMessages st;
         guidanceIntervalRef := guidanceIntervalRef st;
         timers := List.filter (fun t => negb (Nat.eqb t.1 (S id))) (timers st);
         nextTimerId := nextTimerId st; inflight := inflight st; log := log st |}
  | _ => st
  end.

(** [setGuidanceMessages(msgs)] *)
Definition setGuidanceMessages (msgs : list string) (st : State) : State :=
  {| clock := clock st; isGuidanceActive := isGuidanceActive st; captured := captured st;
     guidanceMessages := msgs; guidanceIntervalRef := guidanceIntervalRef st;
     timers := timers st; nextTimerId := nextTimerId st; inflight := inflight st;
     log := log st ++ [Published (clock st) msgs] |}.

(** [scanFrame], up to its [await]: the <video> element is mounted, and
    [videoRef.current] set, exactly when no image is captured. *)
Definition scanFrame (st : State) : State :=
  if negb (captured st)
  then {| clock := clock st; isGuidanceActive := isGuidanceActive st; captured := captured st;
          guidanceMessages := guidanceMessages st;
          guidanceIntervalRef := guidanceIntervalRef st; timers := timers st;
          nextTimerId := nextTimerId st; inflight := inflight st ++ [clock st];
          log := log st ++ [ScanIssued (clock st)] |}
  else st.

(** [scanFrame], after its [await]. *)
Definition scanFrame_resume (msgs : list string) (st : State) : State :=
  setGuidanceMessages msgs st.

(** The body of the effect. *)
Definition effect (st : State) : State :=
  if isGuidanceActive st && negb (captured st)
  then setInterval (scanFrame st)
  else clearInterval (setGuidanceMessages [] st).

(** The function the effect returns. *)
Definition cleanup (st : State) : State := clearInterval st.

Definition setDeps (active capturedNow : bool) (st : State) : State :=
  {| clock := clock st; isGuidanceActive := active; captured := capturedNow;
     guidanceMessages := guidanceMessages st;
     guidanceIntervalRef := guidanceIntervalRef st; timers := timers st;
     nextTimerId := nextTimerId st; inflight := inflight st; log := log st |}.

(** A render that changes a dependency: the cleanup of the previous run,
    then the body with the new values. *)
Definition commit (active capturedNow : bool) (st : State) : State :=
  if bool_decide (active = isGuidanceActive st) && bool_decide (capturedNow = captured st)
  then st
  else effect (setDeps active capturedNow (cleanup st)).

Definition setClock (t : Z) (st : State) : State :=
  {| clock := t; isGuidanceActive := isGuidanceActive st; captured := captured st;
     guidanceMessages := guidanceMessages st;
     guidanceIntervalRef := guidanceIntervalRef st; timers := timers st;
     nextTimerId := nextTimerId st; inflight := inflight st; log := log st |}.

Definition setTimers (ts : list (nat * Z)) (st : State) : State :=
  {| clock := clock st; isGuidanceActive := isGuidanceActive st; captured := captured st;
     guidanceMessages := guidanceMessages st;
     guidanceIntervalRef := guidanceIntervalRef st; timers := ts;
     nextTimerId := nextTimerId st; inflight := inflight st; log := log st |}.

Definition setInflight (l : list Z) (st : State) : State :=
  {| clock := clock st; isGuidanceActive := isGuidanceActive st; captured := captured st;
     guidanceMessages := guidanceMessages st;
     guidanceIntervalRef := guidanceIntervalRef st; timers := timers st;
     nextTimerId := nextTimerId st; inflight := l; log := log st |}.

(** The guidance button toggles the loop; the shutter captures an image and
    turns guidance off; save and discard reset the view; a timer fires;
    time passes, up to the next due time; a scan in flight settles. *)
Inductive Event : Type :=
| ClickGuidance
| Capture
| Reset
| Tick
| Wait (ms : Z)
| ScanSettles (i : nat) (outcome : Completion (list string)).

Definition step (ev : Event) (st : State) : option State :=
  match ev with
  | ClickGuidance =>
      if captured st then None
      else Some (commit (negb (isGuidanceActive st)) (captured st) st)
  | Capture => if captured st then None else Some (commit false true st)
  | Reset => if captured st then Some (commit false false st) else None
  | Tick =>
      match timers st with
      | (id, due) :: rest =>
          if bool_decide (clock st <= due)
          then Some (setTimers (rest ++ [(id, due + 3000)]) (scanFrame (setClock due st)))
          else None
      | [] => None
      end
  | Wait ms =>
      if bool_decide (0 <= ms) && forallb (fun t => bool_decide (clock st + ms <= t.2)) (timers st)
      then Some (setClock (clock st + ms) st)
      else None
  | ScanSettles i outcome =>
      match inflight st !! i with
      | Some _ =>
          match outcome with
          | Normal msgs => Some (scanFrame_resume msgs (setInflight (delete i (inflight st)) st))
          | Throw _ => Some (setInflight (delete i (inflight st)) st)
          end
      | None => None
      end
  end.

Fixpoint run (evs : list Event) (st : State) : option State :=
  match evs with
  | [] => Some st
  | ev :: evs' => match step ev st with
                  | Some st' => run evs' st'
                  | None => None
                  end
  end.

Inductive reachable : State -> Prop :=
| reachable_initial : reachable initialState
| reachable_step ev st st' : reachable st -> step ev st = Some st' -> reachable st'.

(** The events that leave the dependencies of the effect alone. *)
Definition passive (ev : Event) : bool :=
  match ev with
  | Tick | Wait _ | ScanSettles _ _ => true
  | _ => false
  end.

(** The events that stop a running loop. *)
Definition stops (ev : Event) : bool :=
  match ev with
  | ClickGuidance | Capture => true
  | _ => false
  end.

(** The times at which scans were issued, and the hints published. *)
Fixpoint scanTimes (l : list Obs) : list Z :=
  match l with
  | [] => []
  | ScanIssued t :: l' => t :: scanTimes l'
  | Published _ _ :: l' => scanTimes l'
  end.

Fixpoint published (l : list Obs) : list (list string) :=
  match l with
  | [] => []
  | ScanIssued _ :: l' => published l'
  | Published _ msgs :: l' => msgs :: published l'
  end.

(** [t0], [t0 + 3000], ..., [t0 + 3000 * k] *)
Definition every3000 (t0 : Z) (k : nat) : list Z :=
  map (fun i => t0 + 3000 * Z.of_nat i) (seq 0 (S k)).

End Guidance.

(** ** [src/components/ChatPanel.tsx]: the chat coordinator

    The message log is the [messages] state of [src/App.tsx], which
    [handleSendMessage] appends to; the panel keeps [input] and [isTyping].
    [handleSend] is split at its [await], as the handlers of the field view. *)

Module ChatPanel.
Import Types JS.

(** [handleSend] suspended at [await sendChatMessage(messages, input)]. *)
Record Pending : Type := {
  history : list ChatMessage;
  newMessage : string
}.

Record System : Type := {
  messages : list ChatMessage;
  input : string;
  isTyping : bool;
  awaiting : list Pending;
  requests : list Pending
}.

(** The first message of the log; [now] stands for [Date.now()] at mount. *)
Definition welcome (now : Z) : ChatMessage :=
  {| msg_id := "1"; sender := ai; role := "System";
     text := "FactoryBridge Central Online. How can I assist with the inspection today?";
     msg_timestamp := now |}.

Definition initialSystem (now : Z) : System :=
  {| messages := [welcome now]; input := ""; isTyping := false;
     awaiting := []; requests := [] |}.

(** What [trim()] strips is the white space and the line terminators of
    ECMAScript: U+0009 to U+000D, U+0020, U+00A0, U+1680, U+2000 to U+200A,
    U+2028, U+2029, U+202F, U+205F, U+3000 and U+FEFF.  The text is held in
    UTF-8, where these are encoded by one, two or three bytes. *)
Definition isWhiteSpace (c : ascii) : bool :=
  let n := nat_of_ascii c in
  ((9 <=? n)%nat && (n <=? 13)%nat) || (n =? 32)%nat.

(** U+00A0 is C2 A0. *)
Definition isWhiteSpace2 (c1 c2 : ascii) : bool :=
  (N_of_ascii c1 =? 194)%N && (N_of_ascii c2 =? 160)%N.

(** U+1680 is E1 9A 80; U+2000 to U+200A are E2 80 80 to E2 80 8A; U+2028,
    U+2029 and U+202F are E2 80 A8, E2 80 A9 and E2 80 AF; U+205F is
    E2 81 9F; U+3000 is E3 80 80; U+FEFF is EF BB BF. *)
Definition isWhiteSpace3 (c1 c2 c3 : ascii) : bool :=
  let n1 := N_of_ascii c1 in
  let n2 := N_of_ascii c2 in
  let n3 := N_of_ascii c3 in
  ((n1 =? 225) && (n2 =? 154) && (n3 =? 128))%N
  || ((n1 =? 226) && (n2 =? 128)
      && (((128 <=? n3) && (n3 <=? 138)) || (n3 =? 168) || (n3 =? 169) || (n3 =? 175)))%N
  || ((n1 =? 226) && (n2 =? 129) && (n3 =? 159))%N
  || ((n1 =? 227) && (n2 =? 128) && (n3 =? 128))%N
  || ((n1 =? 239) && (n2 =? 187) && (n3 =? 191))%N.

(** The text is all white space, so that [text.trim()] is the empty
    string, which is falsy. *)
Fixpoint trimIsEmpty (s : string) : bool :=
  match s with
  | EmptyString => true
  | String c1 s1 =>
      (isWhiteSpace c1 && trimIsEmpty s1)
      || match s1 with
         | EmptyString => false
         | String c2 s2 =>
             (isWhiteSpace2 c1 c2 && trimIsEmpty s2)
             || match s2 with
                | EmptyString => false
                | String c3 s3 => isWhiteSpace3 c1 c2 c3 && trimIsEmpty s3
                end
         end
  end.

(** [handleSendMessage] of [src/App.tsx]: [setMessages(prev => [...prev, msg])] *)
Definition handleSendMessage (msg : ChatMessage) (sys : System) : System :=
  {| messages := messages sys ++ [msg]; input := input sys; isTyping := isTyping sys;
     awaiting := awaiting sys; requests := requests sys |}.

(** [handleSend], up to its [await]; [uuid] and [now] stand for
    [crypto.randomUUID()] and [Date.now()]. *)
Definition handleSend (currentUserRole : string) (uuid : string) (now : Z) (sys : System)
  : System :=
  if trimIsEmpty (input sys) then sys
  else
    let userMsg :=
      {| msg_id := uuid; sender := user; role := currentUserRole;
         text := input sys; msg_timestamp := now |} in
    let request := {| history := messages sys; newMessage := input sys |} in
    let sys1 := handleSendMessage userMsg sys in
    {| messages := messages sys1; input := ""; isTyping := true;
       awaiting := awaiting sys ++ [request];
       requests := requests sys ++ [request] |}.

(** [handleSend], after its [await]. *)
Definition handleSend_resume (responseText : string) (uuid : string) (now : Z)
    (sys : System) : System :=
  let aiMsg :=
    {| msg_id := uuid; sender := ai; role := "System";
       text := responseText; msg_timestamp := now |} in
  let sys1 := handleSendMessage aiMsg sys in
  {| messages := messages sys1; input := input sys1; isTyping := false;
     awaiting := awaiting sys1; requests := requests sys1 |}.

(** What the operator and the service can do to the panel: change the
    input, send (the button or the Enter key, which no state disables), and
    the settling of [chat.sendMessage] for a pending request. *)
Inductive Event : Type :=
| ChangeInput (value : string)
| Send (currentUserRole : string) (uuid : string) (now : Z)
| ReplySettles (i : nat) (outcome : Completion string) (uuid : string) (now : Z).

Definition step (ev : Event) (sys : System) : option System :=
  match ev with
  | ChangeInput value =>
      Some {| messages := messages sys; input := value; isTyping := isTyping sys;
              awaiting := awaiting sys; requests := requests sys |}
  | Send currentUserRole uuid now => Some (handleSend currentUserRole uuid now sys)
  | ReplySettles i outcome uuid now =>
      match awaiting sys !! i with
      | Some p =>
          let sys1 :=
            {| messages := messages sys; input := input sys; isTyping := isTyping sys;
               awaiting := delete i (awaiting sys); requests := requests sys |} in
          match geminiService.sendChatMessage (fun _ _ => outcome) (history p) (newMessage p) with
          | Normal responseText => Some (handleSend_resume responseText uuid now sys1)
          | Throw _ => Some sys1
          end
      | None => None
      end
  end.

Fixpoint run (evs : list Event) (sys : System) : option System :=
  match evs with
  | [] => Some sys
  | ev :: evs' => match step ev sys with
                  | Some sys' => run evs' sys'
                  | None => None
                  end
  end.

Inductive reachable : System -> Prop :=
| reachable_initial now : reachable (initialSystem now)
| reachable_step ev sys sys' : reachable sys -> step ev sys = Some sys' -> reachable sys'.



End ChatPanel.

(** ** JavaScript numbers: IEEE 754 binary64 arithmetic

    A finite double is the rational it denotes.  An operation returns the
    exact result rounded to the nearest double, ties to even: the nearest
    multiple of [2 ^ (e - 52)], where [2 ^ e <= |x| < 2 ^ (e + 1)].  The
    values of this development lie between [2 ^ -32] and [100], far from
    overflow and from the subnormal range, which are not modelled.
    Integers below [2 ^ 53], array lengths among them, are doubles. *)

Module Number.
Local Open Scope Q_scope.

(** The exponent [e] with [2 ^ e <= x < 2 ^ (e + 1)], for [x > 0]. *)
Definition ilog2 (x : Q) : Z :=
  let e := (Z.log2 (Qnum x) - Z.log2 (Zpos (Qden x)))%Z in
  if Qle_bool (2 ^ e) x then e else (e - 1)%Z.

Definition roundNearestEven (y : Q) : Z :=
  let f := Qfloor y in
  match Qcompare (y - inject_Z f) (1 # 2) with
  | Lt => f
  | Gt => (f + 1)%Z
  | Eq => if Z.even f then f else (f + 1)%Z
  end.

Definition roundPositive (x : Q) : Q :=
  let ulp := 2 ^ (ilog2 x - 52) in
  inject_Z (roundNearestEven (x / ulp)) * ulp.

Definition roundDouble (x : Q) : Q :=
  match Qnum x with
  | Z0 => 0
  | Zpos _ => roundPositive x
  | Zneg _ => - roundPositive (- x)
  end.

(** [a / b] and [a * b] on doubles. *)
Definition div (a b : Q) : Q := roundDouble (a / b).
Definition mul (a b : Q) : Q := roundDouble (a * b).

(** [Math.round(x)]: the integer nearest to [x], the larger one on a tie. *)
Definition Math_round (x : Q) : Z := Qfloor (x + (1 # 2)).

End Number.

(** ** [src/components/DataView.tsx]: the dataset aggregates *)

Module DataView.
Import Types JS.

(** [item.analysis?.defectType || 'Unknown'] *)
Definition defectKey (item : CapturedItem) : string :=
  or_else (analysis item ≫= defectType) "Unknown".

(** The accumulator of the histogram is an object literal [{}], used as a
    map from defect types to counts.  It is modelled as the finite map of
    its own properties; what it inherits from [Object.prototype] is modelled
    beside it: the functions named by [prototypeMembers], and the accessor
    [__proto__]. *)
Definition prototypeMembers : list string :=
  ["constructor"; "hasOwnProperty"; "isPrototypeOf"; "propertyIsEnumerable";
   "toLocaleString"; "toString"; "valueOf"; "__defineGetter__"; "__defineSetter__";
   "__lookupGetter__"; "__lookupSetter__"].

(** A value held by the accumulator: a number, or the text that [+ 1] makes
    of an inherited function, which is the source text of the function (it
    depends on the engine) followed by [ones] digits 1. *)
Inductive Value : Type :=
| Num (n : Z)
| FunctionText (member : string) (ones : nat).

(** [acc[type]], for a [type] other than [__proto__]: the own property,
    else the inherited function, else [undefined]. *)
Definition get (acc : gmap string Value) (type : string) : option Value :=
  match acc !! type with
  | Some v => Some v
  | None => if bool_decide (type ∈ prototypeMembers) then Some (FunctionText type 0) else None
  end.

(** [(v || 0) + 1]: a function and a text that is not empty are truthy,
    and [+] appends to them. *)
Definition orZeroPlusOne (v : option Value) : Value :=
  match v with
  | None => Num 1
  | Some (Num n) => Num (n + 1)
  | Some (FunctionText member ones) => FunctionText member (S ones)
  end.

(** [acc[type] = (acc[type] || 0) + 1].  For [__proto__] the value read is
    the prototype object, the value computed a text, and the assignment of
    a text to [__proto__] changes nothing. *)
Definition count (acc : gmap string Value) (item : CapturedItem) : gmap string Value :=
  let type := defectKey item in
  if bool_decide (type = "__proto__") then acc
  else <[type := orZeroPlusOne (get acc type)]> acc.

(** [items.reduce((acc, item) => { ...; return acc; }, {})] *)
Definition defectCounts (items : list CapturedItem) : gmap string Value :=
  foldl count ∅ items.

(** [i.status === 'pending'] *)
Definition isPending (i : CapturedItem) : bool :=
  match status i with pending => true | approved => false end.

(** [items.filter(i => i.status === 'pending').length] *)
Definition pendingCount (items : list CapturedItem) : Z :=
  Z.of_nat (length (List.filter isPending items)).

(** [i.analysis?.isQualitySufficient], read as a truth value. *)
Definition passesQuality (i : CapturedItem) : bool :=
  match analysis i with
  | Some a => isQualitySufficient a
  | None => false
  end.

(** [Math.round((k / n) * 100)] *)
Definition percentageOf (k n : Z) : Z :=
  Number.Math_round (Number.mul (Number.div (inject_Z k) (inject_Z n)) 100).

(** [items.length > 0 ? Math.round((items.filter(...).length / items.length) * 100) : 0] *)
Definition qualityPercentage (items : list CapturedItem) : Z :=
  if 0 <? Z.of_nat (length items)
  then percentageOf (Z.of_nat (length (List.filter passesQuality items)))
                    (Z.of_nat (length items))
  else 0.

(** [items.length], shown as the total. *)
Definition totalCount (items : list CapturedItem) : Z := Z.of_nat (length items).

(** [Math.min(100, Math.round((goal.currentCount / goal.targetCount) * 100))],
    the width of the progress bar of a goal.  The target is positive (a
    zero target gives [NaN] or [Infinity], which are not modelled). *)
Definition goalProgress (goal : ProjectGoal) : Z :=
  Z.min 100 (percentageOf (currentCount goal) (targetCount goal)).

(** [Object.keys(defectCounts).map(key => ({ name: key, value: defectCounts[key] }))];
    the bars come in the order of the finite map (the order of
    [Object.keys] is not modelled). *)
Definition chartData (items : list CapturedItem) : list (string * Value) :=
  map_to_list (defectCounts items).

(** [i.analysis?.severity === 'Critical'] and [i.analysis?.severity === 'High'] *)
Definition isCritical (i : CapturedItem) : bool :=
  match severity <$> analysis i with Some Critical => true | _ => false end.

Definition isHigh (i : CapturedItem) : bool :=
  match severity <$> analysis i with Some High => true | _ => false end.

(** [a || b] on [CapturedItem | undefined]: an object is truthy. *)
Definition orItem (a b : option CapturedItem) : option CapturedItem :=
  match a with Some i => Some i | None => b end.

(** [items.find(Critical) || items.find(High) || items[items.length - 1]],
    the item that [handleGenerateDashboardVideo] shows. *)
Definition criticalItem (items : list CapturedItem) : option CapturedItem :=
  orItem (List.find isCritical items) (orItem (List.find isHigh items) (last items)).

(** [items.filter(i => i.metadata.component.includes(part))] *)
Definition ofPart (part : string) (items : list CapturedItem) : list CapturedItem :=
  List.filter (fun i => includes (component (metadata i)) part) items.

(** The item that [handleGenerateVideo] shows: the last item of the
    selected part, the last item of all when no part is selected or no item
    is of that part. *)
Definition targetItem (selectedPart : option string) (items : list CapturedItem)
  : option CapturedItem :=
  let relevantItems :=
    match selectedPart with
    | Some (String c part) => ofPart (String c part) items
    | _ => items
    end in
  if (0 <? length relevantItems)%nat then last relevantItems else last items.

End DataView.

(** ** [src/components/CoverageVisualization.tsx]: the counts of the hotspots *)

Module CoverageVisualization.
Import Types JS.

(** [counts[key] = (counts[key] || 0) + 1] *)
Definition bump (key : string) (counts : gmap string Z) : gmap string Z :=
  <[key := default 0 (counts !! key) + 1]> counts.

(** [itemCounts]: each item is filed under the first of Wing, Fuselage,
    Engine, Tail that its component name includes, or not at all. *)
Definition itemCounts (items : list CapturedItem) : gmap string Z :=
  foldl (fun counts item =>
           let comp := component (metadata item) in
           if includes comp "Wing" then bump "Wing" counts
           else if includes comp "Fuselage" then bump "Fuselage" counts
           else if includes comp "Engine" then bump "Engine" counts
           else if includes comp "Tail" then bump "Tail" counts
           else counts)
        ∅ items.

(** [itemCounts[part] || 0], the count shown at a hotspot. *)
Definition hotspotCount (part : string) (items : list CapturedItem) : Z :=
  default 0 (itemCounts items !! part).

End CoverageVisualization.

(** ** The same percentage on the machine's doubles

    The primitive floats of Rocq are the binary64 numbers of the processor;
    they serve to check the rounding of [Number] on concrete inputs. *)

Module Machine.

Definition ofZ (z : Z) : PrimFloat.float := PrimFloat.of_uint63 (Uint63.of_Z z).

(** [Math.round] of a finite double, computed exactly from its mantissa
    and exponent. *)
Definition Math_round (f : PrimFloat.float) : Z :=
  match FloatOps.Prim2SF f with
  | SpecFloat.S754_finite false m e =>
      if 0 <=? e then Z.pos m * 2 ^ e else (Z.pos m + 2 ^ (- e - 1)) / 2 ^ (- e)
  | SpecFloat.S754_finite true m e =>
      if 0 <=? e then - (Z.pos m * 2 ^ e) else (- Z.pos m + 2 ^ (- e - 1)) / 2 ^ (- e)
  | _ => 0
  end.

Definition percentageOf (k n : Z) : Z :=
  Math_round (PrimFloat.mul (PrimFloat.div (ofZ k) (ofZ n)) (ofZ 100)).

(** The two percentages agree for every [k <= n] with [1 <= n <= bound]. *)
Definition agreeUpTo (bound : nat) : bool :=
  forallb (fun n =>
    forallb (fun k =>
      Z.eqb (percentageOf (Z.of_nat k) (Z.of_nat (S n)))
            (DataView.percentageOf (Z.of_nat k) (Z.of_nat (S n))))
      (seq 0 (S (S n))))
    (seq 0 bound).

End Machine.

(** ** Concrete values used in the examples *)

Module Samples.
Import Types.

Definition hangar : Metadata :=
  {| machineId := "B787-X"; component := "Fuselage"; location := "Hangar 1" |}.

Definition analysisOf (defect : string) (quality : bool) : AnalysisResult :=
  {| defectType := Some defect; severity := Medium; confidence := 90;
     instructions := "Capture side view"; isQualitySufficient := quality;
     missingAngles := None |}.

Definition itemOf (a : option AnalysisResult) (st : ItemStatus) : CapturedItem :=
  {| item_id := "item"; timestamp := 0; imageUrl := "data:image/jpeg;base64,AAAA";
     annotatedImageUrl := None; analysis := a; status := st; metadata := hangar |}.

Definition rustItem : CapturedItem := itemOf (Some (analysisOf "Surface Rust" true)) approved.
Definition crackItem : CapturedItem := itemOf (Some (analysisOf "Crack" true)) approved.
Definition bareItem : CapturedItem := itemOf None pending.

(** The analysis that the adapter parses from an empty response text,
    [{}]: no defect type, a falsy [isQualitySufficient]; and the item that
    a save makes of it. *)
Definition untypedAnalysis : AnalysisResult :=
  {| defectType := None; severity := Low; confidence := 0; instructions := "";
     isQualitySufficient := false; missingAngles := None |}.

Definition untypedItem : CapturedItem := itemOf (Some untypedAnalysis) pending.

(** The store after a commit of a rust item and a commit of an item whose
    analysis has no defect type. *)
Definition storeOfTwo : App.Store :=
  (App.handleNewCapture untypedItem (App.handleNewCapture rustItem App.initialStore).2).2.

Definition blurredItem : CapturedItem := itemOf (Some (analysisOf "Crack" false)) pending.

(** Three items, two of which pass the quality check. *)
Definition threeItems : list CapturedItem := [rustItem; blurredItem; crackItem].

(** A view that shows a captured image and has no analysis. *)
Definition capturedOnly : FieldView.System :=
  Eval vm_compute in
    FieldView.handleCapture "data:image/jpeg;base64,AAAA" FieldView.initialSystem.

(** A whole session: capture, analyse, save. *)
Definition sessionEvents : list FieldView.Event :=
  [FieldView.ClickShutter "data:image/jpeg;base64,AAAA";
   FieldView.ClickAnalyze;
   FieldView.AnalyzeSettles 0 (JS.Normal (analysisOf "Surface Rust" true));
   FieldView.ClickSave "uuid-1" 1000].

Definition savedSystem : FieldView.System :=
  Eval vm_compute in
    default FieldView.initialSystem (FieldView.run sessionEvents FieldView.initialSystem).

Definition savedItem : CapturedItem :=
  {| item_id := "uuid-1"; timestamp := 1000; imageUrl := "data:image/jpeg;base64,AAAA";
     annotatedImageUrl := None; analysis := Some (analysisOf "Surface Rust" true);
     status := approved; metadata := hangar |}.

(** Two sends in a row, the second while the first reply is pending; then
    both replies arrive. *)
Definition overlappingSends : list ChatPanel.Event :=
  [ChatPanel.ChangeInput "status of unit A-4?";
   ChatPanel.Send "Field Engineer" "m1" 10;
   ChatPanel.ChangeInput "and unit B-2?";
   ChatPanel.Send "Field Engineer" "m2" 20].

Definition bothReplies : list ChatPanel.Event :=
  [ChatPanel.ReplySettles 0 (JS.Normal "A-4 is nominal.") "m3" 30;
   ChatPanel.ReplySettles 0 (JS.Normal "B-2 needs inspection.") "m4" 40].

Definition afterOverlappingSends : ChatPanel.System :=
  Eval vm_compute in
    default (ChatPanel.initialSystem 0)
      (ChatPanel.run overlappingSends (ChatPanel.initialSystem 0)).

Definition afterBothReplies : ChatPanel.System :=
  Eval vm_compute in
    default (ChatPanel.initialSystem 0) (ChatPanel.run bothReplies afterOverlappingSends).


(** Guidance is switched on, runs for 7 seconds, and is switched off; the
    first scan is answered half a second later. *)
Definition guidanceOn : list Guidance.Event :=
  [Guidance.Wait 3000; Guidance.Tick; Guidance.Wait 3000; Guidance.Tick; Guidance.Wait 1000].

Definition guidanceLate : list Guidance.Event :=
  [Guidance.Wait 500; Guidance.ScanSettles 0 (JS.Normal ["Move Closer"])].

Definition guidance1 : Guidance.State :=
  Eval vm_compute in
    default Guidance.initialState (Guidance.step Guidance.ClickGuidance Guidance.initialState).
Definition guidance2 : Guidance.State :=
  Eval vm_compute in default Guidance.initialState (Guidance.run guidanceOn guidance1).
Definition guidance3 : Guidance.State :=
  Eval vm_compute in
    default Guidance.initialState (Guidance.step Guidance.ClickGuidance guidance2).
Definition guidance4 : Guidance.State :=
  Eval vm_compute in default Guidance.initialState (Guidance.run guidanceLate guidance3).
Definition guidance5 : Guidance.State :=
  Eval vm_compute in
    default Guidance.initialState (Guidance.step Guidance.ClickGuidance guidance4).

(** The events of a session after the shutter, up to the analysis result. *)
Definition analyzeEvents : list FieldView.Event :=
  [FieldView.ClickAnalyze;
   FieldView.AnalyzeSettles 0 (JS.Normal (analysisOf "Surface Rust" true))].

Definition analyzedSystem : FieldView.System :=
  Eval vm_compute in
    default FieldView.initialSystem (FieldView.run analyzeEvents capturedOnly).

(** A session whose analysis is in flight. *)
Definition analyzingEvents : list FieldView.Event :=
  [FieldView.ClickShutter "data:image/jpeg;base64,AAAA"; FieldView.ClickAnalyze].

Definition analyzingSystem : FieldView.System :=
  Eval vm_compute in
    default FieldView.initialSystem (FieldView.run analyzingEvents FieldView.initialSystem).

(** Two sessions; the overlay of the first image arrives during the
    second. *)
Definition staleOverlayEvents : list FieldView.Event :=
  [FieldView.ClickShutter "data:image/jpeg;base64,AAAA";
   FieldView.ClickAnalyze;
   FieldView.AnalyzeSettles 0 (JS.Normal (analysisOf "Surface Rust" true));
   FieldView.ClickSave "uuid-1" 1000;
   FieldView.ClickShutter "data:image/jpeg;base64,BBBB";
   FieldView.ClickAnalyze;
   FieldView.AnalyzeSettles 1 (JS.Normal (analysisOf "Crack" false));
   FieldView.AugmentSettles 0 (JS.Normal (Some "data:image/png;base64,overlay-of-AAAA"))].

Definition staleOverlaySystem : FieldView.System :=
  Eval vm_compute in
    default FieldView.initialSystem
      (FieldView.run staleOverlayEvents FieldView.initialSystem).

(** The rust goal after three commits filed under rust: 21 of 20. *)
Definition rustGoalPastTarget : ProjectGoal :=
  {| goal_id := "g2"; title := "Motor Mounting Rust"; targetCount := 20;
     currentCount := 21; deadline := "2025-04-05"; goal_status := at_risk;
     description := "High priority: Identifying corrosion on Unit A-4 mounts." |}.

End Samples.

(** ** The wording of the claims *)

Module Spec.
Import Types.

(** The claim's wording: [s] contains the letters r, u, s, t in a row, each
    in either case. *)
Definition is_letter (lo up : ascii) (c : ascii) : Prop := c = lo \/ c = up.

Definition contains_rust_ci (s : string) : Prop :=
  exists (pre post : string) (c1 c2 c3 c4 : ascii),
    s = pre +:+ String c1 (String c2 (String c3 (String c4 post))) /\
    is_letter "r" "R" c1 /\ is_letter "u" "U" c2 /\
    is_letter "s" "S" c3 /\ is_letter "t" "T" c4.

(** The claim's wording: between [old] and [new], the goal named [gid], and
    no other, has its [currentCount] raised by one; nothing else changes. *)
Definition only_incremented (gid : string) (old new : list ProjectGoal) : Prop :=
  exists (i : nat) (g : ProjectGoal),
    old !! i = Some g /\ goal_id g = gid /\
    new !! i = Some (App.increment g) /\
    currentCount (App.increment g) = currentCount g + 1 /\
    length new = length old /\
    forall j, j <> i -> new !! j = old !! j.

(** A call is rejected when it ends by throwing. *)
Definition rejected {A} (c : JS.Completion A) : Prop := exists e, c = JS.Throw e.

(** The claim's wording: the overlay requests that an analysis result
    commands: one, for the defect of the result, when its defect type is
    not "None" and its quality is sufficient; none otherwise. *)
Definition overlayCalls (base64 : option string) (r : AnalysisResult) : list FieldView.Call :=
  if negb (bool_decide (defectType r = Some "None")) && isQualitySufficient r
  then [FieldView.CallAugment base64 ("defect: " +:+ JS.template (defectType r))]
  else [].

(** The analysis results that the events deliver, in their order. *)
Fixpoint delivered (evs : list FieldView.Event) : list AnalysisResult :=
  match evs with
  | [] => []
  | FieldView.AnalyzeSettles _ (JS.Normal r) :: evs' => r :: delivered evs'
  | _ :: evs' => delivered evs'
  end.

(** The claim's wording: the result reference of a handle is the URI of the
    first video that its response lists. *)
Definition resultReference (operation : geminiService.Operation) (u : string) : Prop :=
  exists r v0 rest v,
    geminiService.response operation = Some r /\
    geminiService.generatedVideos r = Some (v0 :: rest) /\
    geminiService.video v0 = Some v /\
    geminiService.uri v = Some u.

(** The analysis requests still pending. *)
Definition analyzeInFlight (sys : FieldView.System) : list FieldView.Pending :=
  List.filter FieldView.isAwaitAnalyze (FieldView.awaiting sys).

(** What holds of every reachable view: an analysis is running, or is
    present, only for a captured image; requests are pending only while an
    analysis is running, and then at most one. *)
Definition flightInv (sys : FieldView.System) : Prop :=
  (FieldView.isAnalyzing (FieldView.view sys) = true ->
     JS.truthy (FieldView.capturedImage (FieldView.view sys)) = true /\
     FieldView.analysis (FieldView.view sys) = None) /\
  (is_Some (FieldView.analysis (FieldView.view sys)) ->
     JS.truthy (FieldView.capturedImage (FieldView.view sys)) = true) /\
  (analyzeInFlight sys <> [] ->
     FieldView.isAnalyzing (FieldView.view sys) = true /\
     (length (analyzeInFlight sys) <= 1)%nat).

(** Where a session on the image [img] stands, [base] being the call log
    at its start and [results] the analysis results delivered since: no
    analysis was requested; or one was and no result is there; or the
    result is there, and the overlay requests it commands were issued. *)
Definition sessionInv (img : string) (base : list FieldView.Call)
    (results : list AnalysisResult) (sys : FieldView.System) : Prop :=
  FieldView.capturedImage (FieldView.view sys) = Some img /\
  JS.truthy (Some img) = true /\
  ((results = [] /\
    FieldView.analysis (FieldView.view sys) = None /\
    FieldView.isAnalyzing (FieldView.view sys) = false /\
    analyzeInFlight sys = [] /\
    FieldView.calls sys = base)
   \/
   (exists c,
    results = [] /\
    FieldView.analysis (FieldView.view sys) = None /\
    FieldView.isAnalyzing (FieldView.view sys) = true /\
    (analyzeInFlight sys = [] \/
     analyzeInFlight sys = [FieldView.AwaitAnalyze (FieldView.splitComma1 img) c]) /\
    FieldView.calls sys = base ++ [FieldView.CallAnalyze (FieldView.splitComma1 img) c])
   \/
   (exists c r,
    results = [r] /\
    FieldView.analysis (FieldView.view sys) = Some r /\
    FieldView.isAnalyzing (FieldView.view sys) = false /\
    analyzeInFlight sys = [] /\
    FieldView.calls sys
      = base ++ FieldView.CallAnalyze (FieldView.splitComma1 img) c
                :: overlayCalls (FieldView.splitComma1 img) r)).

(** The status that the claim gives a stored item. *)
Definition statusFollowsQuality (item : CapturedItem) : Prop :=
  exists a, analysis item = Some a /\
    (status item = approved <-> isQualitySufficient a = true) /\
    (status item = pending <-> isQualitySufficient a = false).

(** What holds of every reachable guidance loop: at most one timer is
    live, it is the one the ref names, and it is live only while
    guidance is active and no image is captured. *)
Definition timerInv (st : Guidance.State) : Prop :=
  (1 <= Guidance.nextTimerId st)%nat /\
  (Guidance.timers st = [] \/
   exists id due,
     Guidance.timers st = [(S id, due)] /\
     Guidance.guidanceIntervalRef st = Some (S id) /\
     Guidance.isGuidanceActive st = true /\ Guidance.captured st = false).

(** A loop started at [t0], [base] being the log at that time: the scans
    so far were issued at [t0], [t0 + 3000], ..., [t0 + 3000 * k], the next
    one is due at [t0 + 3000 * (k + 1)], and the clock has not passed it. *)
Definition runningInv (t0 : Z) (base : list Guidance.Obs) (k : nat) (st : Guidance.State)
  : Prop :=
  (exists id,
     Guidance.timers st = [(S id, t0 + 3000 * (Z.of_nat k + 1))] /\
     Guidance.guidanceIntervalRef st = Some (S id)) /\
  Guidance.isGuidanceActive st = true /\ Guidance.captured st = false /\
  Guidance.scanTimes (Guidance.log st)
    = Guidance.scanTimes base ++ Guidance.every3000 t0 k /\
  t0 + 3000 * Z.of_nat k <= Guidance.clock st <= t0 + 3000 * (Z.of_nat k + 1).

(** A stopped loop: no timer is live, the scans are [times]. *)
Definition stoppedInv (times : list Z) (st : Guidance.State) : Prop :=
  Guidance.timers st = [] /\ Guidance.scanTimes (Guidance.log st) = times.

(** The claim's wording: the defect type of an item is the defect type of
    its analysis; an item without an analysis, or whose analysis has no
    defect type or an empty one, is of type "Unknown". *)
Definition typeOf (item : CapturedItem) : string :=
  match analysis item with
  | Some a =>
      match defectType a with
      | Some (String c d) => String c d
      | _ => "Unknown"
      end
  | None => "Unknown"
  end.

(** The number of items of the defect type [type]. *)
Definition countOfType (type : string) (items : list CapturedItem) : Z :=
  Z.of_nat (length (filter (fun i => typeOf i = type) items)).

(** The names under which a plain object does not count: the names of the
    members of [Object.prototype]. *)
Definition inheritedNames : list string :=
  ["__proto__"; "constructor"; "hasOwnProperty"; "isPrototypeOf"; "propertyIsEnumerable";
   "toLocaleString"; "toString"; "valueOf"; "__defineGetter__"; "__defineSetter__";
   "__lookupGetter__"; "__lookupSetter__"].

Definition inheritedName (type : string) : Prop := type ∈ inheritedNames.

(** [r] is an integer nearest to the fraction [num / den]. *)
Definition nearestInteger (r num den : Z) : Prop :=
  Z.abs (2 * (r * den - num)) <= den.







End Spec.

(** ** Notions used by the further properties *)

Module Props.
Import Types.

(** The goal that counts an item: [g2] when the defect type of its
    analysis mentions rust, [g1] when it does not and when the item has no
    analysis; no goal when its analysis has no defect type. *)
Definition countedBy (item : CapturedItem) : option string :=
  match analysis item with
  | None => Some "g1"
  | Some a =>
      match defectType a with
      | None => None
      | Some d => if JS.includes (JS.toLowerCase d) "rust" then Some "g2" else Some "g1"
      end
  end.

(** The number of items that the goal [gid] counts, and the number of items
    that no goal counts. *)
Definition countFor (gid : string) (items : list CapturedItem) : Z :=
  Z.of_nat (length (filter (fun i => countedBy i = Some gid) items)).

Definition uncounted (items : list CapturedItem) : Z :=
  Z.of_nat (length (filter (fun i => countedBy i = None) items)).

(** Everything of a goal but its count. *)
Definition frozen (g : ProjectGoal)
  : string * string * Z * string * GoalStatus * string :=
  (goal_id g, title g, targetCount g, deadline g, goal_status g, description g).

(** The saves among the events of the field view. *)
Definition isSave (ev : FieldView.Event) : bool :=
  match ev with FieldView.ClickSave _ _ => true | _ => false end.

(** The component names that [handleSave] gives. *)
Definition partNames : list string := ["Fuselage"; "Wing"; "Engine"; "Tail"].

(** The sum of the bars of a chart. *)
Definition sumValues (bars : list (string * Z)) : Z :=
  foldr (fun bar acc => bar.2 + acc) 0 bars.

(** The number of items whose component is [part]. *)
Definition countOfPart (part : string) (items : list CapturedItem) : Z :=
  Z.of_nat (length (filter (fun i => component (metadata i) = part) items)).

(** The user messages and the AI messages of a log. *)
Definition isUser (m : ChatMessage) : bool :=
  match sender m with user => true | ai => false end.

Definition isAi (m : ChatMessage) : bool :=
  match sender m with user => false | ai => true end.

(** A text from its bytes. *)
Definition utf8 (bytes : list N) : string :=
  foldr (fun n s => String (ascii_of_N n) s) EmptyString bytes.

(** The white space and the line terminators of ECMAScript, which
    [trim()] strips, in UTF-8: U+0009 to U+000D, U+0020, U+00A0, U+1680,
    U+2000 to U+200A, U+2028, U+2029, U+202F, U+205F, U+3000, U+FEFF. *)
Definition whiteSpaceCodes : list string :=
  map utf8
    [[9]; [10]; [11]; [12]; [13]; [32]; [194; 160]; [225; 154; 128];
     [226; 128; 128]; [226; 128; 129]; [226; 128; 130]; [226; 128; 131];
     [226; 128; 132]; [226; 128; 133]; [226; 128; 134]; [226; 128; 135];
     [226; 128; 136]; [226; 128; 137]; [226; 128; 138];
     [226; 128; 168]; [226; 128; 169]; [226; 128; 175]; [226; 129; 159];
     [227; 128; 128]; [239; 187; 191]]%N.

(** A blank text: nothing but white space. *)
Inductive blank : string -> Prop :=
| blank_nil : blank EmptyString
| blank_cons w s : w ∈ whiteSpaceCodes -> blank s -> blank (w +:+ s).

(** The text holds no comma. *)
Fixpoint noComma (s : string) : bool :=
  match s with
  | EmptyString => true
  | String c s' => negb (bool_decide (c = ","%char)) && noComma s'
  end.

End Props.

(* ===================================================================== *)
(** * Part II: lemmas and theorems                                        *)
(* ===================================================================== *)

Import Types Spec.

(** ** Strings *)

Lemma lower_ascii_cases (lo : ascii) (c : ascii) :
  JS.lower_ascii c = lo ->
  c = lo \/ (c = ascii_of_nat (nat_of_ascii lo - 32) /\
             (97 <= nat_of_ascii lo <= 122)%nat).
Proof.
  unfold JS.lower_ascii.
  destruct (65 <=? nat_of_ascii c)%nat eqn:H1; simpl; [| auto].
  destruct (nat_of_ascii c <=? 90)%nat eqn:H2; simpl; [| auto].
  apply Nat.leb_le in H1, H2. intros <-. right.
  rewrite nat_ascii_embedding by lia.
  replace (nat_of_ascii c + 32 - 32)%nat with (nat_of_ascii c) by lia.
  rewrite ascii_nat_embedding. split; [reflexivity | lia].
Qed.

Lemma lower_r c : JS.lower_ascii c = "r"%char <-> is_letter "r" "R" c.
Proof.
  split.
  - intros H. destruct (lower_ascii_cases _ _ H) as [-> | [-> _]]; [left | right]; reflexivity.
  - intros [-> | ->]; reflexivity.
Qed.

Lemma lower_u c : JS.lower_ascii c = "u"%char <-> is_letter "u" "U" c.
Proof.
  split.
  - intros H. destruct (lower_ascii_cases _ _ H) as [-> | [-> _]]; [left | right]; reflexivity.
  - intros [-> | ->]; reflexivity.
Qed.

Lemma lower_s c : JS.lower_ascii c = "s"%char <-> is_letter "s" "S" c.
Proof.
  split.
  - intros H. destruct (lower_ascii_cases _ _ H) as [-> | [-> _]]; [left | right]; reflexivity.
  - intros [-> | ->]; reflexivity.
Qed.

Lemma lower_t c : JS.lower_ascii c = "t"%char <-> is_letter "t" "T" c.
Proof.
  split.
  - intros H. destruct (lower_ascii_cases _ _ H) as [-> | [-> _]]; [left | right]; reflexivity.
  - intros [-> | ->]; reflexivity.
Qed.

Lemma append_String (c : ascii) (a b : string) :
  String c a +:+ b = String c (a +:+ b).
Proof. reflexivity. Qed.

Lemma startsWith_spec (s pat : string) :
  JS.startsWith s pat = true <-> exists post, s = pat +:+ post.
Proof.
  revert s. induction pat as [| p pat IH]; intros s; simpl.
  - split; [intros _; exists s; reflexivity | reflexivity].
  - destruct s as [| c s].
    + split; [discriminate | intros [post H]; discriminate].
    + destruct (decide (p = c)) as [-> | Hne].
      * rewrite IH. split; intros [post H]; exists post;
          rewrite append_String in *; congruence.
      * split; [discriminate | intros [post H]; rewrite append_String in H; congruence].
Qed.

Lemma includes_spec (s pat : string) :
  JS.includes s pat = true <-> exists pre post, s = pre +:+ pat +:+ post.
Proof.
  induction s as [| c s IH]; simpl.
  - rewrite orb_false_r, startsWith_spec. split.
    + intros [post H]. exists EmptyString, post. exact H.
    + intros [[| d pre] [post H]]; [exists post; exact H | discriminate].
  - rewrite orb_true_iff, startsWith_spec, IH. split.
    + intros [[post H] | [pre [post H]]].
      * exists EmptyString, post. exact H.
      * exists (String c pre), post. rewrite append_String. congruence.
    + intros [[| d pre] [post H]].
      * left. exists post. exact H.
      * right. exists pre, post. rewrite append_String in H. congruence.
Qed.

Lemma toLowerCase_app_inv (s a b : string) :
  JS.toLowerCase s = a +:+ b ->
  exists a0 b0, s = a0 +:+ b0 /\ JS.toLowerCase a0 = a /\ JS.toLowerCase b0 = b.
Proof.
  revert s. induction a as [| x a IH]; intros s H.
  - exists EmptyString, s. auto.
  - rewrite append_String in H.
    destruct s as [| c s]; simpl in H; [discriminate |].
    injection H as Hc Hs. destruct (IH _ Hs) as (a0 & b0 & -> & Ha & Hb).
    exists (String c a0), b0. simpl. rewrite Hc, Ha. auto.
Qed.

Lemma toLowerCase_app (a b : string) :
  JS.toLowerCase (a +:+ b) = JS.toLowerCase a +:+ JS.toLowerCase b.
Proof.
  induction a as [| x a IH]; [reflexivity |].
  rewrite append_String. simpl. rewrite IH. reflexivity.
Qed.

(** The test of the source and the wording of the claim agree. *)
Lemma includes_rust_iff (s : string) :
  JS.includes (JS.toLowerCase s) "rust" = true <-> contains_rust_ci s.
Proof.
  rewrite includes_spec. unfold contains_rust_ci. split.
  - intros (pre & post & H).
    apply toLowerCase_app_inv in H as (pre0 & rest & -> & _ & H).
    destruct rest as [| c1 [| c2 [| c3 [| c4 post0]]]]; simpl in H; try discriminate.
    change ("rust" +:+ post) with (String "r" (String "u" (String "s" (String "t" post)))) in H.
    injection H as H1 H2 H3 H4 _.
    exists pre0, post0, c1, c2, c3, c4.
    rewrite <- lower_r, <- lower_u, <- lower_s, <- lower_t. auto.
  - intros (pre & post & c1 & c2 & c3 & c4 & -> & H1 & H2 & H3 & H4).
    apply lower_r in H1. apply lower_u in H2. apply lower_s in H3. apply lower_t in H4.
    exists (JS.toLowerCase pre), (JS.toLowerCase post).
    rewrite toLowerCase_app. simpl. rewrite H1, H2, H3, H4. reflexivity.
Qed.

Example includes_surface_rust : JS.includes (JS.toLowerCase "Surface Rust") "rust" = true.
Proof. reflexivity. Qed.

Example includes_crack : JS.includes (JS.toLowerCase "Crack") "rust" = false.
Proof. reflexivity. Qed.

(** ** The dataset store: goal tracking *)

Lemma incrementGoal_ids (gid : string) (l : list ProjectGoal) :
  map goal_id (App.incrementGoal gid l) = map goal_id l.
Proof.
  unfold App.incrementGoal. rewrite map_map. apply map_ext.
  intros g. destruct (decide (goal_id g = gid)); reflexivity.
Qed.

Lemma reachable_goal_ids (st : App.Store) :
  App.reachable st -> map goal_id (App.goals st) = ["g1"; "g2"].
Proof.
  induction 1 as [| item st _ IH]; [reflexivity |].
  unfold App.handleNewCapture.
  destruct (App.mentionsRust item) as [[|] | e]; simpl; rewrite ?incrementGoal_ids; exact IH.
Qed.

Lemma incrementGoal_g1 (a b : ProjectGoal) :
  goal_id a = "g1" -> goal_id b = "g2" ->
  only_incremented "g1" [a; b] (App.incrementGoal "g1" [a; b]).
Proof.
  intros Ha Hb. exists 0%nat, a. simpl. rewrite Ha, Hb. simpl.
  repeat split; try reflexivity.
  intros [| [| j]] Hj; [congruence | reflexivity | reflexivity].
Qed.

Lemma incrementGoal_g2 (a b : ProjectGoal) :
  goal_id a = "g1" -> goal_id b = "g2" ->
  only_incremented "g2" [a; b] (App.incrementGoal "g2" [a; b]).
Proof.
  intros Ha Hb. exists 1%nat, b. simpl. rewrite Ha, Hb. simpl.
  repeat split; try reflexivity.
  intros [| [| j]] Hj; [reflexivity | congruence | reflexivity].
Qed.

Lemma reachable_goals_shape (st : App.Store) :
  App.reachable st ->
  exists a b, App.goals st = [a; b] /\ goal_id a = "g1" /\ goal_id b = "g2".
Proof.
  intros H. apply reachable_goal_ids in H.
  destruct (App.goals st) as [| a [| b [| c l]]]; simpl in H; try discriminate.
  injection H as Ha Hb. eauto.
Qed.

(** C1. Committing an item that carries an analysis appends the item to the
    store.  When the analysis has a defect type, the call returns and
    raises exactly one goal counter, by exactly one: goal [g2] when the
    defect type contains "rust" in any letter case, goal [g1] otherwise;
    every other goal is left as it was.  When the analysis has no defect
    type, as the object [{}] that the adapter parses from an empty response,
    the call throws a [TypeError] after the item was queued: the item is
    stored and no goal is raised. *)
Theorem commit_increments_one_goal (st : App.Store) (item : CapturedItem) (a : AnalysisResult) :
  App.reachable st ->
  analysis item = Some a ->
  App.capturedItems (App.handleNewCapture item st).2 = App.capturedItems st ++ [item] /\
  (forall d, defectType a = Some d ->
     (App.handleNewCapture item st).1 = JS.Normal tt /\
     (contains_rust_ci d ->
        only_incremented "g2" (App.goals st) (App.goals (App.handleNewCapture item st).2)) /\
     (~ contains_rust_ci d ->
        only_incremented "g1" (App.goals st) (App.goals (App.handleNewCapture item st).2))) /\
  (defectType a = None ->
     (App.handleNewCapture item st).1 = JS.Throw JS.TypeError /\
     App.goals (App.handleNewCapture item st).2 = App.goals st /\
     forall gid, ~ only_incremented gid (App.goals st)
                   (App.goals (App.handleNewCapture item st).2)).
Proof.
  intros Hr Ha. destruct (reachable_goals_shape st Hr) as (x & y & Hg & Hx & Hy).
  unfold App.handleNewCapture, App.mentionsRust. rewrite Ha, Hg.
  destruct (defectType a) as [d |].
  - split; [destruct (JS.includes _ _); reflexivity |].
    split; [| discriminate]. intros d' [= <-].
    destruct (JS.includes (JS.toLowerCase d) "rust") eqn:Hi; simpl.
    + apply includes_rust_iff in Hi. split; [reflexivity |]. split.
      * intros _. apply incrementGoal_g2; assumption.
      * intros Hn. contradiction.
    + split; [reflexivity |]. split.
      * intros Hc. apply includes_rust_iff in Hc. congruence.
      * intros _. apply incrementGoal_g1; assumption.
  - simpl. split; [reflexivity |]. split; [discriminate |].
    intros _. split; [reflexivity |]. split; [reflexivity |].
    intros gid (i & g & Ho & _ & Hn & Hc & _).
    rewrite Ho in Hn. injection Hn as Hn. rewrite <- Hn in Hc. lia.
Qed.

Lemma commit_increments_one_goal_witness :
  App.handleNewCapture Samples.untypedItem App.initialStore
    = (JS.Throw JS.TypeError,
       {| App.capturedItems := [Samples.untypedItem]; App.goals := App.initialGoals |}) /\
  forall gid, ~ only_incremented gid (App.goals App.initialStore)
                (App.goals (App.handleNewCapture Samples.untypedItem App.initialStore).2).
Proof.
  split; [reflexivity |].
  apply (commit_increments_one_goal App.initialStore Samples.untypedItem
           Samples.untypedAnalysis).
  - apply App.reachable_initial.
  - reflexivity.
  - reflexivity.
Defined.

Example commit_surface_rust :
  map currentCount (App.goals (App.handleNewCapture Samples.rustItem App.initialStore).2)
    = [12; 19].
Proof. reflexivity. Qed.

Example commit_crack :
  map currentCount (App.goals (App.handleNewCapture Samples.crackItem App.initialStore).2)
    = [13; 18].
Proof. reflexivity. Qed.

(** C10. Committing an item without an analysis succeeds: the call
    returns, the item is appended, the default goal [g1] is raised by one,
    and every other goal, the rust goal [g2] among them, is left as it
    was. *)
Theorem commit_without_analysis (st : App.Store) (item : CapturedItem) :
  App.reachable st ->
  analysis item = None ->
  (App.handleNewCapture item st).1 = JS.Normal tt /\
  App.capturedItems (App.handleNewCapture item st).2 = App.capturedItems st ++ [item] /\
  only_incremented "g1" (App.goals st) (App.goals (App.handleNewCapture item st).2) /\
  (forall g, g ∈ App.goals st -> goal_id g = "g2" ->
             g ∈ App.goals (App.handleNewCapture item st).2).
Proof.
  intros Hr Ha. destruct (reachable_goals_shape st Hr) as (x & y & Hg & Hx & Hy).
  unfold App.handleNewCapture, App.mentionsRust. rewrite Ha, Hg. simpl.
  split; [reflexivity |]. split; [reflexivity |]. split.
  - apply incrementGoal_g1; assumption.
  - intros g Hin Hid. rewrite Hx, Hy. simpl.
    apply elem_of_cons in Hin as [-> | Hin]; [congruence |].
    apply elem_of_cons in Hin as [-> | Hin]; [| inversion Hin].
    apply elem_of_cons. right. apply elem_of_cons. left. reflexivity.
Qed.

Lemma commit_without_analysis_witness :
  (App.handleNewCapture Samples.bareItem App.initialStore).1 = JS.Normal tt /\
  App.capturedItems (App.handleNewCapture Samples.bareItem App.initialStore).2
    = App.capturedItems App.initialStore ++ [Samples.bareItem] /\
  only_incremented "g1" (App.goals App.initialStore)
    (App.goals (App.handleNewCapture Samples.bareItem App.initialStore).2) /\
  (forall g, g ∈ App.goals App.initialStore -> goal_id g = "g2" ->
             g ∈ App.goals (App.handleNewCapture Samples.bareItem App.initialStore).2).
Proof.
  apply (commit_without_analysis App.initialStore Samples.bareItem).
  - apply App.reachable_initial.
  - reflexivity.
Defined.

(** ** The inference adapter *)

Import geminiService.

(** C9. When the inference call of [analyzeFieldImage] fails, and also when
    its answer does not parse, the function returns normally with the fixed
    fallback result: defect type "Unknown", severity Low, confidence 0,
    quality insufficient, and a text that asks for a retry.  Whatever the
    call does, [analyzeFieldImage] returns a result and never throws. *)
Theorem analyze_fails_soft
    (parseAnalysis : string -> JS.Completion AnalysisResult)
    (generateContent : GenerateContentRequest -> JS.Completion GenerateContentResponse)
    (base64Image contextPrompt : string) :
  (forall e, generateContent (analyzeRequest base64Image contextPrompt) = JS.Throw e ->
     analyzeFieldImage parseAnalysis generateContent base64Image contextPrompt
       = JS.Normal fallbackAnalysis) /\
  (forall resp e,
     generateContent (analyzeRequest base64Image contextPrompt) = JS.Normal resp ->
     parseAnalysis (JS.or_else (response_text resp) "{}") = JS.Throw e ->
     analyzeFieldImage parseAnalysis generateContent base64Image contextPrompt
       = JS.Normal fallbackAnalysis) /\
  (exists r, analyzeFieldImage parseAnalysis generateContent base64Image contextPrompt
               = JS.Normal r) /\
  defectType fallbackAnalysis = Some "Unknown" /\
  severity fallbackAnalysis = Low /\
  confidence fallbackAnalysis = 0%Q /\
  isQualitySufficient fallbackAnalysis = false /\
  instructions fallbackAnalysis = "Analysis service unavailable. Please retry.".
Proof.
  unfold analyzeFieldImage.
  split; [| split; [| split; [| repeat split]]].
  - intros e ->. reflexivity.
  - intros resp e -> Hp. simpl. rewrite Hp. reflexivity.
  - destruct (generateContent _) as [resp | e]; simpl; [| eauto].
    destruct (parseAnalysis _) as [r | e]; simpl; eauto.
Qed.

Lemma analyze_fails_soft_witness :
  analyzeFieldImage (fun _ => JS.Throw (JS.MkError "unexpected token"))
                    (fun _ => JS.Throw (JS.MkError "503")) "AAAA" "Fuselage - Section 4A"
    = JS.Normal fallbackAnalysis.
Proof.
  destruct (analyze_fails_soft (fun _ => JS.Throw (JS.MkError "unexpected token"))
              (fun _ => JS.Throw (JS.MkError "503")) "AAAA" "Fuselage - Section 4A")
    as [H _].
  apply (H (JS.MkError "503")). reflexivity.
Defined.

(** ** The job poller *)

Section Poller.
Context (API_KEY : string) {Server : Type}.
Context (generateVideos : GenerateVideosRequest -> Server -> JS.Completion Operation * Server).
Context (getVideosOperation : Operation -> Server -> JS.Completion Operation * Server).

(** With enough fuel the loop function follows the run. *)
Lemma pollingLoop_run operation srv polled r srv' :
  PollRun getVideosOperation operation srv polled r srv' ->
  forall fuel trace, (length polled <= fuel)%nat ->
    pollingLoop getVideosOperation fuel operation srv trace
      = (Some r, srv', trace ++ pollEffects polled).
Proof.
  induction 1 as [op srv Hd | op srv e srv' Hd Hp | op srv op' srv' polled r srv'' Hd Hp _ IH];
    intros fuel trace Hf.
  - destruct fuel; simpl; rewrite Hd, app_nil_r; reflexivity.
  - destruct fuel as [| fuel]; [simpl in Hf; lia |].
    simpl. rewrite Hd, Hp. rewrite <- app_assoc. reflexivity.
  - destruct fuel as [| fuel]; [simpl in Hf; lia |].
    simpl. rewrite Hd, Hp. rewrite IH by (simpl in Hf; lia).
    rewrite <- !app_assoc. reflexivity.
Qed.

(** A run polls exactly the handles that are not done, and ends, when it
    ends normally, on a handle that is done. *)
Lemma PollRun_polled operation srv polled r srv' :
  PollRun getVideosOperation operation srv polled r srv' ->
  Forall (fun o => done o = false) polled /\
  (forall last, r = JS.Normal last -> done last = true).
Proof.
  induction 1 as [op srv Hd | op srv e srv' Hd Hp | op srv op' srv' polled r srv'' Hd Hp _ IH].
  - split; [constructor | intros last [= <-]; exact Hd].
  - split; [repeat constructor; exact Hd | intros last [=]].
  - destruct IH as [IH1 IH2]. split; [constructor; assumption | exact IH2].
Qed.

(** Conversely, whenever the loop function returns, it has followed a run. *)
Lemma pollingLoop_sound fuel operation srv trace r srv' trace' :
  pollingLoop getVideosOperation fuel operation srv trace = (Some r, srv', trace') ->
  exists polled,
    PollRun getVideosOperation operation srv polled r srv' /\
    trace' = trace ++ pollEffects polled /\ (length polled <= fuel)%nat.
Proof.
  revert operation srv trace.
  induction fuel as [| fuel IH]; intros op srv trace H; simpl in H.
  - destruct (done op) eqn:Hd; [| discriminate]. injection H as <- <- <-.
    exists []. split; [constructor; exact Hd |]. split; [symmetry; apply app_nil_r | simpl; lia].
  - destruct (done op) eqn:Hd.
    + injection H as <- <- <-.
      exists []. split; [constructor; exact Hd |].
      split; [symmetry; apply app_nil_r | simpl; lia].
    + destruct (getVideosOperation op srv) as [[op' | e] srv1] eqn:Hp.
      * destruct (IH _ _ _ H) as (polled & Hrun & -> & Hlen).
        exists (op :: polled). split; [eapply PollRun_again; eassumption |].
        split; [rewrite <- !app_assoc; reflexivity | simpl; lia].
      * injection H as <- <- <-.
        exists [op]. split; [apply PollRun_throw; assumption |].
        split; [rewrite <- app_assoc; reflexivity | simpl; lia].
Qed.

Lemma countPolls_pollEffects polled : countPolls (pollEffects polled) = length polled.
Proof.
  unfold countPolls, pollEffects.
  induction polled as [| o polled IH]; simpl; [reflexivity | rewrite IH; reflexivity].
Qed.

Lemma countSubmits_pollEffects polled : countSubmits (pollEffects polled) = 0%nat.
Proof.
  unfold countSubmits, pollEffects.
  induction polled as [| o polled IH]; simpl; [reflexivity | exact IH].
Qed.

(** The optional chain of the code reads the result reference of the
    claim. *)
Lemma resultUri_reference (operation : Operation) (u : string) :
  resultUri operation = Some u <-> resultReference operation u.
Proof.
  unfold resultUri, resultReference. split.
  - destruct (response operation) as [r |]; simpl; [| discriminate].
    destruct (generatedVideos r) as [[| v0 rest] |] eqn:Hg; simpl; try discriminate.
    destruct (video v0) as [v |] eqn:Hv; simpl; [| discriminate].
    intros Hu. exists r, v0, rest, v. auto.
  - intros (r & v0 & rest & v & -> & Hg & Hv & Hu). simpl. rewrite Hg. simpl.
    rewrite Hv. simpl. exact Hu.
Qed.

Lemma videoUrl_reference (operation : Operation) :
  (forall c u, resultReference operation (String c u) ->
     videoUrl API_KEY operation = Some (String c u +:+ "&key=" +:+ API_KEY)) /\
  ((forall c u, ~ resultReference operation (String c u)) ->
     videoUrl API_KEY operation = None).
Proof.
  unfold videoUrl. split.
  - intros c u H. apply resultUri_reference in H. rewrite H. reflexivity.
  - intros H. destruct (resultUri operation) as [[| c u] |] eqn:E; try reflexivity.
    exfalso. apply (H c u). apply resultUri_reference. exact E.
Qed.

(** C4, as amended.  The poller submits once; while the handle is not done
    it waits 5000 ms and polls again, replacing the handle; it stops at the
    first handle that is done.  What it returns is not the result reference
    of that handle but the reference with [&key=API_KEY] appended, when the
    handle has a reference that is not empty, and [null] when it has none
    or an empty one.  An error thrown by the submit call or by a poll is
    logged and thrown again to the caller. *)
Theorem poller_runs_to_first_done (base64Image prompt : string) (srv : Server) :
  (forall first srv0 polled last srv' fuel,
     generateVideos (videoRequest base64Image prompt) srv = (JS.Normal first, srv0) ->
     PollRun getVideosOperation first srv0 polled (JS.Normal last) srv' ->
     (length polled <= fuel)%nat ->
     (exists result,
        generateInspectionVideo API_KEY generateVideos getVideosOperation fuel
          base64Image prompt srv
          = (Some (JS.Normal result), srv',
             GenerateVideos (videoRequest base64Image prompt) :: pollEffects polled) /\
        (forall c u, resultReference last (String c u) ->
           result = Some (String c u +:+ "&key=" +:+ API_KEY)) /\
        ((forall c u, ~ resultReference last (String c u)) -> result = None)) /\
     Forall (fun o => done o = false) polled /\ done last = true /\
     countSubmits (GenerateVideos (videoRequest base64Image prompt) :: pollEffects polled) = 1%nat /\
     countPolls (GenerateVideos (videoRequest base64Image prompt) :: pollEffects polled)
       = length polled) /\
  (forall e srv0 fuel,
     generateVideos (videoRequest base64Image prompt) srv = (JS.Throw e, srv0) ->
     generateInspectionVideo API_KEY generateVideos getVideosOperation fuel base64Image prompt srv
       = (Some (JS.Throw e), srv0,
          [GenerateVideos (videoRequest base64Image prompt);
           ConsoleError "Video generation failed" e])) /\
  (forall first srv0 polled e srv' fuel,
     generateVideos (videoRequest base64Image prompt) srv = (JS.Normal first, srv0) ->
     PollRun getVideosOperation first srv0 polled (JS.Throw e) srv' ->
     (length polled <= fuel)%nat ->
     generateInspectionVideo API_KEY generateVideos getVideosOperation fuel base64Image prompt srv
       = (Some (JS.Throw e), srv',
          GenerateVideos (videoRequest base64Image prompt) :: pollEffects polled
            ++ [ConsoleError "Video generation failed" e])).
Proof.
  split; [| split].
  - intros first srv0 polled last srv' fuel Hs Hrun Hf.
    destruct (PollRun_polled _ _ _ _ _ Hrun) as [Hall Hlast].
    split; [| split; [exact Hall | split; [exact (Hlast _ eq_refl) | split]]].
    + exists (videoUrl API_KEY last). split; [| apply videoUrl_reference].
      unfold generateInspectionVideo. rewrite Hs.
      rewrite (pollingLoop_run _ _ _ _ _ Hrun) by exact Hf. reflexivity.
    + change (S (countSubmits (pollEffects polled)) = 1%nat).
      rewrite countSubmits_pollEffects. reflexivity.
    + change (countPolls (pollEffects polled) = length polled).
      apply countPolls_pollEffects.
  - intros e srv0 fuel Hs. unfold generateInspectionVideo. rewrite Hs. reflexivity.
  - intros first srv0 polled e srv' fuel Hs Hrun Hf.
    unfold generateInspectionVideo. rewrite Hs.
    rewrite (pollingLoop_run _ _ _ _ _ Hrun) by exact Hf. reflexivity.
Qed.

End Poller.

(** The scripted service answers three polls: not done, not done, done. *)
Lemma script3_run (u : string) :
  PollRun Mock.poll (Mock.running "op0") (Mock.script3 u)
    [Mock.running "op0"; Mock.running "op1"; Mock.running "op2"]
    (JS.Normal (Mock.finished "op3" u)) [].
Proof.
  eapply PollRun_again; [reflexivity | reflexivity |].
  eapply PollRun_again; [reflexivity | reflexivity |].
  eapply PollRun_again; [reflexivity | reflexivity |].
  apply PollRun_done. reflexivity.
Qed.

Lemma finished_reference (n u : string) : resultReference (Mock.finished n u) u.
Proof. eexists _, _, _, _. repeat split. Qed.

Lemma poller_runs_to_first_done_witness :
  generateInspectionVideo "KEY" (Mock.submit (Mock.running "op0")) Mock.poll 3 "AAAA" "flyover"
      (Mock.script3 "https://video/1")
    = (Some (JS.Normal (Some "https://video/1&key=KEY")), [],
       GenerateVideos (videoRequest "AAAA" "flyover")
         :: pollEffects [Mock.running "op0"; Mock.running "op1"; Mock.running "op2"]) /\
  Forall (fun o => done o = false) [Mock.running "op0"; Mock.running "op1"; Mock.running "op2"] /\
  done (Mock.finished "op3" "https://video/1") = true /\
  countSubmits (GenerateVideos (videoRequest "AAAA" "flyover")
      :: pollEffects [Mock.running "op0"; Mock.running "op1"; Mock.running "op2"]) = 1%nat /\
  countPolls (GenerateVideos (videoRequest "AAAA" "flyover")
      :: pollEffects [Mock.running "op0"; Mock.running "op1"; Mock.running "op2"]) = 3%nat.
Proof.
  destruct (poller_runs_to_first_done "KEY" (Mock.submit (Mock.running "op0")) Mock.poll
              "AAAA" "flyover" (Mock.script3 "https://video/1")) as [H _].
  destruct (H (Mock.running "op0") (Mock.script3 "https://video/1")
              [Mock.running "op0"; Mock.running "op1"; Mock.running "op2"]
              (Mock.finished "op3" "https://video/1") [] 3%nat)
    as ((result & Hrun & Href & _) & Hrest).
  - reflexivity.
  - apply script3_run.
  - simpl. lia.
  - split; [| exact Hrest].
    rewrite Hrun. rewrite (Href "h"%char "ttps://video/1" (finished_reference _ _)). reflexivity.
Defined.

(** The claim fails where it says that the poller returns the result of
    the handle: for the reference ["https://video/1"] and the key ["KEY"]
    the poller returns another text. *)
Lemma poller_result_carries_key :
  resultReference (Mock.finished "op3" "https://video/1") "https://video/1" /\
  (generateInspectionVideo "KEY" (Mock.submit (Mock.running "op0")) Mock.poll 3 "AAAA" "flyover"
     (Mock.script3 "https://video/1")).1.1
    = Some (JS.Normal (Some "https://video/1&key=KEY")) /\
  (generateInspectionVideo "KEY" (Mock.submit (Mock.running "op0")) Mock.poll 3 "AAAA" "flyover"
     (Mock.script3 "https://video/1")).1.1
    <> Some (JS.Normal (Some "https://video/1")).
Proof.
  split; [apply finished_reference |]. split; [reflexivity |]. discriminate.
Qed.

(** A finished job without a result gives [null]. *)
Example poller_without_result :
  (generateInspectionVideo "KEY" (Mock.submit (Mock.running "op0")) Mock.poll 3 "AAAA" "flyover"
     [JS.Normal (Mock.finishedEmpty "op1")]).1.1
    = Some (JS.Normal None).
Proof. reflexivity. Qed.

(** A poll that fails: the error is logged and thrown to the caller. *)
Example poller_rethrows :
  generateInspectionVideo "KEY" (Mock.submit (Mock.running "op0")) Mock.poll 5 "AAAA" "flyover"
    [JS.Normal (Mock.running "op1"); JS.Throw (JS.MkError "quota exceeded")]
  = (Some (JS.Throw (JS.MkError "quota exceeded")), [],
     [GenerateVideos (videoRequest "AAAA" "flyover");
      SetTimeout 5000; GetVideosOperation (Mock.running "op0");
      SetTimeout 5000; GetVideosOperation (Mock.running "op1");
      ConsoleError "Video generation failed" (JS.MkError "quota exceeded")]).
Proof. reflexivity. Qed.

(** ** The capture session *)

Lemma filter_delete_false {A} (P : A -> bool) (l : list A) (i : nat) (x : A) :
  l !! i = Some x -> P x = false -> List.filter P (delete i l) = List.filter P l.
Proof.
  revert i. induction l as [| y l IH]; intros [| i] H Hx; simpl in *; try discriminate.
  - injection H as ->. rewrite Hx. reflexivity.
  - rewrite (IH i H Hx). reflexivity.
Qed.

Lemma filter_delete_true {A} (P : A -> bool) (l : list A) (i : nat) (x : A) :
  l !! i = Some x -> P x = true ->
  length (List.filter P l) = S (length (List.filter P (delete i l))).
Proof.
  revert i. induction l as [| y l IH]; intros [| i] H Hx; simpl in *; try discriminate.
  - injection H as ->. rewrite Hx. reflexivity.
  - destruct (P y); simpl; rewrite (IH i H Hx); reflexivity.
Qed.

Lemma filter_lookup_nonempty {A} (P : A -> bool) (l : list A) (i : nat) (x : A) :
  l !! i = Some x -> P x = true -> List.filter P l <> [].
Proof.
  intros H Hx Hnil. pose proof (filter_delete_true P l i x H Hx) as Hl.
  rewrite Hnil in Hl. discriminate.
Qed.

Lemma filter_delete_last {A} (P : A -> bool) (l : list A) (i : nat) (x : A) :
  l !! i = Some x -> P x = true -> (length (List.filter P l) <= 1)%nat ->
  List.filter P (delete i l) = [].
Proof.
  intros H Hx Hle. pose proof (filter_delete_true P l i x H Hx) as Hl.
  destruct (List.filter P (delete i l)); [reflexivity | simpl in Hl; lia].
Qed.

Lemma filter_snoc_false {A} (P : A -> bool) (l : list A) (x : A) :
  P x = false -> List.filter P (l ++ [x]) = List.filter P l.
Proof. intros Hx. rewrite List.filter_app. simpl. rewrite Hx. apply app_nil_r. Qed.

Lemma filter_snoc_true {A} (P : A -> bool) (l : list A) (x : A) :
  P x = true -> List.filter P (l ++ [x]) = List.filter P l ++ [x].
Proof. intros Hx. rewrite List.filter_app. simpl. rewrite Hx. reflexivity. Qed.

(** Unfolds one step of the component into its cases. *)
Ltac step_cases H :=
  unfold FieldView.step in H;
  repeat match type of H with
         | context [match ?x with _ => _ end] => destruct x eqn:?
         end;
  try discriminate; injection H as <-.

(** A save of a view that holds an image and an analysis commits one item,
    made of them; it resets the view when the commit returns, and leaves
    the view as it is when the commit throws. *)
Lemma handleSave_commits (uuid : string) (now : Z) (sys : FieldView.System)
    (c : ascii) (img : string) (a : AnalysisResult) :
  FieldView.capturedImage (FieldView.view sys) = Some (String c img) ->
  FieldView.analysis (FieldView.view sys) = Some a ->
  exists item,
    (item_id item = uuid /\ timestamp item = now /\ imageUrl item = String c img /\
     analysis item = Some a /\
     status item = (if isQualitySufficient a then approved else pending) /\
     component (metadata item)
       = FieldView.componentOf (FieldView.machineContext (FieldView.view sys))) /\
    (FieldView.store (FieldView.handleSave uuid now sys).2
       = (App.handleNewCapture item (FieldView.store sys)).2 /\
     FieldView.awaiting (FieldView.handleSave uuid now sys).2 = FieldView.awaiting sys /\
     FieldView.calls (FieldView.handleSave uuid now sys).2 = FieldView.calls sys) /\
    (((App.handleNewCapture item (FieldView.store sys)).1 = JS.Normal tt /\
      (FieldView.handleSave uuid now sys).1 = JS.Normal tt /\
      FieldView.view (FieldView.handleSave uuid now sys).2
        = FieldView.view (FieldView.handleReset sys))
     \/
     (exists e,
        (App.handleNewCapture item (FieldView.store sys)).1 = JS.Throw e /\
        (FieldView.handleSave uuid now sys).1 = JS.Throw e /\
        FieldView.view (FieldView.handleSave uuid now sys).2 = FieldView.view sys)).
Proof.
  intros Hc Ha. unfold FieldView.handleSave. rewrite Hc, Ha.
  match goal with
  | |- context [App.handleNewCapture ?i ?s] =>
      exists i; destruct (App.handleNewCapture i s) as [[[] | e] st']
  end; simpl.
  - split; [repeat split |]. split; [repeat split |]. left. repeat split.
  - split; [repeat split |]. split; [repeat split |]. right. exists e. repeat split.
Qed.

(** Only a save changes the store, and it adds one item that carries its
    analysis and the status that follows from it. *)
Lemma step_store (ev : FieldView.Event) (sys sys' : FieldView.System) :
  FieldView.step ev sys = Some sys' ->
  FieldView.store sys' = FieldView.store sys \/
  exists item, statusFollowsQuality item /\
    FieldView.store sys' = (App.handleNewCapture item (FieldView.store sys)).2.
Proof.
  intros H.
  destruct ev as [dataUrl | | value | | i outcome | i outcome | | uuid now | ]; simpl in H.
  - destruct (negb _); [| discriminate]. injection H as <-.
    left. unfold FieldView.handleCapture. destruct (FieldView.videoRef_current _); reflexivity.
  - destruct (negb _); [| discriminate]. injection H as <-. left. reflexivity.
  - injection H as <-. left. reflexivity.
  - match type of H with (if ?b then _ else _) = _ => destruct b end; [| discriminate].
    injection H as <-. left. unfold FieldView.handleAnalyze.
    destruct (FieldView.capturedImage _) as [[| c img] |]; reflexivity.
  - destruct (FieldView.awaiting sys !! i) as [[b c | b c] |]; try discriminate.
    left. destruct outcome; injection H as <-; [| reflexivity].
    unfold FieldView.handleAnalyze_resume. destruct (FieldView.wantsOverlay _); reflexivity.
  - destruct (FieldView.awaiting sys !! i) as [[b c | b c] |]; try discriminate.
    left. destruct outcome; injection H as <-; reflexivity.
  - match type of H with (if ?b then _ else _) = _ => destruct b end; [| discriminate].
    injection H as <-. left. reflexivity.
  - destruct (JS.truthy (FieldView.capturedImage (FieldView.view sys))) eqn:Ht;
      simpl in H; [| discriminate].
    destruct (bool_decide (is_Some (FieldView.analysis (FieldView.view sys)))) eqn:Hs;
      simpl in H; [| discriminate].
    injection H as <-. apply bool_decide_eq_true in Hs. destruct Hs as [a Ha].
    destruct (FieldView.capturedImage (FieldView.view sys)) as [[| c img] |] eqn:Hc;
      try discriminate.
    destruct (handleSave_commits uuid now sys c img a Hc Ha)
      as (item & (_ & _ & _ & Hia & Hst & _) & (E & _) & _).
    right. exists item. split; [| exact E].
    exists a. split; [exact Hia |]. rewrite Hst.
    destruct (isQualitySufficient a); split; split; congruence.
  - match type of H with (if ?b then _ else _) = _ => destruct b end; [| discriminate].
    injection H as <-. left. reflexivity.
Qed.

Lemma handleNewCapture_items (item : CapturedItem) (st : App.Store) :
  App.capturedItems (App.handleNewCapture item st).2 = App.capturedItems st ++ [item].
Proof.
  unfold App.handleNewCapture. destruct (App.mentionsRust item) as [[|] | e]; reflexivity.
Qed.

Lemma run_reachable (evs : list FieldView.Event) (sys sys' : FieldView.System) :
  FieldView.reachable sys -> FieldView.run evs sys = Some sys' -> FieldView.reachable sys'.
Proof.
  revert sys. induction evs as [| ev evs IH]; intros sys Hr H; simpl in H.
  - injection H as <-. exact Hr.
  - destruct (FieldView.step ev sys) as [sys1 |] eqn:Hs; [| discriminate].
    apply (IH sys1); [| exact H]. eapply FieldView.reachable_step; eassumption.
Qed.

Lemma stored_items_follow_quality (sys : FieldView.System) :
  FieldView.reachable sys ->
  forall item, item ∈ App.capturedItems (FieldView.store sys) -> statusFollowsQuality item.
Proof.
  induction 1 as [| ev sys sys' _ IH Hstep]; intros item Hin.
  - inversion Hin.
  - destruct (step_store _ _ _ Hstep) as [E | (new & Hnew & E)];
      rewrite E in Hin; [auto |].
    rewrite handleNewCapture_items in Hin.
    apply elem_of_app in Hin as [Hin | Hin]; [auto |].
    apply list_elem_of_singleton in Hin as ->. exact Hnew.
Qed.

(** C2. Every item that a reachable system holds in its store carries an
    analysis, and its status is [approved] exactly when that analysis has
    [isQualitySufficient = true], [pending] exactly when it has not; so an
    approved item always has a non-null analysis of sufficient quality. *)
Theorem stored_items_status (sys : FieldView.System) (item : CapturedItem) :
  FieldView.reachable sys ->
  item ∈ App.capturedItems (FieldView.store sys) ->
  statusFollowsQuality item /\
  (status item = approved ->
   exists a, analysis item = Some a /\ isQualitySufficient a = true).
Proof.
  intros Hr Hin.
  pose proof (stored_items_follow_quality sys Hr item Hin) as Hs.
  split; [exact Hs |].
  destruct Hs as (a & Ha & Happ & _). intros Hst. exists a. split; [exact Ha | tauto].
Qed.

Lemma not_analyzing_when_no_image (sys : FieldView.System) :
  flightInv sys ->
  JS.truthy (FieldView.capturedImage (FieldView.view sys)) = false ->
  FieldView.isAnalyzing (FieldView.view sys) = false /\
  FieldView.analysis (FieldView.view sys) = None /\
  analyzeInFlight sys = [].
Proof.
  intros (G1 & G2 & G3) Ht.
  assert (Ha : FieldView.isAnalyzing (FieldView.view sys) = false).
  { destruct (FieldView.isAnalyzing _); [| reflexivity].
    destruct (G1 eq_refl). congruence. }
  split; [exact Ha |]. split.
  - destruct (FieldView.analysis _) eqn:E; [| reflexivity].
    rewrite G2 in Ht by eauto. discriminate.
  - destruct (analyzeInFlight sys) eqn:E; [reflexivity |].
    destruct G3 as [G3 _]; congruence.
Qed.

Lemma not_analyzing_when_analyzed (sys : FieldView.System) :
  flightInv sys ->
  is_Some (FieldView.analysis (FieldView.view sys)) ->
  FieldView.isAnalyzing (FieldView.view sys) = false /\ analyzeInFlight sys = [].
Proof.
  intros (G1 & G2 & G3) [a Ha].
  assert (Hn : FieldView.isAnalyzing (FieldView.view sys) = false).
  { destruct (FieldView.isAnalyzing _); [| reflexivity].
    destruct (G1 eq_refl). congruence. }
  split; [exact Hn |].
  destruct (analyzeInFlight sys) eqn:E; [reflexivity |].
  destruct G3 as [G3 _]; congruence.
Qed.

Lemma flightInv_step (ev : FieldView.Event) (sys sys' : FieldView.System) :
  flightInv sys -> FieldView.step ev sys = Some sys' -> flightInv sys'.
Proof.
  intros G H.
  destruct ev as [dataUrl | | value | | i outcome | i outcome | | uuid now | ]; simpl in H.
  - destruct (JS.truthy (FieldView.capturedImage (FieldView.view sys))) eqn:Ht;
      simpl in H; [discriminate |]. injection H as <-.
    destruct (not_analyzing_when_no_image sys G Ht) as (Ha & Hn & Hf).
    unfold FieldView.handleCapture, FieldView.videoRef_current. rewrite Ht.
    unfold flightInv, analyzeInFlight in *. simpl. rewrite Ha, Hn, Hf.
    split; [discriminate |]. split; [intros [? ?]; discriminate | congruence].
  - destruct (JS.truthy (FieldView.capturedImage (FieldView.view sys))) eqn:Ht;
      simpl in H; [discriminate |]. injection H as <-. exact G.
  - injection H as <-. exact G.
  - destruct (JS.truthy (FieldView.capturedImage (FieldView.view sys))) eqn:Ht;
      simpl in H; [| discriminate].
    destruct (bool_decide (is_Some (FieldView.analysis (FieldView.view sys)))) eqn:Hs;
      simpl in H; [discriminate |].
    destruct (FieldView.isAnalyzing (FieldView.view sys)) eqn:Ha; simpl in H; [discriminate |].
    injection H as <-.
    destruct G as (G1 & G2 & G3). unfold flightInv, analyzeInFlight in *.
    assert (Hf : List.filter FieldView.isAwaitAnalyze (FieldView.awaiting sys) = []).
    { destruct (List.filter _ _) eqn:E; [reflexivity |]. destruct G3; congruence. }
    unfold FieldView.handleAnalyze.
    destruct (FieldView.capturedImage (FieldView.view sys)) as [[| c img] |] eqn:Hc;
      try discriminate.
    simpl. rewrite filter_snoc_true, Hf, Hc by reflexivity. simpl.
    split; [intros _; split; reflexivity |].
    split; [intros [? ?]; discriminate | intros _; split; [reflexivity | lia]].
  - destruct (FieldView.awaiting sys !! i) as [[b c | b c] |] eqn:Hi; try discriminate.
    destruct G as (G1 & G2 & G3). unfold flightInv, analyzeInFlight in *.
    pose proof (filter_lookup_nonempty FieldView.isAwaitAnalyze _ _ _ Hi eq_refl) as Hne.
    destruct (G3 Hne) as [Ha Hle]. destruct (G1 Ha) as [Ht Hn].
    pose proof (filter_delete_last FieldView.isAwaitAnalyze _ _ _ Hi eq_refl Hle) as Hd.
    destruct outcome as [result | e]; injection H as <-.
    + unfold FieldView.handleAnalyze_resume, FieldView.handleAugment.
      destruct (FieldView.wantsOverlay result); simpl;
        rewrite ?filter_snoc_false by reflexivity; rewrite Hd;
        (split; [discriminate |]); (split; [intros _; exact Ht | congruence]).
    + simpl. rewrite Hd. split; [exact G1 |]. split; [exact G2 | congruence].
  - destruct (FieldView.awaiting sys !! i) as [[b c | b c] |] eqn:Hi; try discriminate.
    destruct G as (G1 & G2 & G3). unfold flightInv, analyzeInFlight in *.
    pose proof (filter_delete_false FieldView.isAwaitAnalyze _ _ _ Hi eq_refl) as Hd.
    destruct outcome as [overlay | e]; injection H as <-; simpl; rewrite Hd; auto.
  - destruct (JS.truthy (FieldView.capturedImage (FieldView.view sys)) &&
              JS.truthy (FieldView.annotatedImage (FieldView.view sys)) &&
              negb (FieldView.isAugmenting (FieldView.view sys))); [| discriminate].
    injection H as <-. exact G.
  - destruct (JS.truthy (FieldView.capturedImage (FieldView.view sys))) eqn:Ht;
      simpl in H; [| discriminate].
    destruct (bool_decide (is_Some (FieldView.analysis (FieldView.view sys)))) eqn:Hs;
      simpl in H; [| discriminate].
    injection H as <-. apply bool_decide_eq_true in Hs.
    destruct (not_analyzing_when_analyzed sys G Hs) as [Ha Hf].
    destruct (FieldView.capturedImage (FieldView.view sys)) as [[| c img] |] eqn:Hc;
      try discriminate.
    destruct Hs as [a Hs].
    destruct (handleSave_commits uuid now sys c img a Hc Hs)
      as (item & _ & (_ & Haw & _) & [(_ & _ & Hv) | (e & _ & _ & Hv)]);
      unfold flightInv, analyzeInFlight in *; rewrite Haw, Hv; [| exact G].
    simpl. rewrite Ha, Hf.
    split; [discriminate |]. split; [intros [? ?]; discriminate | congruence].
  - destruct (JS.truthy (FieldView.capturedImage (FieldView.view sys))) eqn:Ht;
      simpl in H; [| discriminate].
    destruct (bool_decide (is_Some (FieldView.analysis (FieldView.view sys)))) eqn:Hs;
      simpl in H; [| discriminate].
    injection H as <-. apply bool_decide_eq_true in Hs.
    destruct (not_analyzing_when_analyzed sys G Hs) as [Ha Hf].
    unfold flightInv, analyzeInFlight in *. simpl. rewrite Ha, Hf.
    split; [discriminate |]. split; [intros [? ?]; discriminate | congruence].
Qed.

Lemma flightInv_reachable (sys : FieldView.System) : FieldView.reachable sys -> flightInv sys.
Proof.
  induction 1 as [| ev sys sys' _ IH Hstep].
  - unfold flightInv, analyzeInFlight. simpl.
    split; [discriminate |]. split; [intros [? ?]; discriminate | congruence].
  - eapply flightInv_step; eassumption.
Qed.

Lemma delivered_app (evs evs' : list FieldView.Event) :
  delivered (evs ++ evs') = delivered evs ++ delivered evs'.
Proof.
  induction evs as [| ev evs IH]; [reflexivity |].
  destruct ev as [| | | | i [r | e] | | | |]; simpl; rewrite IH; reflexivity.
Qed.

(** The shutter opens a session: nothing is analysed, nothing is pending. *)
Lemma session_start (sys0 sys1 : FieldView.System) (c : ascii) (url : string) :
  FieldView.reachable sys0 ->
  FieldView.step (FieldView.ClickShutter (String c url)) sys0 = Some sys1 ->
  flightInv sys1 /\ sessionInv (String c url) (FieldView.calls sys1) [] sys1.
Proof.
  intros Hr H. pose proof (flightInv_reachable _ Hr) as G.
  split; [eapply flightInv_step; eassumption |].
  simpl in H.
  destruct (JS.truthy (FieldView.capturedImage (FieldView.view sys0))) eqn:Ht;
    simpl in H; [discriminate |]. injection H as <-.
  destruct (not_analyzing_when_no_image sys0 G Ht) as (Ha & Hn & Hf).
  unfold FieldView.handleCapture, FieldView.videoRef_current. rewrite Ht.
  unfold sessionInv, analyzeInFlight in *. simpl.
  split; [reflexivity |]. split; [reflexivity |]. left. auto.
Qed.

Lemma sessionInv_step (img : string) (base : list FieldView.Call)
    (results : list AnalysisResult) (ev : FieldView.Event) (sys sys' : FieldView.System) :
  flightInv sys -> sessionInv img base results sys ->
  FieldView.endsSession ev = false ->
  FieldView.step ev sys = Some sys' ->
  sessionInv img base (results ++ delivered [ev]) sys'.
Proof.
  intros G (Hc & Ht & S) He H.
  assert (Ht' : JS.truthy (FieldView.capturedImage (FieldView.view sys)) = true)
    by (rewrite Hc; exact Ht).
  destruct ev as [dataUrl | | value | | i outcome | i outcome | | uuid now | ];
    simpl in H; try discriminate He; simpl delivered; rewrite ?app_nil_r.
  - rewrite Ht' in H. discriminate.
  - rewrite Ht' in H. discriminate.
  - injection H as <-. split; [exact Hc |]. split; [exact Ht | exact S].
  - rewrite Ht' in H. simpl in H.
    destruct (bool_decide (is_Some (FieldView.analysis (FieldView.view sys)))) eqn:Hs;
      simpl in H; [discriminate |].
    destruct (FieldView.isAnalyzing (FieldView.view sys)) eqn:Ha; simpl in H; [discriminate |].
    injection H as <-.
    destruct S as [(Hres & Hn & _ & Hf & Hcalls) | [(c & _ & _ & Ha' & _) | (c & r & _ & Hn & _)]].
    + unfold FieldView.handleAnalyze. rewrite Hc.
      destruct img as [| ch img]; [discriminate |].
      unfold sessionInv, analyzeInFlight in *. simpl.
      split; [exact Hc |]. split; [reflexivity |].
      right. left. eexists.
      rewrite filter_snoc_true, Hf, Hcalls by reflexivity. simpl.
      split; [exact Hres |]. split; [reflexivity |]. split; [reflexivity |].
      split; [right; reflexivity | reflexivity].
    + congruence.
    + rewrite Hn in Hs. apply bool_decide_eq_false in Hs. exfalso. apply Hs. eauto.
  - destruct (FieldView.awaiting sys !! i) as [[b c | b c] |] eqn:Hi; try discriminate.
    pose proof (filter_lookup_nonempty FieldView.isAwaitAnalyze _ _ _ Hi eq_refl) as Hne.
    pose proof (filter_delete_true FieldView.isAwaitAnalyze _ _ _ Hi eq_refl) as Hlen.
    destruct S as [(_ & _ & _ & Hf & _)
                  | [(c' & Hres & Hn & Ha & Hf & Hcalls) | (c' & r & _ & _ & _ & Hf & _)]];
      unfold analyzeInFlight in *; try congruence.
    destruct Hf as [Hf | Hf]; [congruence |].
    assert (Hd : List.filter FieldView.isAwaitAnalyze (delete i (FieldView.awaiting sys)) = []).
    { rewrite Hf in Hlen. simpl in Hlen.
      destruct (List.filter _ (delete i _)); [reflexivity | discriminate]. }
    assert (Hb : FieldView.AwaitAnalyze b c
                 = FieldView.AwaitAnalyze (FieldView.splitComma1 img) c').
    { assert (Hin : In (FieldView.AwaitAnalyze b c)
                      (List.filter FieldView.isAwaitAnalyze (FieldView.awaiting sys))).
      { apply List.filter_In. split; [| reflexivity].
        apply list_elem_of_In. eapply list_elem_of_lookup_2. exact Hi. }
      rewrite Hf in Hin. destruct Hin as [E | []]. congruence. }
    injection Hb as -> ->. subst results.
    destruct outcome as [result | e]; injection H as <-; simpl.
    + unfold FieldView.handleAnalyze_resume, FieldView.handleAugment, sessionInv,
        analyzeInFlight, overlayCalls, FieldView.wantsOverlay.
      destruct (negb (bool_decide (defectType result = Some "None"))
                && isQualitySufficient result) eqn:Hw; simpl;
        rewrite ?filter_snoc_false by reflexivity;
        (split; [exact Hc |]); (split; [exact Ht |]); right; right; exists c', result;
        rewrite Hd, Hcalls, <- ?app_assoc; simpl; rewrite Hw; repeat split; reflexivity.
    + unfold sessionInv, analyzeInFlight. simpl. split; [exact Hc |]. split; [exact Ht |].
      right. left. exists c'. rewrite Hd. repeat split; auto.
  - destruct (FieldView.awaiting sys !! i) as [[b c | b c] |] eqn:Hi; try discriminate.
    pose proof (filter_delete_false FieldView.isAwaitAnalyze _ _ _ Hi eq_refl) as Hd.
    unfold sessionInv, analyzeInFlight in *.
    destruct outcome as [overlay | e]; injection H as <-; simpl; rewrite Hd;
      (split; [exact Hc |]); (split; [exact Ht | exact S]).
  - destruct (JS.truthy (FieldView.capturedImage (FieldView.view sys)) &&
              JS.truthy (FieldView.annotatedImage (FieldView.view sys)) &&
              negb (FieldView.isAugmenting (FieldView.view sys))); [| discriminate].
    injection H as <-. split; [exact Hc |]. split; [exact Ht | exact S].
Qed.

Lemma sessionInv_run (img : string) (base : list FieldView.Call)
    (results : list AnalysisResult) (evs : list FieldView.Event)
    (sys sys' : FieldView.System) :
  flightInv sys -> sessionInv img base results sys ->
  Forall (fun ev => FieldView.endsSession ev = false) evs ->
  FieldView.run evs sys = Some sys' ->
  sessionInv img base (results ++ delivered evs) sys'.
Proof.
  revert sys results.
  induction evs as [| ev evs IH]; intros sys results G S Hall H; simpl in H.
  - injection H as <-. simpl. rewrite app_nil_r. exact S.
  - destruct (FieldView.step ev sys) as [sys1 |] eqn:Hs; [| discriminate].
    apply Forall_cons in Hall as [He Hall'].
    change (ev :: evs) with ([ev] ++ evs). rewrite delivered_app, app_assoc.
    apply (IH sys1); [eapply flightInv_step; eassumption | | exact Hall' | exact H].
    eapply sessionInv_step; eassumption.
Qed.

(** C3. In a capture session, from the shutter up to any later moment before
    the session is saved or discarded: the component issues no service call
    before the analysis request, which is made for the image of the
    session; as long as no analysis result has been delivered, the view has
    no analysis and no overlay request has been issued; at most one result
    is delivered, it becomes the analysis of the view, and once it is
    delivered the component has issued, after the analysis request and for
    the same image, exactly one overlay request when the result has a
    defect type other than "None" and sufficient quality, and none
    otherwise. *)
Theorem one_augmentation_per_session (sys0 sys1 sys2 : FieldView.System)
    (c : ascii) (url : string) (evs : list FieldView.Event) :
  FieldView.reachable sys0 ->
  FieldView.step (FieldView.ClickShutter (String c url)) sys0 = Some sys1 ->
  Forall (fun ev => FieldView.endsSession ev = false) evs ->
  FieldView.run evs sys1 = Some sys2 ->
  exists new, FieldView.calls sys2 = FieldView.calls sys1 ++ new /\
    match delivered evs with
    | [] =>
        FieldView.analysis (FieldView.view sys2) = None /\
        (new = [] \/
         exists ctx, new = [FieldView.CallAnalyze (FieldView.splitComma1 (String c url)) ctx])
    | r :: more =>
        more = [] /\
        FieldView.analysis (FieldView.view sys2) = Some r /\
        exists ctx,
          new = FieldView.CallAnalyze (FieldView.splitComma1 (String c url)) ctx ::
                (if negb (bool_decide (defectType r = Some "None")) && isQualitySufficient r
                 then [FieldView.CallAugment (FieldView.splitComma1 (String c url))
                         ("defect: " +:+ JS.template (defectType r))]
                 else [])
    end.
Proof.
  intros Hr Hs Hall Hrun.
  destruct (session_start _ _ _ _ Hr Hs) as [G S].
  pose proof (sessionInv_run _ _ _ _ _ _ G S Hall Hrun) as (_ & _ & S2).
  simpl in S2.
  destruct S2 as [(Hres & Hn & _ & _ & Hc)
                 | [(ctx & Hres & Hn & _ & _ & Hc) | (ctx & r & Hres & Hn & _ & _ & Hc)]];
    rewrite Hres.
  - exists []. rewrite app_nil_r. auto.
  - exists [FieldView.CallAnalyze (FieldView.splitComma1 (String c url)) ctx]. eauto.
  - exists (FieldView.CallAnalyze (FieldView.splitComma1 (String c url)) ctx
            :: overlayCalls (FieldView.splitComma1 (String c url)) r).
    split; [exact Hc |]. split; [reflexivity |]. split; [exact Hn |].
    exists ctx. reflexivity.
Qed.

Lemma one_augmentation_per_session_witness :
  exists new,
    FieldView.calls Samples.analyzedSystem = FieldView.calls Samples.capturedOnly ++ new /\
    FieldView.analysis (FieldView.view Samples.analyzedSystem)
      = Some (Samples.analysisOf "Surface Rust" true) /\
    new = [FieldView.CallAnalyze (Some "AAAA") "Fuselage - Section 4A";
           FieldView.CallAugment (Some "AAAA") "defect: Surface Rust"].
Proof.
  destruct (one_augmentation_per_session FieldView.initialSystem Samples.capturedOnly
              Samples.analyzedSystem "d" "ata:image/jpeg;base64,AAAA" Samples.analyzeEvents)
    as (new & Hcalls & Hres).
  - apply FieldView.reachable_initial.
  - vm_compute. reflexivity.
  - repeat constructor.
  - vm_compute. reflexivity.
  - exists new. split; [exact Hcalls |].
    simpl in Hres. destruct Hres as (_ & Ha & ctx & Hnew).
    split; [exact Ha |].
    rewrite Hnew in Hcalls. vm_compute in Hcalls. injection Hcalls as <-.
    rewrite Hnew. vm_compute. reflexivity.
Defined.

Example session_with_defect_calls :
  FieldView.calls Samples.analyzedSystem
  = [FieldView.CallAnalyze (Some "AAAA") "Fuselage - Section 4A";
     FieldView.CallAugment (Some "AAAA") "defect: Surface Rust"].
Proof. vm_compute. reflexivity. Qed.

Lemma stored_items_status_witness :
  statusFollowsQuality Samples.savedItem /\
  (status Samples.savedItem = approved ->
   exists a, analysis Samples.savedItem = Some a /\ isQualitySufficient a = true).
Proof.
  apply (stored_items_status Samples.savedSystem Samples.savedItem).
  - apply (run_reachable Samples.sessionEvents FieldView.initialSystem).
    + apply FieldView.reachable_initial.
    + vm_compute. reflexivity.
  - apply list_elem_of_here.
Defined.

(** C8, as amended.  Calling save when the session has no analysis is
    ignored: the handler returns normally, no item is committed, and the
    view, the store, the pending requests and the call log stay as they
    were. *)
Theorem save_without_analysis_is_ignored (uuid : string) (now : Z) (sys : FieldView.System) :
  FieldView.analysis (FieldView.view sys) = None ->
  FieldView.handleSave uuid now sys = (JS.Normal tt, sys) /\
  App.capturedItems (FieldView.store (FieldView.handleSave uuid now sys).2)
    = App.capturedItems (FieldView.store sys).
Proof.
  intros Hn.
  assert (H : FieldView.handleSave uuid now sys = (JS.Normal tt, sys)).
  { unfold FieldView.handleSave. rewrite Hn.
    destruct (FieldView.capturedImage (FieldView.view sys)) as [[| c img] |]; reflexivity. }
  split; [exact H | rewrite H; reflexivity].
Qed.

Lemma save_without_analysis_is_ignored_witness :
  FieldView.handleSave "uuid-1" 1000 Samples.capturedOnly = (JS.Normal tt, Samples.capturedOnly) /\
  App.capturedItems (FieldView.store (FieldView.handleSave "uuid-1" 1000 Samples.capturedOnly).2)
    = App.capturedItems (FieldView.store Samples.capturedOnly).
Proof.
  apply (save_without_analysis_is_ignored "uuid-1" 1000 Samples.capturedOnly).
  reflexivity.
Defined.

(** C8, as stated, fails: the view shows a captured image without an
    analysis, and save returns normally instead of being rejected. *)
Lemma save_without_analysis_not_rejected :
  FieldView.analysis (FieldView.view Samples.capturedOnly) = None /\
  (FieldView.handleSave "uuid-1" 1000 Samples.capturedOnly).1 = JS.Normal tt /\
  ~ rejected (FieldView.handleSave "uuid-1" 1000 Samples.capturedOnly).1.
Proof.
  split; [reflexivity |]. split; [reflexivity |].
  intros [e He]. discriminate He.
Qed.

(** ** The chat coordinator *)







(** ** The guidance loop *)

Lemma scanTimes_app (l l' : list Guidance.Obs) :
  Guidance.scanTimes (l ++ l') = Guidance.scanTimes l ++ Guidance.scanTimes l'.
Proof.
  induction l as [| [t | t msgs] l IH]; simpl; [reflexivity | rewrite IH | rewrite IH];
    reflexivity.
Qed.

Lemma every3000_S (t0 : Z) (k : nat) :
  Guidance.every3000 t0 (S k)
    = Guidance.every3000 t0 k ++ [t0 + 3000 * (Z.of_nat k + 1)].
Proof.
  unfold Guidance.every3000. rewrite (seq_S (S k) 0), map_app. simpl.
  do 3 f_equal. lia.
Qed.

Lemma timerInv_clearInterval (st : Guidance.State) :
  timerInv st -> Guidance.timers (Guidance.clearInterval st) = [].
Proof.
  intros [_ [Ht | (id & due & Ht & Hr & _)]]; unfold Guidance.clearInterval.
  - destruct (Guidance.guidanceIntervalRef st) as [[| id] |]; simpl; rewrite ?Ht; reflexivity.
  - rewrite Hr. simpl. rewrite Ht. simpl. rewrite Nat.eqb_refl. reflexivity.
Qed.

Lemma clearInterval_fields (st : Guidance.State) :
  Guidance.clock (Guidance.clearInterval st) = Guidance.clock st /\
  Guidance.log (Guidance.clearInterval st) = Guidance.log st /\
  Guidance.nextTimerId (Guidance.clearInterval st) = Guidance.nextTimerId st /\
  Guidance.inflight (Guidance.clearInterval st) = Guidance.inflight st /\
  Guidance.guidanceMessages (Guidance.clearInterval st) = Guidance.guidanceMessages st /\
  Guidance.isGuidanceActive (Guidance.clearInterval st) = Guidance.isGuidanceActive st /\
  Guidance.captured (Guidance.clearInterval st) = Guidance.captured st /\
  Guidance.guidanceIntervalRef (Guidance.clearInterval st) = Guidance.guidanceIntervalRef st.
Proof.
  unfold Guidance.clearInterval.
  destruct (Guidance.guidanceIntervalRef st) as [[| id] |] eqn:E; simpl;
    repeat split; auto.
Qed.

Lemma clearInterval_nil (st : Guidance.State) :
  Guidance.timers st = [] -> Guidance.timers (Guidance.clearInterval st) = [].
Proof.
  intros Ht. unfold Guidance.clearInterval.
  destruct (Guidance.guidanceIntervalRef st) as [[| id] |]; simpl; rewrite ?Ht; reflexivity.
Qed.

(** What a render with new dependencies leaves: a fresh timer and a first
    scan when guidance is on and no image is captured, no timer and an
    empty hint set otherwise. *)
Lemma commit_changed (active capturedNow : bool) (st : Guidance.State) :
  timerInv st ->
  (active, capturedNow) <> (Guidance.isGuidanceActive st, Guidance.captured st) ->
  let st' := Guidance.commit active capturedNow st in
  Guidance.clock st' = Guidance.clock st /\
  Guidance.isGuidanceActive st' = active /\ Guidance.captured st' = capturedNow /\
  Guidance.inflight st' = (if active && negb capturedNow
                           then Guidance.inflight st ++ [Guidance.clock st]
                           else Guidance.inflight st) /\
  if active && negb capturedNow
  then Guidance.timers st' = [(Guidance.nextTimerId st, Guidance.clock st + 3000)] /\
       Guidance.guidanceIntervalRef st' = Some (Guidance.nextTimerId st) /\
       Guidance.nextTimerId st' = S (Guidance.nextTimerId st) /\
       Guidance.log st' = Guidance.log st ++ [Guidance.ScanIssued (Guidance.clock st)]
  else Guidance.timers st' = [] /\
       Guidance.nextTimerId st' = Guidance.nextTimerId st /\
       Guidance.log st' = Guidance.log st ++ [Guidance.Published (Guidance.clock st) []].
Proof.
  intros Hinv Hne. unfold Guidance.commit.
  destruct (bool_decide (active = Guidance.isGuidanceActive st) &&
            bool_decide (capturedNow = Guidance.captured st)) eqn:Hd.
  { apply andb_true_iff in Hd as [H1 H2].
    apply bool_decide_eq_true in H1, H2. congruence. }
  pose proof (timerInv_clearInterval st Hinv) as Hc.
  destruct (clearInterval_fields st) as (C1 & C2 & C3 & C4 & C5 & C6 & C7 & C8).
  unfold Guidance.cleanup, Guidance.effect. simpl.
  destruct (active && negb capturedNow) eqn:Hb.
  - apply andb_true_iff in Hb as [-> Hb]. apply negb_true_iff in Hb as ->.
    unfold Guidance.scanFrame. simpl. rewrite Hc, C1, C2, C3, C4. repeat split; reflexivity.
  - unfold Guidance.setGuidanceMessages.
    match goal with |- context [Guidance.clearInterval ?x] =>
      destruct (clearInterval_fields x) as (D1 & D2 & D3 & D4 & D5 & D6 & D7 & D8);
      pose proof (clearInterval_nil x) as Dn end.
    simpl in *. rewrite D1, D2, D3, D4, D6, D7, Dn by exact Hc.
    rewrite C1, C2, C3, C4. repeat split; reflexivity.
Qed.

Lemma timerInv_step (ev : Guidance.Event) (st st' : Guidance.State) :
  timerInv st -> Guidance.step ev st = Some st' -> timerInv st'.
Proof.
  intros Hinv H.
  assert (Hcommit : forall a c, timerInv (Guidance.commit a c st)).
  { intros a c.
    destruct (decide ((a, c) = (Guidance.isGuidanceActive st, Guidance.captured st))) as [E | E].
    - injection E as -> ->. unfold Guidance.commit. rewrite !bool_decide_eq_true_2 by reflexivity.
      exact Hinv.
    - pose proof (commit_changed a c st Hinv E) as (_ & Ha & Hc & _ & Hrest). cbv zeta in *.
      destruct Hinv as [Hn _]. unfold timerInv.
      destruct (a && negb c) eqn:Hb.
      + destruct Hrest as (Ht & Hr & Hn' & _). rewrite Hn'. split; [lia |]. right.
        apply andb_true_iff in Hb as [-> Hb]. apply negb_true_iff in Hb as ->.
        destruct (Guidance.nextTimerId st) as [| id]; [lia |]. eauto 10.
      + destruct Hrest as (Ht & Hn' & _). rewrite Hn'. split; [exact Hn | left; exact Ht]. }
  destruct ev as [| | | | ms | i outcome]; simpl in H.
  - destruct (Guidance.captured st); [discriminate |]. injection H as <-. apply Hcommit.
  - destruct (Guidance.captured st); [discriminate |]. injection H as <-. apply Hcommit.
  - destruct (Guidance.captured st); [| discriminate]. injection H as <-. apply Hcommit.
  - destruct Hinv as [Hn [Ht | (id & due & Ht & Hr & Ha & Hc)]]; rewrite Ht in H;
      [discriminate |].
    destruct (bool_decide (Guidance.clock st <= due)); [| discriminate]. injection H as <-.
    unfold Guidance.scanFrame. simpl. rewrite Hc. simpl. split; [exact Hn |]. right. eauto 10.
  - match type of H with (if ?b then _ else _) = _ => destruct b end; [| discriminate].
    injection H as <-. exact Hinv.
  - destruct (Guidance.inflight st !! i); [| discriminate].
    destruct outcome; injection H as <-; exact Hinv.
Qed.

Lemma timerInv_reachable (st : Guidance.State) : Guidance.reachable st -> timerInv st.
Proof.
  induction 1 as [| ev st st' _ IH Hs].
  - split; [simpl; lia | left; reflexivity].
  - eapply timerInv_step; eassumption.
Qed.

Lemma timerInv_run (evs : list Guidance.Event) (st st' : Guidance.State) :
  timerInv st -> Guidance.run evs st = Some st' -> timerInv st'.
Proof.
  revert st. induction evs as [| ev evs IH]; intros st Hinv H; simpl in H.
  - injection H as <-. exact Hinv.
  - destruct (Guidance.step ev st) as [st1 |] eqn:Hs; [| discriminate].
    apply (IH st1); [eapply timerInv_step; eassumption | exact H].
Qed.

Lemma runningInv_step (t0 : Z) (base : list Guidance.Obs) (k : nat)
    (ev : Guidance.Event) (st st' : Guidance.State) :
  runningInv t0 base k st -> Guidance.passive ev = true ->
  Guidance.step ev st = Some st' ->
  exists k', runningInv t0 base k' st'.
Proof.
  intros ((id & Ht & Hr) & Ha & Hc & Hl & Hlo & Hhi) Hp H.
  destruct ev as [| | | | ms | i outcome]; simpl in H; try discriminate Hp.
  - rewrite Ht in H.
    destruct (bool_decide (Guidance.clock st <= _)); [| discriminate]. injection H as <-.
    exists (S k). unfold runningInv, Guidance.scanFrame. rewrite Nat2Z.inj_succ.
    simpl. rewrite Hc. simpl.
    split; [exists id; split; [do 2 f_equal; lia | exact Hr] |].
    split; [exact Ha |]. split; [reflexivity |]. split.
    + rewrite scanTimes_app, Hl, every3000_S, <- app_assoc. reflexivity.
    + lia.
  - destruct (bool_decide (0 <= ms)) eqn:H0; simpl in H; [| discriminate].
    rewrite Ht in H. simpl in H.
    destruct (bool_decide (Guidance.clock st + ms <= _)) eqn:H1; simpl in H; [| discriminate].
    injection H as <-. apply bool_decide_eq_true in H0, H1.
    exists k. unfold runningInv. simpl. eauto 10 with lia.
  - destruct (Guidance.inflight st !! i); [| discriminate].
    exists k. destruct outcome; injection H as <-; unfold runningInv; simpl;
      rewrite ?scanTimes_app, ?app_nil_r; eauto 10.
Qed.

Lemma runningInv_run (t0 : Z) (base : list Guidance.Obs) (evs : list Guidance.Event)
    (k : nat) (st st' : Guidance.State) :
  runningInv t0 base k st -> Forall (fun ev => Guidance.passive ev = true) evs ->
  Guidance.run evs st = Some st' ->
  exists k', runningInv t0 base k' st'.
Proof.
  revert k st. induction evs as [| ev evs IH]; intros k st Hinv Hall H; simpl in H.
  - injection H as <-. eauto.
  - destruct (Guidance.step ev st) as [st1 |] eqn:Hs; [| discriminate].
    apply Forall_cons in Hall as [Hp Hall'].
    destruct (runningInv_step _ _ _ _ _ _ Hinv Hp Hs) as [k1 H1].
    apply (IH k1 st1); assumption.
Qed.

Lemma stoppedInv_run (times : list Z) (evs : list Guidance.Event) (st st' : Guidance.State) :
  stoppedInv times st -> Forall (fun ev => Guidance.passive ev = true) evs ->
  Guidance.run evs st = Some st' ->
  stoppedInv times st'.
Proof.
  revert st. induction evs as [| ev evs IH]; intros st [Ht Hl] Hall H; simpl in H.
  - injection H as <-. split; assumption.
  - destruct (Guidance.step ev st) as [st1 |] eqn:Hs; [| discriminate].
    apply Forall_cons in Hall as [Hp Hall'].
    apply (IH st1); [| exact Hall' | exact H].
    destruct ev as [| | | | ms | i outcome]; simpl in Hs; try discriminate Hp.
    + rewrite Ht in Hs. discriminate.
    + match type of Hs with (if ?b then _ else _) = _ => destruct b end; [| discriminate].
      injection Hs as <-. split; assumption.
    + destruct (Guidance.inflight st !! i); [| discriminate].
      destruct outcome; injection Hs as <-; unfold stoppedInv; simpl;
        rewrite ?scanTimes_app, ?app_nil_r; auto.
Qed.

(** C6, as amended.  When guidance is switched on, the first scan is issued
    at once; from then on one scan is issued every 3000 ms, none is skipped
    and none is added, until guidance is switched off or an image is
    captured.  Stopping cancels the timer: no scan is issued afterwards.
    It does not suppress late results: a scan still in flight publishes its
    hints when it settles, also after the stop. *)
Theorem guidance_schedule (st0 st1 st2 st3 st4 : Guidance.State)
    (evs evs' : list Guidance.Event) (stop : Guidance.Event) :
  Guidance.reachable st0 ->
  Guidance.isGuidanceActive st0 = false -> Guidance.captured st0 = false ->
  Guidance.step Guidance.ClickGuidance st0 = Some st1 ->
  Forall (fun ev => Guidance.passive ev = true) evs -> Guidance.run evs st1 = Some st2 ->
  Guidance.stops stop = true -> Guidance.step stop st2 = Some st3 ->
  Forall (fun ev => Guidance.passive ev = true) evs' -> Guidance.run evs' st3 = Some st4 ->
  Guidance.log st1 = Guidance.log st0 ++ [Guidance.ScanIssued (Guidance.clock st0)] /\
  (exists k,
     Guidance.scanTimes (Guidance.log st2)
       = Guidance.scanTimes (Guidance.log st0) ++ Guidance.every3000 (Guidance.clock st0) k /\
     Guidance.clock st0 + 3000 * Z.of_nat k <= Guidance.clock st2
       <= Guidance.clock st0 + 3000 * (Z.of_nat k + 1)) /\
  Guidance.timers st3 = [] /\ Guidance.timers st4 = [] /\
  Guidance.scanTimes (Guidance.log st4) = Guidance.scanTimes (Guidance.log st2) /\
  (forall i t msgs, Guidance.inflight st4 !! i = Some t ->
     exists st5,
       Guidance.step (Guidance.ScanSettles i (JS.Normal msgs)) st4 = Some st5 /\
       Guidance.guidanceMessages st5 = msgs /\
       Guidance.log st5 = Guidance.log st4 ++ [Guidance.Published (Guidance.clock st4) msgs]).
Proof.
  intros Hr Ha0 Hc0 Hstart Hall Hrun Hstop Hstep Hall' Hrun'.
  pose proof (timerInv_reachable _ Hr) as Hinv0.
  simpl in Hstart. rewrite Hc0, Ha0 in Hstart. injection Hstart as <-.
  assert (Hne : (true, false) <> (Guidance.isGuidanceActive st0, Guidance.captured st0)).
  { rewrite Ha0. congruence. }
  pose proof (commit_changed true false st0 Hinv0 Hne) as (Hck & Ha1 & Hc1 & _ & Ht1 & Hr1 & Hn1 & Hl1).
  cbv zeta in *. simpl in Ht1, Hr1, Hn1, Hl1.
  assert (Hrun0 : runningInv (Guidance.clock st0) (Guidance.log st0) 0
                    (Guidance.commit true false st0)).
  { destruct Hinv0 as [Hn _].
    destruct (Guidance.nextTimerId st0) as [| id] eqn:Hid; [lia |].
    unfold runningInv. rewrite Ht1, Hr1, Ha1, Hc1, Hl1, Hck, scanTimes_app. simpl.
    split; [exists id; split; [do 2 f_equal; lia | reflexivity] |].
    unfold Guidance.every3000. simpl. rewrite Z.add_0_r.
    repeat split; try reflexivity; lia. }
  destruct (runningInv_run _ _ _ _ _ _ Hrun0 Hall Hrun)
    as (k & (id & Ht2 & Hr2) & Ha2 & Hc2 & Hl2 & Hlo & Hhi).
  assert (Hinv2 : timerInv st2).
  { eapply timerInv_run; [| exact Hrun].
    eapply (timerInv_step Guidance.ClickGuidance st0); [exact Hinv0 |].
    simpl. rewrite Hc0, Ha0. reflexivity. }
  assert (Hs3 : stoppedInv (Guidance.scanTimes (Guidance.log st2)) st3).
  { destruct stop; simpl in Hstep; try discriminate Hstop; rewrite Hc2 in Hstep;
      injection Hstep as <-; rewrite ?Ha2; cbn [negb].
    - assert (E : (false, false) <> (Guidance.isGuidanceActive st2, Guidance.captured st2))
        by (rewrite Ha2; congruence).
      pose proof (commit_changed false false st2 Hinv2 E) as (_ & _ & _ & _ & Ht & _ & Hl).
      cbv zeta in *. simpl in Ht, Hl. split; [exact Ht |].
      rewrite Hl, scanTimes_app. simpl. apply app_nil_r.
    - assert (E : (false, true) <> (Guidance.isGuidanceActive st2, Guidance.captured st2))
        by (rewrite Ha2; congruence).
      pose proof (commit_changed false true st2 Hinv2 E) as (_ & _ & _ & _ & Ht & _ & Hl).
      cbv zeta in *. simpl in Ht, Hl. split; [exact Ht |].
      rewrite Hl, scanTimes_app. simpl. apply app_nil_r. }
  destruct (stoppedInv_run _ _ _ _ Hs3 Hall' Hrun') as [Ht4 Hl4].
  split; [exact Hl1 |]. split; [exists k; split; [exact Hl2 | lia] |].
  split; [exact (proj1 Hs3) |]. split; [exact Ht4 |]. split; [exact Hl4 |].
  intros i t msgs Hi. eexists. simpl. rewrite Hi. split; [reflexivity |].
  split; reflexivity.
Qed.

Lemma guidance_schedule_witness :
  Guidance.log Samples.guidance1
    = Guidance.log Guidance.initialState
        ++ [Guidance.ScanIssued (Guidance.clock Guidance.initialState)] /\
  (exists k,
     Guidance.scanTimes (Guidance.log Samples.guidance2)
       = Guidance.scanTimes (Guidance.log Guidance.initialState)
           ++ Guidance.every3000 (Guidance.clock Guidance.initialState) k /\
     Guidance.clock Guidance.initialState + 3000 * Z.of_nat k
       <= Guidance.clock Samples.guidance2
       <= Guidance.clock Guidance.initialState + 3000 * (Z.of_nat k + 1)) /\
  Guidance.timers Samples.guidance3 = [] /\ Guidance.timers Samples.guidance4 = [] /\
  Guidance.scanTimes (Guidance.log Samples.guidance4)
    = Guidance.scanTimes (Guidance.log Samples.guidance2) /\
  (forall i t msgs, Guidance.inflight Samples.guidance4 !! i = Some t ->
     exists st5,
       Guidance.step (Guidance.ScanSettles i (JS.Normal msgs)) Samples.guidance4 = Some st5 /\
       Guidance.guidanceMessages st5 = msgs /\
       Guidance.log st5
         = Guidance.log Samples.guidance4
             ++ [Guidance.Published (Guidance.clock Samples.guidance4) msgs]).
Proof.
  apply (guidance_schedule Guidance.initialState Samples.guidance1 Samples.guidance2
           Samples.guidance3 Samples.guidance4 Samples.guidanceOn Samples.guidanceLate
           Guidance.ClickGuidance).
  - apply Guidance.reachable_initial.
  - reflexivity.
  - reflexivity.
  - vm_compute. reflexivity.
  - repeat constructor.
  - vm_compute. reflexivity.
  - reflexivity.
  - vm_compute. reflexivity.
  - repeat constructor.
  - vm_compute. reflexivity.
Defined.

(** C6, as stated, fails: guidance is switched on at 0 ms and off at
    7000 ms; the answer to the first scan arrives at 7500 ms and is
    published, although the loop was stopped.  When guidance is switched on
    again, the stale hint is the current hint set. *)
Lemma late_result_is_published_after_stop :
  Guidance.run (Guidance.ClickGuidance :: Samples.guidanceOn ++ [Guidance.ClickGuidance])
      Guidance.initialState = Some Samples.guidance3 /\
  Guidance.isGuidanceActive Samples.guidance3 = false /\
  Guidance.timers Samples.guidance3 = [] /\
  Guidance.run Samples.guidanceLate Samples.guidance3 = Some Samples.guidance4 /\
  Guidance.log Samples.guidance4
    = Guidance.log Samples.guidance3 ++ [Guidance.Published 7500 ["Move Closer"]] /\
  Guidance.guidanceMessages Samples.guidance4 = ["Move Closer"] /\
  Guidance.scanTimes (Guidance.log Samples.guidance4) = [0; 3000; 6000] /\
  Guidance.step Guidance.ClickGuidance Samples.guidance4 = Some Samples.guidance5 /\
  Guidance.isGuidanceActive Samples.guidance5 = true /\
  Guidance.guidanceMessages Samples.guidance5 = ["Move Closer"].
Proof. repeat split; vm_compute; reflexivity. Qed.

(** ** The dataset aggregates *)

Section NumberFacts.
Local Open Scope Q_scope.

Lemma pow2_pos (e : Z) : 0 < 2 ^ e.
Proof. apply Qpower_0_lt. reflexivity. Qed.

Lemma pow2_succ (e : Z) : 2 ^ (e + 1) == 2 * 2 ^ e.
Proof. rewrite Qpower_plus by discriminate. simpl. ring. Qed.

Lemma pow2_pred (e : Z) : 2 ^ e == 2 * 2 ^ (e - 1).
Proof.
  rewrite <- pow2_succ. replace (e - 1 + 1)%Z with e by lia. reflexivity.
Qed.

Lemma pow2_inject (n : Z) : (0 <= n)%Z -> inject_Z (2 ^ n) == 2 ^ n.
Proof. intros H. rewrite Zpower_Qpower by exact H. reflexivity. Qed.

Lemma ilog2_le (x : Q) : 0 < x -> 2 ^ Number.ilog2 x <= x.
Proof.
  intros Hx. unfold Number.ilog2.
  destruct (Qle_bool (2 ^ (Z.log2 (Qnum x) - Z.log2 (Z.pos (Qden x)))) x) eqn:Hb.
  - apply Qle_bool_iff. exact Hb.
  - clear Hb. destruct x as [a b]. cbn [Qnum Qden].
    assert (Ha : (0 < a)%Z).
    { unfold Qlt in Hx. simpl in Hx. lia. }
    pose proof (Z.log2_spec a Ha) as [La _].
    pose proof (Z.log2_spec (Zpos b) (Pos2Z.is_pos b)) as [_ Lb].
    pose proof (Z.log2_nonneg a) as Na.
    pose proof (Z.log2_nonneg (Zpos b)) as Nb.
    set (la := Z.log2 a) in *. set (lb := Z.log2 (Z.pos b)) in *.
    replace (la - lb - 1)%Z with (la - (lb + 1))%Z by lia.
    rewrite Qpower_minus by discriminate.
    rewrite <- !pow2_inject by lia.
    apply Qle_shift_div_r.
    + rewrite pow2_inject by lia. apply pow2_pos.
    + unfold Qle, Qmult, inject_Z. cbn [Qnum Qden].
      replace (Z.succ lb) with (lb + 1)%Z in Lb by lia.
      assert (Hp : (0 < 2 ^ la)%Z) by (apply Z.pow_pos_nonneg; lia).
      nia.
Qed.

Lemma roundNearestEven_error (y : Q) :
  - (1 # 2) <= inject_Z (Number.roundNearestEven y) - y <= 1 # 2.
Proof.
  unfold Number.roundNearestEven.
  pose proof (Qfloor_le y) as H1. pose proof (Qlt_floor y) as H2.
  rewrite inject_Z_plus in H2. change (inject_Z 1) with 1 in H2.
  destruct (Qcompare (y - inject_Z (Qfloor y)) (1 # 2)) eqn:Hc.
  - apply Qeq_alt in Hc.
    destruct (Z.even (Qfloor y));
      [| rewrite inject_Z_plus; change (inject_Z 1) with 1]; lra.
  - apply Qlt_alt in Hc. lra.
  - apply Qgt_alt in Hc. rewrite inject_Z_plus. change (inject_Z 1) with 1. lra.
Qed.

(** Rounding to a double changes a positive value by at most one part in 2^53. *)
Lemma roundPositive_error (x : Q) :
  0 < x -> - (x / 2 ^ 53) <= Number.roundPositive x - x <= x / 2 ^ 53.
Proof.
  intros Hx. unfold Number.roundPositive.
  pose proof (ilog2_le x Hx) as Hl.
  set (e := Number.ilog2 x) in *.
  pose proof (pow2_pos (e - 52)) as Hu.
  set (u := 2 ^ (e - 52)) in *.
  pose proof (roundNearestEven_error (x / u)) as [E1 E2].
  set (m := inject_Z (Number.roundNearestEven (x / u))) in *.
  assert (Hxu : x / u * u == x) by (field; lra).
  assert (Hue : 2 ^ e == u * 2 ^ 52).
  { unfold u. rewrite <- Qpower_plus by discriminate.
    replace (e - 52 + 52)%Z with e by lia. reflexivity. }
  assert (H53 : x / 2 ^ 53 == x * (1 # 9007199254740992)) by reflexivity.
  assert (H52 : (2:Q) ^ 52 == 4503599627370496) by reflexivity.
  rewrite H53. rewrite H52 in Hue.
  assert (B1 : (m - x / u) * u <= (1 # 2) * u) by (apply Qmult_le_compat_r; lra).
  assert (B2 : (- (1 # 2)) * u <= (m - x / u) * u) by (apply Qmult_le_compat_r; lra).
  assert (B3 : (m - x / u) * u == m * u - x).
  { rewrite <- Hxu at 2. ring. }
  lra.
Qed.

Lemma roundDouble_error (x : Q) :
  0 <= x -> - (x / 2 ^ 53) <= Number.roundDouble x - x <= x / 2 ^ 53.
Proof.
  intros Hx. unfold Number.roundDouble. destruct x as [[| a | a] b]; cbn [Qnum].
  - assert (E : 0 # b == 0) by reflexivity.
    assert (E' : (0 # b) / 2 ^ 53 == 0) by reflexivity. rewrite E', E. lra.
  - apply roundPositive_error. reflexivity.
  - exfalso. unfold Qle in Hx. simpl in Hx. lia.
Qed.

(** The percentage is an integer nearest to [100 * k / n]. *)
Lemma percentageOf_nearest (k n : Z) :
  (0 <= k <= n)%Z -> (0 < n < 2 ^ 32)%Z ->
  (Z.abs (2 * (DataView.percentageOf k n * n - 100 * k)) <= n)%Z.
Proof.
  intros Hk Hn. unfold DataView.percentageOf, Number.Math_round, Number.mul, Number.div.
  set (K := inject_Z k). set (N := inject_Z n).
  assert (HN : 0 < N) by (unfold N; rewrite <- (Zlt_Qlt 0); lia).
  assert (HN' : N < 4294967296).
  { unfold N. change 4294967296 with (inject_Z (2 ^ 32)). rewrite <- Zlt_Qlt. lia. }
  assert (HK : 0 <= K) by (unfold K; rewrite <- (Zle_Qle 0); lia).
  assert (HKN : K <= N) by (unfold K, N; rewrite <- Zle_Qle; lia).
  set (x := K / N).
  assert (Hx0 : 0 <= x) by (apply Qle_shift_div_l; lra).
  assert (Hx1 : x <= 1) by (apply Qle_shift_div_r; lra).
  assert (HxN : x * N == K) by (unfold x; field; lra).
  pose proof (roundDouble_error x Hx0) as [Q1 Q2].
  set (q := Number.roundDouble x) in *.
  assert (U : forall z : Q, z / 2 ^ 53 == z * (1 # 9007199254740992)) by (intros; reflexivity).
  rewrite U in Q1, Q2.
  assert (Hy0 : 0 <= q * 100) by lra.
  pose proof (roundDouble_error (q * 100) Hy0) as [P1 P2].
  set (p := Number.roundDouble (q * 100)) in *.
  rewrite U in P1, P2.
  pose proof (Qfloor_le (p + (1 # 2))) as F1.
  pose proof (Qlt_floor (p + (1 # 2))) as F2.
  set (r := Qfloor (p + (1 # 2))) in *.
  rewrite inject_Z_plus in F2. change (inject_Z 1) with 1 in F2.
  set (R := inject_Z r) in *.
  set (eps := 3 # 100000000000000).
  assert (D1 : R - 100 * x <= (1 # 2) + eps) by (unfold eps; lra).
  assert (D2 : - ((1 # 2) + eps) <= R - 100 * x) by (unfold eps; lra).
  assert (M1 : (R - 100 * x) * N <= ((1 # 2) + eps) * N) by (apply Qmult_le_compat_r; lra).
  assert (M2 : (- ((1 # 2) + eps)) * N <= (R - 100 * x) * N) by (apply Qmult_le_compat_r; lra).
  assert (M3 : (R - 100 * x) * N == R * N - 100 * K) by (rewrite <- HxN; ring).
  rewrite M3 in M1, M2.
  assert (Z1 : 2 * (R * N - 100 * K) < N + 1) by (unfold eps in *; lra).
  assert (Z2 : - N - 1 < 2 * (R * N - 100 * K)) by (unfold eps in *; lra).
  assert (E : 2 * (R * N - 100 * K) == inject_Z (2 * (r * n - 100 * k))).
  { unfold R, N, K. unfold Z.sub.
    rewrite inject_Z_mult, inject_Z_plus, inject_Z_opp, !inject_Z_mult.
    change (inject_Z 2) with 2. change (inject_Z 100) with 100. ring. }
  rewrite E in Z1, Z2.
  assert (E1 : N + 1 == inject_Z (n + 1)) by (unfold N; rewrite inject_Z_plus; reflexivity).
  assert (E2 : - N - 1 == inject_Z (- n - 1)).
  { unfold N. unfold Z.sub. rewrite inject_Z_plus, inject_Z_opp. reflexivity. }
  rewrite E1 in Z1. rewrite E2 in Z2.
  rewrite <- Zlt_Qlt in Z1, Z2. lia.
Qed.


End NumberFacts.

Example percentage_2_of_3 : DataView.percentageOf 2 3 = 67.
Proof. vm_compute. reflexivity. Qed.

(** A tie that the doubles break downwards: 23 of 40 is 57.5 exactly, the
    product computed on doubles lies just below it. *)
Example percentage_23_of_40 : DataView.percentageOf 23 40 = 57.
Proof. vm_compute. reflexivity. Qed.

(** The rounding of [Number] is that of the machine's doubles, for every
    store of up to 100 items. *)
Example doubles_agree : Machine.agreeUpTo 100 = true.
Proof. vm_compute. reflexivity. Qed.

Lemma filter_length_bool {A} (f : A -> bool) (P : A -> Prop) `{forall x, Decision (P x)}
    (l : list A) :
  (forall x, x ∈ l -> (f x = true <-> P x)) ->
  length (List.filter f l) = length (filter P l).
Proof.
  induction l as [| x l IH]; intros Hf; [reflexivity |].
  simpl. rewrite filter_cons.
  assert (Hx : f x = true <-> P x) by (apply Hf; left).
  assert (IH' : length (List.filter f l) = length (filter P l)).
  { apply IH. intros y Hy. apply Hf. right. exact Hy. }
  destruct (f x) eqn:E; destruct (decide (P x)) as [Hp | Hp]; simpl; rewrite ?IH'; try reflexivity.
  - exfalso. apply Hp, Hx. reflexivity.
  - apply Hx in Hp. discriminate.
Qed.





(** The key under which the code counts an item is the defect type that
    the claim gives it. *)
Lemma defectKey_typeOf (item : CapturedItem) : DataView.defectKey item = typeOf item.
Proof.
  unfold DataView.defectKey, typeOf. destruct (analysis item) as [a |]; simpl; [| reflexivity].
  destruct (defectType a) as [[| c d] |]; reflexivity.
Qed.

(** The names that the model of the accumulator treats apart are among
    the inherited names. *)
Lemma inherited_cases (type : string) :
  type = "__proto__" \/ type ∈ DataView.prototypeMembers -> inheritedName type.
Proof.
  unfold inheritedName, inheritedNames. intros [-> | H]; [left | right; exact H].
Qed.



(** A name is inherited exactly when the test says so. *)
Lemma not_inherited (type : string) :
  bool_decide (type ∈ inheritedNames) = false -> ~ inheritedName type.
Proof. intros H. apply bool_decide_eq_false in H. exact H. Qed.




Example three_items_aggregates :
  DataView.totalCount Samples.threeItems = 3 /\
  DataView.pendingCount Samples.threeItems = 1 /\
  DataView.defectCounts Samples.threeItems !! "Crack" = Some (DataView.Num 2) /\
  DataView.defectCounts Samples.threeItems !! "Surface Rust" = Some (DataView.Num 1) /\
  DataView.defectCounts [Samples.bareItem] !! "Unknown" = Some (DataView.Num 1) /\
  DataView.defectCounts [Samples.untypedItem] !! "Unknown" = Some (DataView.Num 1).
Proof. repeat split; vm_compute; reflexivity. Qed.

(* ===================================================================== *)
(** * Part III: further properties of the sources                         *)
(* ===================================================================== *)

Import Props.

(** ** The dataset store *)

Lemma incrementGoal_frozen (gid : string) (l : list ProjectGoal) :
  map frozen (App.incrementGoal gid l) = map frozen l.
Proof.
  unfold App.incrementGoal. rewrite map_map. apply map_ext.
  intros g. destruct (decide (goal_id g = gid)); reflexivity.
Qed.

(** The goal that counts an item, read off the code. *)
Lemma mentionsRust_countedBy (item : CapturedItem) :
  match App.mentionsRust item with
  | JS.Normal true => countedBy item = Some "g2"
  | JS.Normal false => countedBy item = Some "g1"
  | JS.Throw _ => countedBy item = None
  end.
Proof.
  unfold App.mentionsRust, countedBy. destruct (analysis item) as [a |]; [| reflexivity].
  destruct (defectType a) as [d |]; [| reflexivity].
  destruct (JS.includes (JS.toLowerCase d) "rust"); reflexivity.
Qed.

(** X1. On every store the application can reach, the counter of the
    default goal is 12 plus the number of stored items whose analysis, if
    they have one, has a defect type that does not mention rust, and the
    counter of the rust goal is 18 plus the number of stored items whose
    defect type mentions rust.  A stored item whose analysis has no defect
    type is counted by neither goal: the commit stored it and threw before
    it raised a goal.  Every other stored item is counted by exactly one
    goal, and no count is ever lowered. *)
Theorem goal_counts_track_items (st : App.Store) :
  App.reachable st ->
  map currentCount (App.goals st)
    = [12 + countFor "g1" (App.capturedItems st); 18 + countFor "g2" (App.capturedItems st)] /\
  countFor "g1" (App.capturedItems st) + countFor "g2" (App.capturedItems st)
  + uncounted (App.capturedItems st) = Z.of_nat (length (App.capturedItems st)).
Proof.
  induction 1 as [| item st Hr [IH1 IH2]]; [split; reflexivity |].
  destruct (reachable_goals_shape st Hr) as (a & b & Hg & Ha & Hb).
  pose proof (mentionsRust_countedBy item) as Hm.
  unfold App.handleNewCapture, countFor, uncounted in *. rewrite Hg in *. simpl in IH1.
  injection IH1 as IHa IHb.
  destruct (App.mentionsRust item) as [[|] | e]; simpl;
    rewrite !filter_app, !length_app, !filter_cons, !filter_nil, Hm; simpl;
    rewrite ?Ha, ?Hb; simpl; (split; [f_equal; [| f_equal] |]); lia.
Qed.

Lemma goal_counts_track_items_witness :
  map currentCount (App.goals Samples.storeOfTwo)
    = [12 + countFor "g1" (App.capturedItems Samples.storeOfTwo);
       18 + countFor "g2" (App.capturedItems Samples.storeOfTwo)] /\
  countFor "g1" (App.capturedItems Samples.storeOfTwo)
  + countFor "g2" (App.capturedItems Samples.storeOfTwo)
  + uncounted (App.capturedItems Samples.storeOfTwo)
    = Z.of_nat (length (App.capturedItems Samples.storeOfTwo)).
Proof.
  apply (goal_counts_track_items Samples.storeOfTwo).
  apply (App.reachable_commit Samples.untypedItem
           (App.handleNewCapture Samples.rustItem App.initialStore).2).
  apply App.reachable_commit. apply App.reachable_initial.
Defined.

Example counts_of_two :
  map currentCount (App.goals Samples.storeOfTwo) = [12; 19] /\
  length (App.capturedItems Samples.storeOfTwo) = 2%nat /\
  uncounted (App.capturedItems Samples.storeOfTwo) = 1.
Proof. repeat split; vm_compute; reflexivity. Qed.

(** X2. Commits change nothing of a goal but its count: on every reachable
    store the goals are the two initial goals, in their order, with their
    ids, titles, targets, deadlines, descriptions and statuses.  The status
    of a goal is never updated, also when its count passes its target. *)
Theorem goals_keep_all_but_count (st : App.Store) :
  App.reachable st ->
  map frozen (App.goals st) = map frozen App.initialGoals /\
  map goal_status (App.goals st) = [active; at_risk].
Proof.
  intros Hr.
  assert (H : map frozen (App.goals st) = map frozen App.initialGoals).
  { induction Hr as [| item st _ IH]; [reflexivity |].
    unfold App.handleNewCapture.
    destruct (App.mentionsRust item) as [[|] | e]; simpl;
      rewrite ?incrementGoal_frozen; exact IH. }
  split; [exact H |].
  apply (f_equal (map (fun t => t.1.2))) in H. rewrite !map_map in H. exact H.
Qed.

Lemma goals_keep_all_but_count_witness :
  map frozen (App.goals (App.handleNewCapture Samples.rustItem App.initialStore).2)
    = map frozen App.initialGoals /\
  map goal_status (App.goals (App.handleNewCapture Samples.rustItem App.initialStore).2)
    = [active; at_risk].
Proof.
  apply (goals_keep_all_but_count (App.handleNewCapture Samples.rustItem App.initialStore).2).
  apply App.reachable_commit. apply App.reachable_initial.
Defined.

(** ** The capture session, continued *)

Lemma step_items (ev : FieldView.Event) (sys sys' : FieldView.System) :
  FieldView.step ev sys = Some sys' ->
  exists added,
    App.capturedItems (FieldView.store sys')
      = App.capturedItems (FieldView.store sys) ++ added /\
    length added = (if isSave ev then 1 else 0)%nat.
Proof.
  intros H.
  destruct ev as [dataUrl | | value | | i outcome | i outcome | | uuid now | ]; simpl in H.
  - destruct (negb _); [| discriminate]. injection H as <-.
    exists []. rewrite app_nil_r. split; [| reflexivity].
    unfold FieldView.handleCapture. destruct (FieldView.videoRef_current _); reflexivity.
  - destruct (negb _); [| discriminate]. injection H as <-.
    exists []. rewrite app_nil_r. split; reflexivity.
  - injection H as <-. exists []. rewrite app_nil_r. split; reflexivity.
  - match type of H with (if ?b then _ else _) = _ => destruct b end; [| discriminate].
    injection H as <-. exists []. rewrite app_nil_r. split; [| reflexivity].
    unfold FieldView.handleAnalyze.
    destruct (FieldView.capturedImage _) as [[| c img] |]; reflexivity.
  - destruct (FieldView.awaiting sys !! i) as [[b c | b c] |]; try discriminate.
    exists []. rewrite app_nil_r. split; [| reflexivity].
    destruct outcome; injection H as <-; [| reflexivity].
    unfold FieldView.handleAnalyze_resume. destruct (FieldView.wantsOverlay _); reflexivity.
  - destruct (FieldView.awaiting sys !! i) as [[b c | b c] |]; try discriminate.
    exists []. rewrite app_nil_r. split; [| reflexivity].
    destruct outcome; injection H as <-; reflexivity.
  - match type of H with (if ?b then _ else _) = _ => destruct b end; [| discriminate].
    injection H as <-. exists []. rewrite app_nil_r. split; reflexivity.
  - destruct (JS.truthy (FieldView.capturedImage (FieldView.view sys))) eqn:Ht;
      simpl in H; [| discriminate].
    destruct (bool_decide (is_Some (FieldView.analysis (FieldView.view sys)))) eqn:Hs;
      simpl in H; [| discriminate].
    injection H as <-. apply bool_decide_eq_true in Hs. destruct Hs as [a Ha].
    destruct (FieldView.capturedImage (FieldView.view sys)) as [[| c img] |] eqn:Hc;
      try discriminate.
    destruct (handleSave_commits uuid now sys c img a Hc Ha) as (item & _ & (E & _) & _).
    exists [item]. rewrite E, handleNewCapture_items. split; reflexivity.
  - match type of H with (if ?b then _ else _) = _ => destruct b end; [| discriminate].
    injection H as <-. exists []. rewrite app_nil_r. split; reflexivity.
Qed.

(** X3. The dataset is append-only: whatever the operator and the service
    do, the items stored before are still there, in their order, followed by
    one new item per save; nothing else adds an item, and nothing removes or
    reorders one. *)
Theorem dataset_is_append_only (evs : list FieldView.Event) (sys sys' : FieldView.System) :
  FieldView.run evs sys = Some sys' ->
  exists added,
    App.capturedItems (FieldView.store sys')
      = App.capturedItems (FieldView.store sys) ++ added /\
    length added = length (List.filter isSave evs).
Proof.
  revert sys. induction evs as [| ev evs IH]; intros sys H; simpl in H.
  - injection H as <-. exists []. rewrite app_nil_r. split; reflexivity.
  - destruct (FieldView.step ev sys) as [sys1 |] eqn:Hs; [| discriminate].
    destruct (step_items _ _ _ Hs) as (a1 & E1 & L1).
    destruct (IH _ H) as (a2 & E2 & L2).
    exists (a1 ++ a2). rewrite E2, E1, <- app_assoc. split; [reflexivity |].
    rewrite length_app, L1, L2. simpl. destruct (isSave ev); reflexivity.
Qed.

Lemma dataset_is_append_only_witness :
  exists added,
    App.capturedItems (FieldView.store Samples.savedSystem)
      = App.capturedItems (FieldView.store FieldView.initialSystem) ++ added /\
    length added = length (List.filter isSave Samples.sessionEvents).
Proof.
  apply (dataset_is_append_only Samples.sessionEvents FieldView.initialSystem
           Samples.savedSystem).
  vm_compute. reflexivity.
Defined.

Lemma cutAtComma_none (s : string) :
  noComma s = true -> FieldView.cutAtComma s = (s, None).
Proof.
  induction s as [| c s IH]; simpl; [reflexivity |].
  intros H. apply andb_true_iff in H as [Hc Hs].
  apply negb_true_iff, bool_decide_eq_false in Hc.
  destruct (decide (c = ","%char)); [contradiction |].
  rewrite (IH Hs). reflexivity.
Qed.

Lemma cutAtComma_some (pre rest : string) :
  noComma pre = true ->
  FieldView.cutAtComma (pre +:+ String "," rest) = (pre, Some rest).
Proof.
  induction pre as [| c pre IH]; intros H.
  - reflexivity.
  - simpl in H. apply andb_true_iff in H as [Hc Hs].
    apply negb_true_iff, bool_decide_eq_false in Hc.
    rewrite append_String. simpl.
    destruct (decide (c = ","%char)); [contradiction |].
    rewrite (IH Hs). reflexivity.
Qed.

(** X4. [s.split(',')[1]], by which the handlers take the base64 payload
    out of a data URL: for a text without a comma the result is
    [undefined]; for [pre,payload] it is [payload]; and what follows a
    second comma is dropped.  It is [undefined] only for a text without a
    comma. *)
Theorem split_comma_payload (pre payload : string) :
  noComma pre = true -> noComma payload = true ->
  FieldView.splitComma1 pre = None /\
  FieldView.splitComma1 (pre +:+ String "," payload) = Some payload /\
  (forall rest,
     FieldView.splitComma1 (pre +:+ String "," (payload +:+ String "," rest)) = Some payload) /\
  (forall s, FieldView.splitComma1 s = None <-> noComma s = true).
Proof.
  intros Hp Hq. unfold FieldView.splitComma1.
  split; [rewrite (cutAtComma_none pre Hp); reflexivity |].
  split; [rewrite (cutAtComma_some pre payload Hp), (cutAtComma_none payload Hq); reflexivity |].
  split.
  - intros rest.
    rewrite (cutAtComma_some pre _ Hp), (cutAtComma_some payload rest Hq). reflexivity.
  - intros s. destruct (FieldView.cutAtComma s) as [h [t |]] eqn:E.
    + split; [discriminate |]. intros Hn. rewrite (cutAtComma_none s Hn) in E. discriminate.
    + split; [intros _ | reflexivity].
      destruct (noComma s) eqn:Hn; [reflexivity |].
      exfalso. clear Hp Hq. revert h E Hn.
      induction s as [| c s IH]; intros h E Hn; simpl in *; [discriminate |].
      destruct (decide (c = ","%char)) as [-> | Hne]; [discriminate |].
      destruct (FieldView.cutAtComma s) as [h' [t |]] eqn:E'; [discriminate |].
      rewrite bool_decide_eq_false_2 in Hn by exact Hne. simpl in Hn.
      apply (IH h' eq_refl Hn).
Qed.

Lemma split_comma_payload_witness :
  FieldView.splitComma1 "data:image/jpeg;base64" = None /\
  FieldView.splitComma1 ("data:image/jpeg;base64" +:+ String "," "AAAA") = Some "AAAA" /\
  (forall rest,
     FieldView.splitComma1
       ("data:image/jpeg;base64" +:+ String "," ("AAAA" +:+ String "," rest)) = Some "AAAA") /\
  (forall s, FieldView.splitComma1 s = None <-> noComma s = true).
Proof.
  apply (split_comma_payload "data:image/jpeg;base64" "AAAA"); reflexivity.
Defined.

(** ** The hotspots and the part list *)

Lemma bump_fold {A} (key : A -> string) (items : list A) (acc : gmap string Z) (k : string) :
  default 0 (foldl (fun acc i => CoverageVisualization.bump (key i) acc) acc items !! k)
    = default 0 (acc !! k) + Z.of_nat (length (filter (fun i => key i = k) items)).
Proof.
  revert acc. induction items as [| item items IH]; intros acc; simpl.
  - lia.
  - rewrite IH, filter_cons. unfold CoverageVisualization.bump.
    destruct (decide (key item = k)) as [-> | Hne].
    + rewrite lookup_insert_eq. simpl. lia.
    + rewrite lookup_insert_ne by exact Hne. lia.
Qed.

Lemma componentOf_part (context : string) : FieldView.componentOf context ∈ partNames.
Proof.
  unfold FieldView.componentOf, partNames.
  destruct (JS.includes context "Tail"); [set_solver |].
  destruct (JS.includes context "Engine"); [set_solver |].
  destruct (JS.includes context "Wing"); set_solver.
Qed.

(** Every stored item is filed under one of the four part names. *)
Lemma step_parts (ev : FieldView.Event) (sys sys' : FieldView.System) :
  FieldView.step ev sys = Some sys' ->
  FieldView.store sys' = FieldView.store sys \/
  exists item, component (metadata item) ∈ partNames /\
    FieldView.store sys' = (App.handleNewCapture item (FieldView.store sys)).2.
Proof.
  intros H.
  destruct ev as [dataUrl | | value | | i outcome | i outcome | | uuid now | ]; simpl in H.
  - destruct (negb _); [| discriminate]. injection H as <-.
    left. unfold FieldView.handleCapture. destruct (FieldView.videoRef_current _); reflexivity.
  - destruct (negb _); [| discriminate]. injection H as <-. left. reflexivity.
  - injection H as <-. left. reflexivity.
  - match type of H with (if ?b then _ else _) = _ => destruct b end; [| discriminate].
    injection H as <-. left. unfold FieldView.handleAnalyze.
    destruct (FieldView.capturedImage _) as [[| c img] |]; reflexivity.
  - destruct (FieldView.awaiting sys !! i) as [[b c | b c] |]; try discriminate.
    left. destruct outcome; injection H as <-; [| reflexivity].
    unfold FieldView.handleAnalyze_resume. destruct (FieldView.wantsOverlay _); reflexivity.
  - destruct (FieldView.awaiting sys !! i) as [[b c | b c] |]; try discriminate.
    left. destruct outcome; injection H as <-; reflexivity.
  - match type of H with (if ?b then _ else _) = _ => destruct b end; [| discriminate].
    injection H as <-. left. reflexivity.
  - destruct (JS.truthy (FieldView.capturedImage (FieldView.view sys))) eqn:Ht;
      simpl in H; [| discriminate].
    destruct (bool_decide (is_Some (FieldView.analysis (FieldView.view sys)))) eqn:Hs;
      simpl in H; [| discriminate].
    injection H as <-. apply bool_decide_eq_true in Hs. destruct Hs as [a Ha].
    destruct (FieldView.capturedImage (FieldView.view sys)) as [[| c img] |] eqn:Hc;
      try discriminate.
    destruct (handleSave_commits uuid now sys c img a Hc Ha)
      as (item & (_ & _ & _ & _ & _ & Hcomp) & (E & _) & _).
    right. exists item. split; [| exact E].
    rewrite Hcomp. apply componentOf_part.
  - match type of H with (if ?b then _ else _) = _ => destruct b end; [| discriminate].
    injection H as <-. left. reflexivity.
Qed.

Lemma stored_items_parts (sys : FieldView.System) :
  FieldView.reachable sys ->
  Forall (fun i => component (metadata i) ∈ partNames)
         (App.capturedItems (FieldView.store sys)).
Proof.
  induction 1 as [| ev sys sys' _ IH Hs]; [constructor |].
  destruct (step_parts _ _ _ Hs) as [-> | (item & Hi & ->)]; [exact IH |].
  rewrite handleNewCapture_items. apply Forall_app. split; [exact IH |].
  constructor; [exact Hi | constructor].
Qed.

Lemma itemCounts_parts (items : list CapturedItem) (acc : gmap string Z) :
  Forall (fun i => component (metadata i) ∈ partNames) items ->
  foldl (fun counts item =>
           let comp := component (metadata item) in
           if JS.includes comp "Wing" then CoverageVisualization.bump "Wing" counts
           else if JS.includes comp "Fuselage" then CoverageVisualization.bump "Fuselage" counts
           else if JS.includes comp "Engine" then CoverageVisualization.bump "Engine" counts
           else if JS.includes comp "Tail" then CoverageVisualization.bump "Tail" counts
           else counts) acc items
  = foldl (fun acc i => CoverageVisualization.bump (component (metadata i)) acc) acc items.
Proof.
  intros H. revert acc. induction H as [| item items Hi _ IH]; intros acc; [reflexivity |].
  simpl. rewrite <- IH. f_equal.
  unfold partNames in Hi. rewrite !elem_of_cons in Hi.
  destruct Hi as [-> | [-> | [-> | [-> | Hi]]]]; try reflexivity.
  apply elem_of_nil in Hi. contradiction.
Qed.

Lemma ofPart_parts (part : string) (items : list CapturedItem) :
  part ∈ partNames ->
  Forall (fun i => component (metadata i) ∈ partNames) items ->
  Z.of_nat (length (DataView.ofPart part items)) = countOfPart part items.
Proof.
  intros Hp H. unfold DataView.ofPart, countOfPart. f_equal.
  apply filter_length_bool. intros i Hi.
  rewrite Forall_forall in H. specialize (H i Hi).
  unfold partNames in *. rewrite !elem_of_cons in *.
  destruct Hp as [-> | [-> | [-> | [-> | Hp]]]]; [| | | | apply elem_of_nil in Hp; contradiction];
    (destruct H as [-> | [-> | [-> | [-> | H]]]];
     [| | | | apply elem_of_nil in H; contradiction]);
    (split; [intros E; vm_compute in E; congruence | intros E; vm_compute; congruence]).
Qed.

Lemma countOfPart_total (items : list CapturedItem) :
  Forall (fun i => component (metadata i) ∈ partNames) items ->
  countOfPart "Fuselage" items + countOfPart "Wing" items
  + countOfPart "Engine" items + countOfPart "Tail" items = Z.of_nat (length items).
Proof.
  unfold countOfPart. induction 1 as [| item items Hi _ IH]; [reflexivity |].
  rewrite !filter_cons. simpl length. rewrite Nat2Z.inj_succ.
  unfold partNames in Hi. rewrite !elem_of_cons in Hi.
  destruct Hi as [E | [E | [E | [E | Hi]]]];
    [| | | | apply elem_of_nil in Hi; contradiction];
    rewrite E;
    repeat match goal with
           | |- context [decide (?a = ?b)] =>
               destruct (decide (a = b)); [try discriminate | try congruence]
           end;
    simpl length; lia.
Qed.

(** X5. In every dataset that capture sessions can build, each item is
    filed under exactly one of Fuselage, Wing, Engine and Tail, so the count
    at a hotspot of the 3D view is the number of items of that part, it is
    the count that the part list shows beside the same name, and the four
    counts add up to the number of stored items. *)
Theorem hotspot_counts (sys : FieldView.System) :
  FieldView.reachable sys ->
  let items := App.capturedItems (FieldView.store sys) in
  (forall part, part ∈ partNames ->
     CoverageVisualization.hotspotCount part items = countOfPart part items /\
     Z.of_nat (length (DataView.ofPart part items)) = countOfPart part items) /\
  CoverageVisualization.hotspotCount "Fuselage" items
  + CoverageVisualization.hotspotCount "Wing" items
  + CoverageVisualization.hotspotCount "Engine" items
  + CoverageVisualization.hotspotCount "Tail" items = Z.of_nat (length items).
Proof.
  intros Hr items. pose proof (stored_items_parts sys Hr) as Hp. fold items in Hp.
  assert (Hc : forall part,
             CoverageVisualization.hotspotCount part items = countOfPart part items).
  { intros part. unfold CoverageVisualization.hotspotCount, CoverageVisualization.itemCounts.
    rewrite (itemCounts_parts items ∅ Hp), bump_fold, lookup_empty. reflexivity. }
  split.
  - intros part Hpart. split; [apply Hc | apply ofPart_parts; assumption].
  - rewrite !Hc. apply countOfPart_total. exact Hp.
Qed.

Lemma hotspot_counts_witness :
  let items := App.capturedItems (FieldView.store Samples.savedSystem) in
  (forall part, part ∈ partNames ->
     CoverageVisualization.hotspotCount part items = countOfPart part items /\
     Z.of_nat (length (DataView.ofPart part items)) = countOfPart part items) /\
  CoverageVisualization.hotspotCount "Fuselage" items
  + CoverageVisualization.hotspotCount "Wing" items
  + CoverageVisualization.hotspotCount "Engine" items
  + CoverageVisualization.hotspotCount "Tail" items = Z.of_nat (length items).
Proof.
  apply (hotspot_counts Samples.savedSystem).
  apply (run_reachable Samples.sessionEvents FieldView.initialSystem);
    [apply FieldView.reachable_initial | vm_compute; reflexivity].
Defined.

(** ** The histogram of defect types *)

Lemma sumValues_perm (l l' : list (string * Z)) :
  l ≡ₚ l' -> sumValues l = sumValues l'.
Proof.
  unfold sumValues. induction 1; simpl; lia.
Qed.

Lemma sumValues_bump (k : string) (m : gmap string Z) :
  sumValues (map_to_list (CoverageVisualization.bump k m)) = sumValues (map_to_list m) + 1.
Proof.
  unfold CoverageVisualization.bump. destruct (m !! k) as [v |] eqn:E; simpl.
  - rewrite <- (insert_delete_eq m), (sumValues_perm _ ((k, v + 1) :: map_to_list (delete k m)))
      by (apply map_to_list_insert, lookup_delete_eq).
    rewrite (sumValues_perm (map_to_list m) ((k, v) :: map_to_list (delete k m)))
      by (symmetry; apply map_to_list_delete; exact E).
    simpl. lia.
  - rewrite (sumValues_perm _ ((k, 1) :: map_to_list m)) by (apply map_to_list_insert; exact E).
    simpl. lia.
Qed.

Lemma sumValues_fold {A} (key : A -> string) (items : list A) (acc : gmap string Z) :
  sumValues (map_to_list (foldl (fun acc i => CoverageVisualization.bump (key i) acc) acc items))
    = sumValues (map_to_list acc) + Z.of_nat (length items).
Proof.
  revert acc. induction items as [| item items IH]; intros acc.
  - simpl. lia.
  - simpl foldl. rewrite IH, sumValues_bump. simpl length. lia.
Qed.

(** What a map of counts holds after folding [items] into it. *)
Lemma bump_fold_lookup {A} (key : A -> string) (items : list A) (acc : gmap string Z)
    (k : string) :
  foldl (fun acc i => CoverageVisualization.bump (key i) acc) acc items !! k
    = if decide (length (filter (fun i => key i = k) items) = 0%nat) then acc !! k
      else Some (default 0 (acc !! k) + Z.of_nat (length (filter (fun i => key i = k) items))).
Proof.
  revert acc. induction items as [| item items IH]; intros acc; [reflexivity |].
  simpl foldl. rewrite IH, filter_cons. unfold CoverageVisualization.bump.
  destruct (decide (key item = k)) as [-> | Hne].
  - rewrite lookup_insert_eq. simpl length.
    destruct (decide (S _ = 0%nat)) as [E' | _]; [discriminate |].
    destruct (decide (length (filter _ items) = 0%nat)) as [E | E];
      [rewrite E |]; simpl; f_equal; lia.
  - rewrite lookup_insert_ne by exact Hne. reflexivity.
Qed.

(** On items whose types are not inherited names, the accumulator of the
    code holds plain counts. *)
Lemma defectCounts_plain (items : list CapturedItem) (acc : gmap string Z) :
  Forall (fun i => ~ inheritedName (typeOf i)) items ->
  foldl DataView.count (DataView.Num <$> acc) items
    = DataView.Num <$> foldl (fun acc i => CoverageVisualization.bump (typeOf i) acc) acc items.
Proof.
  intros H. revert acc. induction H as [| item items Hi _ IH]; intros acc; [reflexivity |].
  simpl foldl. rewrite <- IH. f_equal.
  unfold DataView.count, CoverageVisualization.bump. rewrite defectKey_typeOf.
  rewrite bool_decide_eq_false_2
    by (intros E; apply Hi, inherited_cases; left; exact E).
  rewrite fmap_insert. f_equal. unfold DataView.get. rewrite lookup_fmap.
  destruct (acc !! typeOf item) as [n |]; simpl; [reflexivity |].
  rewrite bool_decide_eq_false_2
    by (intros E; apply Hi, inherited_cases; right; exact E).
  reflexivity.
Qed.

(** X6. When no stored item has a defect type that is a name inherited from
    [Object.prototype], the bars of the defect chart partition the dataset:
    every bar is a number; bar names are distinct; each bar holds the
    number of items of its type, which is at least one; every stored item
    falls under the bar of its type, which is "Unknown" when the item has
    no analysis or its analysis has no defect type or an empty one; and the
    bars add up to the number of items. *)
Theorem chart_bars_partition_items (items : list CapturedItem) :
  Forall (fun i => ~ inheritedName (typeOf i)) items ->
  exists bars : list (string * Z),
    DataView.chartData items = (fun bar => (bar.1, DataView.Num bar.2)) <$> bars /\
    NoDup bars.*1 /\
    (forall name value, (name, value) ∈ bars ->
       value = countOfType name items /\ 1 <= value) /\
    (forall item, item ∈ items -> typeOf item ∈ bars.*1) /\
    sumValues bars = Z.of_nat (length items).
Proof.
  intros Hplain.
  set (m := foldl (fun acc i => CoverageVisualization.bump (typeOf i) acc) ∅ items).
  assert (Hm : forall k, m !! k = if decide (length (filter (fun i => typeOf i = k) items) = 0%nat)
                                  then None
                                  else Some (countOfType k items)).
  { intros k. unfold m. rewrite bump_fold_lookup, lookup_empty. reflexivity. }
  exists (map_to_list m). split; [| split; [| split; [| split]]].
  - unfold DataView.chartData, DataView.defectCounts.
    rewrite <- (fmap_empty DataView.Num), (defectCounts_plain items ∅ Hplain).
    fold m. rewrite map_to_list_fmap. apply list_fmap_ext. intros _ [k v] _. reflexivity.
  - apply NoDup_fst_map_to_list.
  - intros name value H. apply elem_of_map_to_list in H. rewrite Hm in H.
    destruct (decide _) as [E | E]; [discriminate |]. injection H as <-.
    split; [reflexivity |]. unfold countOfType. lia.
  - intros item Hi. apply list_elem_of_fmap.
    exists (typeOf item, countOfType (typeOf item) items). split; [reflexivity |].
    apply elem_of_map_to_list. rewrite Hm.
    destruct (decide _) as [E | E]; [| reflexivity].
    exfalso.
    assert (Hin : item ∈ filter (fun i => typeOf i = typeOf item) items).
    { apply list_elem_of_filter. split; [reflexivity | exact Hi]. }
    destruct (filter _ items); [apply elem_of_nil in Hin; exact Hin | discriminate].
  - unfold m. rewrite sumValues_fold, map_to_list_empty. reflexivity.
Qed.

Lemma chart_bars_partition_items_witness :
  exists bars : list (string * Z),
    DataView.chartData Samples.threeItems = (fun bar => (bar.1, DataView.Num bar.2)) <$> bars /\
    NoDup bars.*1 /\
    (forall name value, (name, value) ∈ bars ->
       value = countOfType name Samples.threeItems /\ 1 <= value) /\
    (forall item, item ∈ Samples.threeItems -> typeOf item ∈ bars.*1) /\
    sumValues bars = Z.of_nat (length Samples.threeItems).
Proof.
  apply (chart_bars_partition_items Samples.threeItems).
  repeat constructor; apply not_inherited; reflexivity.
Defined.

(** ** Percentages on the dashboard *)

Section PercentageFacts.
Local Open Scope Q_scope.

(** The percentage of a count that is not negative, and of a count that
    has reached its total. *)
Lemma percentageOf_lower (k n : Z) :
  (0 <= k)%Z -> (0 < n)%Z ->
  (0 <= DataView.percentageOf k n)%Z /\ ((n <= k)%Z -> (100 <= DataView.percentageOf k n)%Z).
Proof.
  intros Hk Hn. unfold DataView.percentageOf, Number.Math_round, Number.mul, Number.div.
  set (K := inject_Z k). set (N := inject_Z n).
  assert (HN : 0 < N) by (unfold N; rewrite <- (Zlt_Qlt 0); lia).
  assert (HK : 0 <= K) by (unfold K; rewrite <- (Zle_Qle 0); lia).
  set (x := K / N).
  assert (Hx0 : 0 <= x) by (apply Qle_shift_div_l; lra).
  pose proof (roundDouble_error x Hx0) as [Q1 Q2].
  set (q := Number.roundDouble x) in *.
  assert (U : forall z : Q, z / 2 ^ 53 == z * (1 # 9007199254740992)) by (intros; reflexivity).
  rewrite U in Q1, Q2.
  assert (Hy0 : 0 <= q * 100) by lra.
  pose proof (roundDouble_error (q * 100) Hy0) as [P1 P2].
  set (p := Number.roundDouble (q * 100)) in *.
  rewrite U in P1, P2.
  split.
  - change 0%Z with (Qfloor 0). apply Qfloor_resp_le. lra.
  - intros Hnk.
    assert (HKN : N <= K) by (unfold K, N; rewrite <- Zle_Qle; lia).
    assert (Hx1 : 1 <= x) by (apply Qle_shift_div_l; lra).
    change 100%Z with (Qfloor 100). apply Qfloor_resp_le. lra.
Qed.

End PercentageFacts.

(** X7. The progress bar of a goal with a positive target never leaves the
    range 0 to 100: it is 100 as soon as the count has reached the target,
    however far the count goes beyond it, and below the target it is an
    integer nearest to the exact percentage. *)
Theorem goal_progress_is_capped (goal : ProjectGoal) :
  0 < targetCount goal < 2 ^ 32 -> 0 <= currentCount goal ->
  0 <= DataView.goalProgress goal <= 100 /\
  (targetCount goal <= currentCount goal -> DataView.goalProgress goal = 100) /\
  (currentCount goal <= targetCount goal ->
     nearestInteger (DataView.goalProgress goal) (100 * currentCount goal) (targetCount goal)).
Proof.
  intros Ht Hc. unfold DataView.goalProgress.
  destruct (percentageOf_lower (currentCount goal) (targetCount goal) Hc (proj1 Ht))
    as [H0 H100].
  split; [lia |]. split.
  - intros Hge. specialize (H100 Hge). lia.
  - intros Hle.
    pose proof (percentageOf_nearest (currentCount goal) (targetCount goal)
                  (conj Hc Hle) Ht) as Hn.
    assert (DataView.percentageOf (currentCount goal) (targetCount goal) <= 100) by nia.
    rewrite Z.min_r by assumption. exact Hn.
Qed.

Lemma goal_progress_is_capped_witness :
  0 <= DataView.goalProgress Samples.rustGoalPastTarget <= 100 /\
  DataView.goalProgress Samples.rustGoalPastTarget = 100.
Proof.
  destruct (goal_progress_is_capped Samples.rustGoalPastTarget)
    as (Hb & Hfull & _); [simpl; lia | simpl; lia |].
  split; [exact Hb | apply Hfull; simpl; lia].
Defined.

(** X8. The quality percentage of the data view is a whole number from 0
    to 100 for every dataset of fewer than 2^32 items; it is 0 when no item
    passes the quality check and 100 when every item does, so the share
    shown as poor, 100 minus it, is never negative. *)
Theorem quality_percentage_in_range (items : list CapturedItem) :
  Z.of_nat (length items) < 2 ^ 32 ->
  0 <= DataView.qualityPercentage items <= 100 /\
  (List.filter DataView.passesQuality items = [] -> DataView.qualityPercentage items = 0) /\
  (items <> [] -> List.filter DataView.passesQuality items = items ->
     DataView.qualityPercentage items = 100).
Proof.
  intros Hlen. unfold DataView.qualityPercentage.
  destruct (0 <? Z.of_nat (length items)) eqn:E.
  - apply Z.ltb_lt in E.
    assert (Hk : 0 <= Z.of_nat (length (List.filter DataView.passesQuality items))
                 <= Z.of_nat (length items)).
    { split; [lia |]. apply inj_le, List.filter_length_le. }
    pose proof (percentageOf_nearest _ _ Hk (conj E Hlen)) as Hn.
    split; [nia |]. split.
    + intros Hnone. rewrite Hnone in *. simpl length in *. nia.
    + intros _ Hall. rewrite Hall in *. nia.
  - apply Z.ltb_ge in E. split; [lia |]. split; [reflexivity |].
    intros Hne _. destruct items; [contradiction | simpl in E; lia].
Qed.

Lemma quality_percentage_in_range_witness :
  0 <= DataView.qualityPercentage Samples.threeItems <= 100.
Proof.
  apply (quality_percentage_in_range Samples.threeItems). vm_compute. reflexivity.
Defined.

(** ** The item that a generated video shows *)

Lemma find_first {A} (p : A -> bool) (l : list A) (x : A) :
  List.find p l = Some x ->
  p x = true /\
  exists before after, l = before ++ x :: after /\ Forall (fun i => p i = false) before.
Proof.
  induction l as [| y l IH]; simpl; [discriminate |].
  destruct (p y) eqn:E.
  - intros [= ->]. split; [exact E |]. exists [], l. split; [reflexivity | constructor].
  - intros H. destruct (IH H) as (Hx & b & a & -> & Hb).
    split; [exact Hx |]. exists (y :: b), a. split; [reflexivity |].
    constructor; assumption.
Qed.

Lemma find_none_all {A} (p : A -> bool) (l : list A) :
  List.find p l = None <-> Forall (fun i => p i = false) l.
Proof.
  induction l as [| y l IH]; simpl.
  - split; [constructor | reflexivity].
  - destruct (p y) eqn:E.
    + split; [discriminate |]. intros H. apply Forall_cons in H as [H _]. congruence.
    + rewrite IH. split; [intros; constructor; assumption |].
      intros H. apply Forall_cons in H as [_ H]. exact H.
Qed.

Lemma last_filter {A} (p : A -> bool) (l : list A) (x : A) :
  last (List.filter p l) = Some x ->
  p x = true /\
  exists before after, l = before ++ x :: after /\ List.filter p after = [].
Proof.
  induction l as [| y l IH] using rev_ind; [discriminate |].
  rewrite List.filter_app. simpl. destruct (p y) eqn:E.
  - rewrite last_snoc. intros [= ->]. split; [exact E |]. exists l, []. split; reflexivity.
  - rewrite app_nil_r. intros H. destruct (IH H) as (Hx & b & a & -> & Ha).
    split; [exact Hx |]. exists b, (a ++ [y]). rewrite <- app_assoc. split; [reflexivity |].
    rewrite List.filter_app, Ha. simpl. rewrite E. reflexivity.
Qed.

Lemma last_is_Some {A} (l : list A) : l <> [] -> exists x, last l = Some x /\ x ∈ l.
Proof.
  destruct l as [| y l] using rev_ind; [contradiction |].
  intros _. exists y. rewrite last_snoc. split; [reflexivity | set_solver].
Qed.

(** X9. The dashboard video of a dataset that is not empty shows an item of
    the dataset: the first item of severity Critical when there is one,
    else the first item of severity High, else the item stored last. *)
Theorem dashboard_video_item (items : list CapturedItem) :
  items <> [] ->
  exists item,
    DataView.criticalItem items = Some item /\ item ∈ items /\
    (Exists (fun i => DataView.isCritical i = true) items ->
       DataView.isCritical item = true /\
       exists before after, items = before ++ item :: after /\
         Forall (fun i => DataView.isCritical i = false) before) /\
    (Forall (fun i => DataView.isCritical i = false) items ->
     Exists (fun i => DataView.isHigh i = true) items ->
       DataView.isHigh item = true /\
       exists before after, items = before ++ item :: after /\
         Forall (fun i => DataView.isHigh i = false) before) /\
    (Forall (fun i => DataView.isCritical i = false) items ->
     Forall (fun i => DataView.isHigh i = false) items ->
       last items = Some item).
Proof.
  intros Hne. unfold DataView.criticalItem.
  destruct (List.find DataView.isCritical items) as [c |] eqn:Ec.
  - destruct (find_first _ _ _ Ec) as (Hc & b & a & E & Hb).
    exists c. simpl. split; [reflexivity |]. split; [rewrite E; set_solver |].
    split; [intros _; split; [exact Hc | exists b, a; split; assumption] |].
    assert (Hno : ~ Forall (fun i => DataView.isCritical i = false) items).
    { intros H. rewrite E in H. apply Forall_app in H as [_ H].
      apply Forall_cons in H as [H _]. congruence. }
    split; intros H; contradiction.
  - apply find_none_all in Ec.
    assert (Hno : ~ Exists (fun i => DataView.isCritical i = true) items).
    { intros H. apply Exists_exists in H as (i & Hi & Ht).
      rewrite Forall_forall in Ec. specialize (Ec i Hi). congruence. }
    destruct (List.find DataView.isHigh items) as [h |] eqn:Eh.
    + destruct (find_first _ _ _ Eh) as (Hh & b & a & E & Hb).
      exists h. simpl. split; [reflexivity |]. split; [rewrite E; set_solver |].
      split; [intros H; contradiction |].
      split; [intros _ _; split; [exact Hh | exists b, a; split; assumption] |].
      intros _ H. rewrite E in H. apply Forall_app in H as [_ H].
      apply Forall_cons in H as [H _]. congruence.
    + apply find_none_all in Eh.
      destruct (last_is_Some items Hne) as (x & Hx & Hin).
      exists x. simpl. split; [exact Hx |]. split; [exact Hin |].
      split; [intros H; contradiction |].
      split; [| intros _ _; exact Hx].
      intros _ H. apply Exists_exists in H as (i & Hi & Ht).
      rewrite Forall_forall in Eh. specialize (Eh i Hi). congruence.
Qed.

Lemma dashboard_video_item_witness :
  exists item,
    DataView.criticalItem Samples.threeItems = Some item /\ item ∈ Samples.threeItems.
Proof.
  destruct (dashboard_video_item Samples.threeItems) as (item & H1 & H2 & _);
    [discriminate |].
  exists item. split; assumption.
Defined.

(** X10. The flyover video of a dataset that is not empty shows an item of
    the dataset: the item stored last among those whose component name
    includes the selected part, and, when no part is selected or no item is
    of the selected part, the item stored last of all, whatever its part. *)
Theorem flyover_video_item (selectedPart : option string) (items : list CapturedItem) :
  items <> [] ->
  exists item,
    DataView.targetItem selectedPart items = Some item /\ item ∈ items /\
    (forall part, selectedPart = Some part -> part <> EmptyString ->
       DataView.ofPart part items <> [] ->
       JS.includes (component (metadata item)) part = true /\
       exists before after, items = before ++ item :: after /\
         DataView.ofPart part after = []) /\
    (JS.truthy selectedPart = false \/
     (exists part, selectedPart = Some part /\ DataView.ofPart part items = []) ->
       last items = Some item).
Proof.
  intros Hne. destruct (last_is_Some items Hne) as (z & Hz & Hzin).
  unfold DataView.targetItem.
  destruct selectedPart as [[| c part] |].
  - exists z. destruct items; [contradiction |]. simpl length. simpl Nat.ltb. cbv iota.
    split; [exact Hz |]. split; [exact Hzin |].
    split; [intros part [= <-] H; contradiction | intros _; exact Hz].
  - destruct (DataView.ofPart (String c part) items) as [| y rel] eqn:E.
    + exists z. simpl. split; [exact Hz |]. split; [exact Hzin |].
      split; [| intros _; exact Hz].
      intros p [= <-] _ H. rewrite E in H. contradiction.
    + destruct (last_is_Some (y :: rel)) as (x & Hx & _); [discriminate |].
      exists x. simpl length. simpl Nat.ltb. cbv iota. split; [exact Hx |].
      rewrite <- E in Hx. unfold DataView.ofPart in Hx.
      destruct (last_filter _ _ _ Hx) as (Hp & b & a & Eb & Ha).
      split; [rewrite Eb; apply elem_of_app; right; left |]. split.
      * intros p [= <-] _ _. split; [exact Hp |]. exists b, a. split; assumption.
      * intros [Ht | (p & [= <-] & Hp')]; [discriminate | rewrite E in Hp'; discriminate].
  - exists z. destruct items; [contradiction |]. simpl length. simpl Nat.ltb. cbv iota.
    split; [exact Hz |]. split; [exact Hzin |].
    split; [intros part [=] | intros _; exact Hz].
Qed.

Lemma flyover_video_item_witness :
  exists item,
    DataView.targetItem (Some "Tail") Samples.threeItems = Some item /\
    item ∈ Samples.threeItems.
Proof.
  destruct (flyover_video_item (Some "Tail") Samples.threeItems) as (item & H1 & H2 & _);
    [discriminate |].
  exists item. split; assumption.
Defined.

(** ** The service adapters *)



(** ** The video poller, continued *)

Lemma totalWait_app (t1 t2 : list Effect) : totalWait (t1 ++ t2) = totalWait t1 + totalWait t2.
Proof.
  induction t1 as [| e t1 IH]; simpl; [reflexivity |].
  destruct e; rewrite IH; lia.
Qed.

Lemma totalWait_pollEffects (polled : list Operation) :
  totalWait (pollEffects polled) = 5000 * Z.of_nat (length polled).
Proof.
  unfold pollEffects. induction polled as [| o polled IH]; [reflexivity |].
  simpl flat_map. simpl length. rewrite Nat2Z.inj_succ. simpl. rewrite IH. lia.
Qed.

Lemma countPolls_app (t1 t2 : list Effect) :
  countPolls (t1 ++ t2) = (countPolls t1 + countPolls t2)%nat.
Proof. unfold countPolls. rewrite List.filter_app, length_app. reflexivity. Qed.

Section PollerBounds.
Context (API_KEY : string) {Server : Type}.
Context (generateVideos : GenerateVideosRequest -> Server -> JS.Completion Operation * Server).
Context (getVideosOperation : Operation -> Server -> JS.Completion Operation * Server).

(** While every poll answers with a handle that is not done, the loop uses
    up all its fuel. *)
Lemma pollingLoop_starves (fuel : nat) (operation : Operation) (srv : Server)
    (trace : list Effect) :
  (forall op s, exists op' s',
      getVideosOperation op s = (JS.Normal op', s') /\ done op' = false) ->
  done operation = false ->
  exists srv' polled,
    pollingLoop getVideosOperation fuel operation srv trace
      = (None, srv', trace ++ pollEffects polled) /\
    length polled = fuel.
Proof.
  intros Hnever. revert operation srv trace.
  induction fuel as [| fuel IH]; intros op srv trace Hd; simpl; rewrite Hd.
  - exists srv, []. rewrite app_nil_r. split; reflexivity.
  - destruct (Hnever op srv) as (op' & s' & Hp & Hd'). rewrite Hp.
    destruct (IH op' s' ((trace ++ [SetTimeout 5000]) ++ [GetVideosOperation op]) Hd')
      as (srv' & polled & E & L).
    exists srv', (op :: polled). rewrite E, <- !app_assoc. simpl. rewrite L.
    split; reflexivity.
Qed.

Lemma PollRun_never (operation : Operation) (srv : Server) polled r srv' :
  (forall op s, exists op' s',
      getVideosOperation op s = (JS.Normal op', s') /\ done op' = false) ->
  done operation = false ->
  ~ PollRun getVideosOperation operation srv polled r srv'.
Proof.
  intros Hnever Hd Hrun.
  induction Hrun as [op s Hd' | op s e s' Hd' Hp | op s op' s' polled r s'' Hd' Hp _ IH].
  - congruence.
  - destruct (Hnever op s) as (op' & s1 & Hp' & _). congruence.
  - apply IH. destruct (Hnever op s) as (op1 & s1 & Hp' & Hd1).
    rewrite Hp in Hp'. injection Hp' as -> _. exact Hd1.
Qed.

(** X13. The poller has no bound of its own on the number of polls: against
    a service whose handles are never done and whose polls never fail, it
    polls and waits 5000 ms as many times as it is allowed steps, without
    returning and without a run that ends. *)
Theorem poller_has_no_bound (base64Image prompt : string) (srv srv0 : Server)
    (first : Operation) :
  (forall op s, exists op' s',
      getVideosOperation op s = (JS.Normal op', s') /\ done op' = false) ->
  generateVideos (videoRequest base64Image prompt) srv = (JS.Normal first, srv0) ->
  done first = false ->
  (forall fuel, exists srv' trace,
     generateInspectionVideo API_KEY generateVideos getVideosOperation fuel base64Image prompt srv
       = (None, srv', trace) /\
     countPolls trace = fuel /\ totalWait trace = 5000 * Z.of_nat fuel) /\
  (forall polled r srv', ~ PollRun getVideosOperation first srv0 polled r srv').
Proof.
  intros Hnever Hs Hd. split.
  - intros fuel. unfold generateInspectionVideo. rewrite Hs.
    destruct (pollingLoop_starves fuel first srv0
                [GenerateVideos (videoRequest base64Image prompt)] Hnever Hd)
      as (srv' & polled & E & L).
    rewrite E. exists srv', ([GenerateVideos (videoRequest base64Image prompt)] ++ pollEffects polled).
    split; [reflexivity |].
    rewrite countPolls_app, totalWait_app, countPolls_pollEffects, totalWait_pollEffects, L.
    split; reflexivity.
  - intros polled r srv'. apply PollRun_never; assumption.
Qed.

(** X14. Whenever the poller returns, it returns the same result, service
    state and trace under every larger allowance of steps; it has made one
    submit call, and it has waited 5000 ms before each poll and at no other
    time, so that the total wait is 5000 ms times the number of polls. *)
Theorem poller_result_is_stable (fuel : nat) (base64Image prompt : string) (srv srv' : Server)
    (result : JS.Completion (option string)) (trace : list Effect) :
  generateInspectionVideo API_KEY generateVideos getVideosOperation fuel base64Image prompt srv
    = (Some result, srv', trace) ->
  (forall fuel', (fuel <= fuel')%nat ->
     generateInspectionVideo API_KEY generateVideos getVideosOperation fuel' base64Image prompt srv
       = (Some result, srv', trace)) /\
  countSubmits trace = 1%nat /\
  (countPolls trace <= fuel)%nat /\
  totalWait trace = 5000 * Z.of_nat (countPolls trace).
Proof.
  unfold generateInspectionVideo.
  destruct (generateVideos (videoRequest base64Image prompt) srv) as [[first | e] srv0].
  - destruct (pollingLoop getVideosOperation fuel first srv0
                [GenerateVideos (videoRequest base64Image prompt)])
      as [[[[last | e] |] s] t] eqn:E; simpl; intros H; [| | discriminate];
      injection H as <- <- <-;
      destruct (pollingLoop_sound _ _ _ _ _ _ _ _ E) as (polled & Hrun & -> & Hlen).
    + split; [intros fuel' Hf;
              rewrite (pollingLoop_run _ _ _ _ _ _ Hrun) by lia; reflexivity |].
      rewrite countPolls_app, totalWait_app, countPolls_pollEffects, totalWait_pollEffects.
      split; [simpl; unfold countSubmits; simpl;
              fold (countSubmits (pollEffects polled));
              rewrite countSubmits_pollEffects; reflexivity |].
      split; [exact Hlen | reflexivity].
    + split; [intros fuel' Hf;
              rewrite (pollingLoop_run _ _ _ _ _ _ Hrun) by lia; reflexivity |].
      rewrite !countPolls_app, !totalWait_app, countPolls_pollEffects, totalWait_pollEffects.
      split; [unfold countSubmits; rewrite List.filter_app, length_app; simpl;
              fold (countSubmits (pollEffects polled));
              rewrite countSubmits_pollEffects; reflexivity |].
      change (countPolls [ConsoleError "Video generation failed" e]) with 0%nat.
      change (countPolls [GenerateVideos (videoRequest base64Image prompt)]) with 0%nat.
      split; [lia | simpl; lia].
  - simpl. intros H. injection H as <- <- <-.
    split; [intros; reflexivity |]. split; [reflexivity |]. split; [change (0 <= fuel)%nat; lia | reflexivity].
Qed.

End PollerBounds.

Lemma poller_has_no_bound_witness :
  (forall fuel, exists srv' trace,
     generateInspectionVideo "KEY" Endless.submit Endless.poll fuel "AAAA" "flyover" tt
       = (None, srv', trace) /\
     countPolls trace = fuel /\ totalWait trace = 5000 * Z.of_nat fuel) /\
  (forall polled r srv',
     ~ PollRun Endless.poll (Mock.running "op") tt polled r srv').
Proof.
  apply (poller_has_no_bound "KEY" Endless.submit Endless.poll "AAAA" "flyover" tt tt
           (Mock.running "op")).
  - intros op s. exists (Mock.running "op"), tt. split; reflexivity.
  - reflexivity.
  - reflexivity.
Defined.

Lemma poller_result_is_stable_witness :
  generateInspectionVideo "KEY" (Mock.submit (Mock.running "op0")) Mock.poll 10
    "AAAA" "flyover" (Mock.script3 "https://videos.example/v1")
  = (Some (JS.Normal (Some "https://videos.example/v1&key=KEY")), [],
     GenerateVideos (videoRequest "AAAA" "flyover")
       :: pollEffects [Mock.running "op0"; Mock.running "op1"; Mock.running "op2"]).
Proof.
  apply (poller_result_is_stable "KEY" (Mock.submit (Mock.running "op0")) Mock.poll 3
           "AAAA" "flyover" (Mock.script3 "https://videos.example/v1")).
  - vm_compute. reflexivity.
  - lia.
Defined.

(** ** The chat panel, continued *)

Lemma chat_step_cases (ev : ChatPanel.Event) (sys sys' : ChatPanel.System) :
  ChatPanel.step ev sys = Some sys' ->
  (ChatPanel.messages sys' = ChatPanel.messages sys /\
   ChatPanel.awaiting sys' = ChatPanel.awaiting sys /\
   ChatPanel.requests sys' = ChatPanel.requests sys /\
   (ChatPanel.isTyping sys' = ChatPanel.isTyping sys)) \/
  (exists m,
     sender m = user /\ text m = ChatPanel.input sys /\
     ChatPanel.trimIsEmpty (text m) = false /\
     ChatPanel.messages sys' = ChatPanel.messages sys ++ [m] /\
     ChatPanel.awaiting sys'
       = ChatPanel.awaiting sys
         ++ [ {| ChatPanel.history := ChatPanel.messages sys;
                 ChatPanel.newMessage := ChatPanel.input sys |} ] /\
     ChatPanel.requests sys'
       = ChatPanel.requests sys
         ++ [ {| ChatPanel.history := ChatPanel.messages sys;
                 ChatPanel.newMessage := ChatPanel.input sys |} ]) \/
  (exists i m,
     is_Some (ChatPanel.awaiting sys !! i) /\ sender m = ai /\
     ChatPanel.messages sys' = ChatPanel.messages sys ++ [m] /\
     ChatPanel.awaiting sys' = delete i (ChatPanel.awaiting sys) /\
     ChatPanel.requests sys' = ChatPanel.requests sys /\
     ChatPanel.isTyping sys' = false).
Proof.
  destruct ev as [value | currentUserRole uuid now | i outcome uuid now]; simpl.
  - intros [= <-]. left. repeat split.
  - intros [= <-]. unfold ChatPanel.handleSend.
    destruct (ChatPanel.trimIsEmpty (ChatPanel.input sys)) eqn:E; [left; repeat split |].
    right. left. eexists. simpl. repeat split; try reflexivity. exact E.
  - destruct (ChatPanel.awaiting sys !! i) as [p |] eqn:E; [| discriminate].
    unfold sendChatMessage. destruct outcome as [reply | e]; simpl; intros [= <-];
      right; right; exists i; eexists; (split; [exists p; exact E |]); simpl;
      repeat split; reflexivity.
Qed.

Lemma chat_run_reachable (evs : list ChatPanel.Event) (sys sys' : ChatPanel.System) :
  ChatPanel.reachable sys -> ChatPanel.run evs sys = Some sys' -> ChatPanel.reachable sys'.
Proof.
  revert sys. induction evs as [| ev evs IH]; intros sys Hr H; simpl in H.
  - injection H as <-. exact Hr.
  - destruct (ChatPanel.step ev sys) as [sys1 |] eqn:Hs; [| discriminate].
    apply (IH sys1); [| exact H]. eapply ChatPanel.reachable_step; eassumption.
Qed.

(** *** Blank texts *)

Lemma trim_one (c : ascii) (s : string) :
  ChatPanel.isWhiteSpace c = true -> ChatPanel.trimIsEmpty s = true ->
  ChatPanel.trimIsEmpty (String c s) = true.
Proof. intros Hc Hs. simpl. rewrite Hc, Hs. reflexivity. Qed.

Lemma trim_two (c1 c2 : ascii) (s : string) :
  ChatPanel.isWhiteSpace2 c1 c2 = true -> ChatPanel.trimIsEmpty s = true ->
  ChatPanel.trimIsEmpty (String c1 (String c2 s)) = true.
Proof.
  intros Hc Hs. change (ChatPanel.trimIsEmpty (String c1 (String c2 s)))
    with ((ChatPanel.isWhiteSpace c1 && ChatPanel.trimIsEmpty (String c2 s))
          || ((ChatPanel.isWhiteSpace2 c1 c2 && ChatPanel.trimIsEmpty s)
              || match s with
                 | EmptyString => false
                 | String c3 s3 => ChatPanel.isWhiteSpace3 c1 c2 c3 && ChatPanel.trimIsEmpty s3
                 end)).
  rewrite Hc, Hs. simpl. apply orb_true_r.
Qed.

Lemma trim_three (c1 c2 c3 : ascii) (s : string) :
  ChatPanel.isWhiteSpace3 c1 c2 c3 = true -> ChatPanel.trimIsEmpty s = true ->
  ChatPanel.trimIsEmpty (String c1 (String c2 (String c3 s))) = true.
Proof.
  intros Hc Hs. change (ChatPanel.trimIsEmpty (String c1 (String c2 (String c3 s))))
    with ((ChatPanel.isWhiteSpace c1 && ChatPanel.trimIsEmpty (String c2 (String c3 s)))
          || ((ChatPanel.isWhiteSpace2 c1 c2 && ChatPanel.trimIsEmpty (String c3 s))
              || (ChatPanel.isWhiteSpace3 c1 c2 c3 && ChatPanel.trimIsEmpty s))).
  rewrite Hc, Hs. simpl. rewrite !orb_true_r. reflexivity.
Qed.

Lemma code_in (w : string) : bool_decide (w ∈ whiteSpaceCodes) = true -> w ∈ whiteSpaceCodes.
Proof. apply bool_decide_eq_true_1. Qed.

Lemma isWhiteSpace_code (c : ascii) :
  ChatPanel.isWhiteSpace c = true -> String c EmptyString ∈ whiteSpaceCodes.
Proof.
  unfold ChatPanel.isWhiteSpace. intros H. rewrite <- (ascii_nat_embedding c).
  set (n := nat_of_ascii c) in *. cbv zeta in H.
  apply orb_true_iff in H as [H | H].
  - apply andb_true_iff in H as [H1 H2]. apply Nat.leb_le in H1, H2.
    assert (E : (n = 9 \/ n = 10 \/ n = 11 \/ n = 12 \/ n = 13)%nat) by lia.
    destruct E as [-> | [-> | [-> | [-> | ->]]]]; apply code_in; vm_compute; reflexivity.
  - apply Nat.eqb_eq in H. rewrite H. apply code_in. vm_compute. reflexivity.
Qed.

Lemma isWhiteSpace2_code (c1 c2 : ascii) :
  ChatPanel.isWhiteSpace2 c1 c2 = true ->
  String c1 (String c2 EmptyString) ∈ whiteSpaceCodes.
Proof.
  unfold ChatPanel.isWhiteSpace2. intros H.
  rewrite <- (ascii_N_embedding c1), <- (ascii_N_embedding c2).
  apply andb_true_iff in H as [H1 H2]. apply N.eqb_eq in H1, H2. rewrite H1, H2.
  apply code_in. vm_compute. reflexivity.
Qed.

Lemma isWhiteSpace3_code (c1 c2 c3 : ascii) :
  ChatPanel.isWhiteSpace3 c1 c2 c3 = true ->
  String c1 (String c2 (String c3 EmptyString)) ∈ whiteSpaceCodes.
Proof.
  unfold ChatPanel.isWhiteSpace3.
  rewrite <- (ascii_N_embedding c1), <- (ascii_N_embedding c2), <- (ascii_N_embedding c3).
  rewrite !N_ascii_embedding by apply N_ascii_bounded.
  generalize (N_of_ascii c1) (N_of_ascii c2) (N_of_ascii c3).
  intros n1 n2 n3 H. cbv zeta in H.
  repeat first [ rewrite orb_true_iff in H | rewrite andb_true_iff in H
               | rewrite N.eqb_eq in H | rewrite N.leb_le in H ].
  assert (E : ((n1 = 225 /\ n2 = 154 /\ n3 = 128) \/
              (n1 = 226 /\ n2 = 128 /\
               (n3 = 128 \/ n3 = 129 \/ n3 = 130 \/ n3 = 131 \/ n3 = 132 \/ n3 = 133 \/
                n3 = 134 \/ n3 = 135 \/ n3 = 136 \/ n3 = 137 \/ n3 = 138 \/
                n3 = 168 \/ n3 = 169 \/ n3 = 175)) \/
              (n1 = 226 /\ n2 = 129 /\ n3 = 159) \/
              (n1 = 227 /\ n2 = 128 /\ n3 = 128) \/
              (n1 = 239 /\ n2 = 187 /\ n3 = 191))%N) by lia.
  clear H.
  destruct E as [(-> & -> & ->) | [(-> & -> & E) | [(-> & -> & ->) | [(-> & -> & ->)
                | (-> & -> & ->)]]]].
  - apply code_in. vm_compute. reflexivity.
  - repeat (destruct E as [-> | E]; [apply code_in; vm_compute; reflexivity |]).
    rewrite E. apply code_in. vm_compute. reflexivity.
  - apply code_in. vm_compute. reflexivity.
  - apply code_in. vm_compute. reflexivity.
  - apply code_in. vm_compute. reflexivity.
Qed.

(** The test of the code holds exactly of the blank texts. *)
Lemma trimIsEmpty_blank (s : string) : ChatPanel.trimIsEmpty s = true <-> blank s.
Proof.
  split.
  - assert (H : forall n s, (String.length s <= n)%nat ->
                 ChatPanel.trimIsEmpty s = true -> blank s).
    { clear s. induction n as [| n IH]; intros s Hlen Ht.
      - destruct s; [constructor | simpl in Hlen; lia].
      - destruct s as [| c1 s1]; [constructor |]. simpl in Hlen.
        simpl in Ht. apply orb_true_iff in Ht as [Ht | Ht].
        + apply andb_true_iff in Ht as [Hc Ht].
          apply (blank_cons (String c1 EmptyString) s1);
            [apply isWhiteSpace_code; exact Hc | apply IH; [lia | exact Ht]].
        + destruct s1 as [| c2 s2]; [discriminate |]. simpl in Hlen.
          apply orb_true_iff in Ht as [Ht | Ht].
          * apply andb_true_iff in Ht as [Hc Ht].
            apply (blank_cons (String c1 (String c2 EmptyString)) s2);
              [apply isWhiteSpace2_code; exact Hc | apply IH; [lia | exact Ht]].
          * destruct s2 as [| c3 s3]; [discriminate |]. simpl in Hlen.
            apply andb_true_iff in Ht as [Hc Ht].
            apply (blank_cons (String c1 (String c2 (String c3 EmptyString))) s3);
              [apply isWhiteSpace3_code; exact Hc | apply IH; [lia | exact Ht]]. }
    apply (H (String.length s)). lia.
  - induction 1 as [| w s Hw _ IH]; [reflexivity |].
    unfold whiteSpaceCodes in Hw. apply list_elem_of_fmap in Hw as (bytes & -> & Hw).
    rewrite !elem_of_cons in Hw.
    repeat (destruct Hw as [-> | Hw];
            [match goal with
             | |- ChatPanel.trimIsEmpty (utf8 [?a] +:+ ?t) = true =>
                 apply (trim_one (ascii_of_N a) t)
             | |- ChatPanel.trimIsEmpty (utf8 [?a; ?b] +:+ ?t) = true =>
                 apply (trim_two (ascii_of_N a) (ascii_of_N b) t)
             | |- ChatPanel.trimIsEmpty (utf8 [?a; ?b; ?c] +:+ ?t) = true =>
                 apply (trim_three (ascii_of_N a) (ascii_of_N b) (ascii_of_N c) t)
             end; [vm_compute; reflexivity | exact IH] |]).
    apply elem_of_nil in Hw. contradiction.
Qed.

(** X15. The accounts of the chat log on every state the panel can reach:
    the log holds one user message per request sent and none with a blank
    text, that is, with a text made only of the white space that [trim()]
    strips; beside the welcome message it holds one AI message per request
    that has settled, a failed request being answered by the fallback
    sentence, so no settled request is left without a reply; and the typing
    indicator is off whenever no reply is pending. *)
Theorem chat_log_accounts (sys : ChatPanel.System) :
  ChatPanel.reachable sys ->
  length (List.filter isUser (ChatPanel.messages sys)) = length (ChatPanel.requests sys) /\
  (length (List.filter isAi (ChatPanel.messages sys)) + length (ChatPanel.awaiting sys)
     = 1 + length (ChatPanel.requests sys))%nat /\
  Forall (fun m => isUser m = true -> ~ blank (text m)) (ChatPanel.messages sys) /\
  (ChatPanel.awaiting sys = [] -> ChatPanel.isTyping sys = false).
Proof.
  induction 1 as [now | ev sys sys' _ IH Hs].
  - simpl. repeat split; try reflexivity; repeat constructor; discriminate.
  - destruct IH as (I1 & I2 & I3 & I4).
    destruct (chat_step_cases _ _ _ Hs)
      as [(Em & Ea & Er & Et)
         | [(m & Hu & _ & Hb & Em & Ea & Er) | (i & m & Hi & Hai & Em & Ea & Er & Et)]];
      rewrite Em, Ea, Er, ?Et.
    + repeat split; assumption.
    + rewrite !List.filter_app, !length_app. unfold isUser, isAi. simpl. rewrite Hu. simpl.
      fold isUser isAi. repeat split; try lia.
      * apply Forall_app. split; [exact I3 |]. constructor; [| constructor].
        intros _ Hblank. apply trimIsEmpty_blank in Hblank. congruence.
      * intros H. destruct (ChatPanel.awaiting sys); discriminate.
    + rewrite !List.filter_app, !length_app. unfold isUser, isAi. simpl. rewrite Hai. simpl.
      fold isUser isAi. rewrite length_delete by exact Hi.
      assert (0 < length (ChatPanel.awaiting sys))%nat.
      { destruct Hi as [p Hp]. apply lookup_lt_Some in Hp. lia. }
      repeat split; try lia.
      apply Forall_app. split; [exact I3 |]. constructor; [| constructor].
      unfold isUser. rewrite Hai. discriminate.
Qed.

Lemma chat_log_accounts_witness :
  length (List.filter isUser (ChatPanel.messages Samples.afterBothReplies))
    = length (ChatPanel.requests Samples.afterBothReplies) /\
  (length (List.filter isAi (ChatPanel.messages Samples.afterBothReplies))
   + length (ChatPanel.awaiting Samples.afterBothReplies)
     = 1 + length (ChatPanel.requests Samples.afterBothReplies))%nat.
Proof.
  destruct (chat_log_accounts Samples.afterBothReplies) as (H1 & H2 & _).
  - apply (chat_run_reachable (Samples.overlappingSends ++ Samples.bothReplies)
             (ChatPanel.initialSystem 0));
      [apply ChatPanel.reachable_initial | vm_compute; reflexivity].
  - split; assumption.
Defined.

(** A send whose input is a no-break space, U+00A0, and an ideographic
    space, U+3000, changes nothing. *)
Example blank_send_is_ignored :
  let sys := {| ChatPanel.messages := [ChatPanel.welcome 0];
                ChatPanel.input := utf8 [194; 160; 227; 128; 128; 32]%N;
                ChatPanel.isTyping := false; ChatPanel.awaiting := [];
                ChatPanel.requests := [] |} in
  ChatPanel.step (ChatPanel.Send "Field Engineer" "m1" 10) sys = Some sys.
Proof. vm_compute. reflexivity. Qed.

(** X16. Every request the panel has sent carries the log as it stood
    just before the user's message was added, and that message follows in
    the log, with the text that was sent; replies that arrive later are
    added behind it and never change what is before them.  Every pending
    reply belongs to a request that was sent. *)
Theorem chat_requests_carry_the_log (sys : ChatPanel.System) :
  ChatPanel.reachable sys ->
  Forall (fun p => exists m rest,
            ChatPanel.messages sys = ChatPanel.history p ++ m :: rest /\
            sender m = user /\ text m = ChatPanel.newMessage p)
         (ChatPanel.requests sys) /\
  (forall p, p ∈ ChatPanel.awaiting sys -> p ∈ ChatPanel.requests sys).
Proof.
  induction 1 as [now | ev sys sys' _ [I1 I2] Hs].
  - split; [constructor | intros p Hp; apply elem_of_nil in Hp; contradiction].
  - assert (Hold : forall m',
               Forall (fun p => exists m rest,
                         ChatPanel.messages sys ++ [m'] = ChatPanel.history p ++ m :: rest /\
                         sender m = user /\ text m = ChatPanel.newMessage p)
                      (ChatPanel.requests sys)).
    { intros m'. eapply Forall_impl; [exact I1 |].
      intros p (m & rest & E & Hu & Ht). exists m, (rest ++ [m']).
      rewrite E, <- app_assoc. repeat split; assumption. }
    destruct (chat_step_cases _ _ _ Hs)
      as [(Em & Ea & Er & _)
         | [(m & Hu & Ht & _ & Em & Ea & Er) | (i & m & _ & _ & Em & Ea & Er & _)]];
      rewrite Em, Ea, Er.
    + split; assumption.
    + split.
      * apply Forall_app. split; [apply Hold |]. constructor; [| constructor].
        exists m, []. simpl. repeat split; assumption.
      * intros p Hp. apply elem_of_app in Hp as [Hp | Hp]; apply elem_of_app;
          [left; apply I2; exact Hp | right; exact Hp].
    + split; [apply Hold |].
      intros p Hp. apply I2. eapply list_elem_of_delete_inv. exact Hp.
Qed.

Lemma chat_requests_carry_the_log_witness :
  Forall (fun p => exists m rest,
            ChatPanel.messages Samples.afterBothReplies = ChatPanel.history p ++ m :: rest /\
            sender m = user /\ text m = ChatPanel.newMessage p)
         (ChatPanel.requests Samples.afterBothReplies).
Proof.
  apply (chat_requests_carry_the_log Samples.afterBothReplies).
  apply (chat_run_reachable (Samples.overlappingSends ++ Samples.bothReplies)
           (ChatPanel.initialSystem 0));
    [apply ChatPanel.reachable_initial | vm_compute; reflexivity].
Defined.

(** ** The guidance loop, continued *)

Lemma guidance_run_reachable (evs : list Guidance.Event) (st st' : Guidance.State) :
  Guidance.reachable st -> Guidance.run evs st = Some st' -> Guidance.reachable st'.
Proof.
  revert st. induction evs as [| ev evs IH]; intros st Hr H; simpl in H.
  - injection H as <-. exact Hr.
  - destruct (Guidance.step ev st) as [st1 |] eqn:Hs; [| discriminate].
    apply (IH st1); [| exact H]. eapply Guidance.reachable_step; eassumption.
Qed.

(** While guidance is on, one timer is live and its next scan is due within
    3000 ms; guidance is off while an image is captured. *)
Lemma loop_step (ev : Guidance.Event) (st st' : Guidance.State) :
  timerInv st ->
  (Guidance.isGuidanceActive st = true ->
   exists id due, Guidance.timers st = [(id, due)] /\
     Guidance.clock st <= due <= Guidance.clock st + 3000) ->
  (Guidance.captured st = true -> Guidance.isGuidanceActive st = false) ->
  Guidance.step ev st = Some st' ->
  (Guidance.isGuidanceActive st' = true ->
   exists id due, Guidance.timers st' = [(id, due)] /\
     Guidance.clock st' <= due <= Guidance.clock st' + 3000) /\
  (Guidance.captured st' = true -> Guidance.isGuidanceActive st' = false).
Proof.
  intros Hinv L1 L2 H.
  assert (Hcommit : forall a c, (a = true -> c = false) ->
            (Guidance.isGuidanceActive (Guidance.commit a c st) = true ->
             exists id due, Guidance.timers (Guidance.commit a c st) = [(id, due)] /\
               Guidance.clock (Guidance.commit a c st) <= due
                 <= Guidance.clock (Guidance.commit a c st) + 3000) /\
            (Guidance.captured (Guidance.commit a c st) = true ->
             Guidance.isGuidanceActive (Guidance.commit a c st) = false)).
  { intros a c Hac.
    destruct (decide ((a, c) = (Guidance.isGuidanceActive st, Guidance.captured st))) as [E | E].
    - injection E as -> ->. unfold Guidance.commit. rewrite !bool_decide_eq_true_2 by reflexivity.
      split; assumption.
    - pose proof (commit_changed a c st Hinv E) as (Hck & Ha & Hc & _ & Hrest). cbv zeta in *.
      rewrite Ha, Hc, Hck. destruct a.
      + rewrite (Hac eq_refl) in *. simpl in Hrest. destruct Hrest as (Ht & _).
        split; [| discriminate]. intros _. rewrite Ht. eexists _, _. split; [reflexivity | lia].
      + split; [discriminate | reflexivity]. }
  destruct ev as [| | | | ms | i outcome]; simpl in H.
  - destruct (Guidance.captured st) eqn:Hc; [discriminate |]. injection H as <-.
    apply Hcommit. reflexivity.
  - destruct (Guidance.captured st); [discriminate |]. injection H as <-.
    apply Hcommit. discriminate.
  - destruct (Guidance.captured st); [| discriminate]. injection H as <-.
    apply Hcommit. discriminate.
  - destruct Hinv as [Hn [Ht | (id & due & Ht & Hr & Ha & Hc)]]; rewrite Ht in H;
      [discriminate |].
    destruct (bool_decide (Guidance.clock st <= due)); [| discriminate]. injection H as <-.
    unfold Guidance.scanFrame. simpl. rewrite Hc. simpl.
    split; [| intros; discriminate]. intros _. eexists _, _. split; [reflexivity | lia].
  - match type of H with (if ?b then _ else _) = _ => destruct b eqn:Hg end; [| discriminate].
    injection H as <-. simpl. split; [| exact L2].
    intros Ha. destruct (L1 Ha) as (id & due & Ht & Hd).
    apply andb_true_iff in Hg as [Hms Hall]. apply bool_decide_eq_true in Hms.
    rewrite Ht in Hall. simpl in Hall. rewrite andb_true_r in Hall.
    apply bool_decide_eq_true in Hall.
    exists id, due. split; [exact Ht | lia].
  - destruct (Guidance.inflight st !! i); [| discriminate].
    destruct outcome; injection H as <-; simpl; split; assumption.
Qed.

(** X17. On every state the guidance loop can reach, a scan timer is live
    exactly while guidance is switched on, and then it is the only one and
    its next scan is due within the next 3000 ms; guidance is never on
    while an image is captured, so a capture always ends the scanning. *)
Theorem guidance_scans_while_on (st : Guidance.State) :
  Guidance.reachable st ->
  (Guidance.timers st <> [] <-> Guidance.isGuidanceActive st = true) /\
  (Guidance.captured st = true -> Guidance.isGuidanceActive st = false) /\
  (length (Guidance.timers st) <= 1)%nat /\
  Forall (fun t => Guidance.clock st <= t.2 <= Guidance.clock st + 3000) (Guidance.timers st).
Proof.
  intros Hr. pose proof (timerInv_reachable st Hr) as Hinv.
  assert (HL : (Guidance.isGuidanceActive st = true ->
                exists id due, Guidance.timers st = [(id, due)] /\
                  Guidance.clock st <= due <= Guidance.clock st + 3000) /\
               (Guidance.captured st = true -> Guidance.isGuidanceActive st = false)).
  { induction Hr as [| ev st st' Hr IH Hs]; [split; discriminate |].
    destruct (IH (timerInv_reachable st Hr)) as [L1 L2].
    exact (loop_step ev st st' (timerInv_reachable st Hr) L1 L2 Hs). }
  destruct HL as [L1 L2].
  destruct Hinv as [_ [Ht | (id & due & Ht & _ & Ha & _)]].
  - rewrite Ht. split; [| split; [exact L2 | split; [simpl; lia | constructor]]].
    split; [contradiction |]. intros Ha. destruct (L1 Ha) as (id & due & Ht' & _). congruence.
  - destruct (L1 Ha) as (id' & due' & Ht' & Hd). rewrite Ht'.
    split; [split; [intros _; exact Ha | discriminate] |].
    split; [exact L2 |]. split; [simpl; lia |]. constructor; [exact Hd | constructor].
Qed.

Lemma guidance_scans_while_on_witness :
  (Guidance.timers Samples.guidance2 <> [] <->
   Guidance.isGuidanceActive Samples.guidance2 = true) /\
  (Guidance.captured Samples.guidance2 = true ->
   Guidance.isGuidanceActive Samples.guidance2 = false) /\
  (length (Guidance.timers Samples.guidance2) <= 1)%nat /\
  Forall (fun t => Guidance.clock Samples.guidance2 <= t.2
                   <= Guidance.clock Samples.guidance2 + 3000)
         (Guidance.timers Samples.guidance2).
Proof.
  apply (guidance_scans_while_on Samples.guidance2).
  apply (guidance_run_reachable (Guidance.ClickGuidance :: Samples.guidanceOn)
           Guidance.initialState);
    [apply Guidance.reachable_initial | vm_compute; reflexivity].
Defined.

(** ** The analysis in flight *)

Lemma in_flight_nonempty (sys : FieldView.System) (b : option string) (c : string) :
  FieldView.AwaitAnalyze b c ∈ FieldView.awaiting sys -> analyzeInFlight sys <> [].
Proof.
  intros H. apply list_elem_of_lookup in H as [i Hi].
  exact (filter_lookup_nonempty FieldView.isAwaitAnalyze _ _ _ Hi eq_refl).
Qed.

Lemma shown_image_step (ev : FieldView.Event) (sys sys' : FieldView.System) :
  flightInv sys ->
  (forall b c, FieldView.AwaitAnalyze b c ∈ FieldView.awaiting sys ->
     exists img, FieldView.capturedImage (FieldView.view sys) = Some img /\
                 b = FieldView.splitComma1 img) ->
  FieldView.step ev sys = Some sys' ->
  forall b c, FieldView.AwaitAnalyze b c ∈ FieldView.awaiting sys' ->
    exists img, FieldView.capturedImage (FieldView.view sys') = Some img /\
                b = FieldView.splitComma1 img.
Proof.
  intros G J H b c Hin.
  destruct ev as [dataUrl | | value | | i outcome | i outcome | | uuid now | ]; simpl in H.
  - destruct (JS.truthy (FieldView.capturedImage (FieldView.view sys))) eqn:Ht;
      simpl in H; [discriminate |]. injection H as <-.
    destruct (not_analyzing_when_no_image sys G Ht) as (_ & _ & Hf).
    exfalso. apply (in_flight_nonempty sys b c); [| exact Hf].
    unfold FieldView.handleCapture in Hin.
    destruct (FieldView.videoRef_current _); exact Hin.
  - destruct (negb _); [| discriminate]. injection H as <-. exact (J b c Hin).
  - injection H as <-. exact (J b c Hin).
  - destruct (JS.truthy (FieldView.capturedImage (FieldView.view sys))) eqn:Ht;
      simpl in H; [| discriminate].
    destruct (bool_decide (is_Some (FieldView.analysis (FieldView.view sys)))) eqn:Hs;
      simpl in H; [discriminate |].
    destruct (FieldView.isAnalyzing (FieldView.view sys)) eqn:Ha; simpl in H; [discriminate |].
    injection H as <-.
    assert (Hf : analyzeInFlight sys = []).
    { destruct (analyzeInFlight sys) eqn:E; [reflexivity |].
      destruct G as (_ & _ & G3). destruct G3; congruence. }
    unfold FieldView.handleAnalyze in *.
    destruct (FieldView.capturedImage (FieldView.view sys)) as [[| ch img] |] eqn:Hc;
      try discriminate.
    simpl in *. apply elem_of_app in Hin as [Hin | Hin].
    + exfalso. exact (in_flight_nonempty sys b c Hin Hf).
    + apply list_elem_of_singleton in Hin. injection Hin as -> ->.
      exists (String ch img). split; [exact Hc | reflexivity].
  - destruct (FieldView.awaiting sys !! i) as [[b0 c0 | b0 c0] |] eqn:Hi; try discriminate.
    assert (Hold : FieldView.AwaitAnalyze b c ∈ delete i (FieldView.awaiting sys) ->
                   exists img, FieldView.capturedImage (FieldView.view sys) = Some img /\
                               b = FieldView.splitComma1 img).
    { intros Hd. apply (J b c). eapply list_elem_of_delete_inv. exact Hd. }
    destruct outcome as [result | e]; injection H as <-; [| exact (Hold Hin)].
    unfold FieldView.handleAnalyze_resume, FieldView.handleAugment in *.
    destruct (FieldView.wantsOverlay result); simpl in *; [| exact (Hold Hin)].
    apply elem_of_app in Hin as [Hin | Hin]; [exact (Hold Hin) |].
    apply list_elem_of_singleton in Hin. discriminate.
  - destruct (FieldView.awaiting sys !! i) as [[b0 c0 | b0 c0] |] eqn:Hi; try discriminate.
    destruct outcome as [overlay | e]; injection H as <-; simpl in *;
      apply (J b c); eapply list_elem_of_delete_inv; exact Hin.
  - match type of H with (if ?x then _ else _) = _ => destruct x end; [| discriminate].
    injection H as <-. exact (J b c Hin).
  - destruct (JS.truthy (FieldView.capturedImage (FieldView.view sys))) eqn:Ht;
      simpl in H; [| discriminate].
    destruct (bool_decide (is_Some (FieldView.analysis (FieldView.view sys)))) eqn:Hs;
      simpl in H; [| discriminate].
    injection H as <-. apply bool_decide_eq_true in Hs.
    destruct (not_analyzing_when_analyzed sys G Hs) as [_ Hf].
    exfalso. apply (in_flight_nonempty sys b c); [| exact Hf].
    destruct Hs as [a Ha].
    destruct (FieldView.capturedImage (FieldView.view sys)) as [[| ch img] |] eqn:Hc;
      try discriminate.
    destruct (handleSave_commits uuid now sys ch img a Hc Ha) as (item & _ & (_ & Haw & _) & _).
    rewrite Haw in Hin. exact Hin.
  - destruct (JS.truthy (FieldView.capturedImage (FieldView.view sys))) eqn:Ht;
      simpl in H; [| discriminate].
    destruct (bool_decide (is_Some (FieldView.analysis (FieldView.view sys)))) eqn:Hs;
      simpl in H; [| discriminate].
    injection H as <-. apply bool_decide_eq_true in Hs.
    destruct (not_analyzing_when_analyzed sys G Hs) as [_ Hf].
    exfalso. exact (in_flight_nonempty sys b c Hin Hf).
Qed.

(** X18. In a view that stays mounted, at most one analysis request is
    pending at any time, and it was made for the captured image that the
    view holds, the image that a save stores as [imageUrl]: while the
    request is pending the view is analysing, has no analysis yet, and
    offers neither analyse, save, discard nor the shutter, and the result
    that arrives becomes the analysis held beside that captured image.
    Nothing is said of the overlay, which is set when its own request
    settles, whatever image the view holds then. *)
Theorem analysis_is_for_captured_image (sys : FieldView.System) :
  FieldView.reachable sys ->
  (length (analyzeInFlight sys) <= 1)%nat /\
  (forall i b c, FieldView.awaiting sys !! i = Some (FieldView.AwaitAnalyze b c) ->
     exists img,
       FieldView.capturedImage (FieldView.view sys) = Some img /\
       b = FieldView.splitComma1 img /\
       FieldView.isAnalyzing (FieldView.view sys) = true /\
       FieldView.analysis (FieldView.view sys) = None /\
       FieldView.step FieldView.ClickAnalyze sys = None /\
       (forall uuid now, FieldView.step (FieldView.ClickSave uuid now) sys = None) /\
       FieldView.step FieldView.ClickDiscard sys = None /\
       (forall dataUrl, FieldView.step (FieldView.ClickShutter dataUrl) sys = None) /\
       (forall r, exists sys',
          FieldView.step (FieldView.AnalyzeSettles i (JS.Normal r)) sys = Some sys' /\
          FieldView.capturedImage (FieldView.view sys') = Some img /\
          FieldView.analysis (FieldView.view sys') = Some r)).
Proof.
  intros Hr. pose proof (flightInv_reachable sys Hr) as G.
  assert (J : forall b c, FieldView.AwaitAnalyze b c ∈ FieldView.awaiting sys ->
                exists img, FieldView.capturedImage (FieldView.view sys) = Some img /\
                            b = FieldView.splitComma1 img).
  { induction Hr as [| ev sys sys' Hr IH Hs].
    - intros b c Hin. apply elem_of_nil in Hin. contradiction.
    - exact (shown_image_step ev sys sys' (flightInv_reachable sys Hr)
               (IH (flightInv_reachable sys Hr)) Hs). }
  destruct G as (G1 & G2 & G3). split.
  - destruct (analyzeInFlight sys) eqn:E; [simpl; lia | apply G3; discriminate].
  - intros i b c Hi.
    assert (Hin : FieldView.AwaitAnalyze b c ∈ FieldView.awaiting sys)
      by (eapply list_elem_of_lookup_2; exact Hi).
    destruct (J b c Hin) as (img & Hc & Hb).
    destruct (G3 (in_flight_nonempty sys b c Hin)) as [Ha _].
    destruct (G1 Ha) as [Ht Hn].
    exists img. split; [exact Hc |]. split; [exact Hb |]. split; [exact Ha |].
    split; [exact Hn |]. simpl. rewrite Ht, Hn, Ha, Hi. simpl.
    split; [reflexivity |]. split; [reflexivity |]. split; [reflexivity |].
    split; [reflexivity |].
    intros r. eexists. split; [reflexivity |].
    unfold FieldView.handleAnalyze_resume, FieldView.handleAugment.
    destruct (FieldView.wantsOverlay r); simpl; split; (exact Hc || reflexivity).
Qed.

Lemma analysis_is_for_captured_image_witness :
  (length (analyzeInFlight Samples.analyzingSystem) <= 1)%nat /\
  FieldView.capturedImage (FieldView.view Samples.analyzingSystem)
    = Some "data:image/jpeg;base64,AAAA" /\
  FieldView.awaiting Samples.analyzingSystem
    = [FieldView.AwaitAnalyze (Some "AAAA") "Fuselage - Section 4A"].
Proof.
  split; [| split; reflexivity].
  apply (analysis_is_for_captured_image Samples.analyzingSystem).
  apply (run_reachable Samples.analyzingEvents FieldView.initialSystem);
    [apply FieldView.reachable_initial | vm_compute; reflexivity].
Defined.

(** An overlay can come from an earlier session: the overlay requested for
    a first image settles after that image was saved and a second one was
    captured and analysed; it is then held, and stored by a save, beside
    the second image and its analysis. *)
Example overlay_of_an_earlier_image :
  FieldView.capturedImage (FieldView.view Samples.staleOverlaySystem)
    = Some "data:image/jpeg;base64,BBBB" /\
  FieldView.analysis (FieldView.view Samples.staleOverlaySystem)
    = Some (Samples.analysisOf "Crack" false) /\
  FieldView.annotatedImage (FieldView.view Samples.staleOverlaySystem)
    = Some "data:image/png;base64,overlay-of-AAAA" /\
  FieldView.calls Samples.staleOverlaySystem
    = [FieldView.CallAnalyze (Some "AAAA") "Fuselage - Section 4A";
       FieldView.CallAugment (Some "AAAA") "defect: Surface Rust";
       FieldView.CallAnalyze (Some "BBBB") "Fuselage - Section 4A"].
Proof. repeat split; vm_compute; reflexivity. Qed.
